(** * Beauty-battle bot: submission, moderation and tournament voting

    A shallow embedding of [bot.py].  The SQLite database is a record of
    row lists with the schema of [init_db]; the process-wide dictionaries
    [user_states] and [user_data] are finite maps keyed by the Telegram
    user id; a handler is a function from the world before the update to
    the world after it together with the gateway calls it issued.  The
    service of [keep_alive.py] is embedded in the module [keep_alive].

    Conventions.
    - A Python [str] is the list of its code points.
    - A statement run through [cursor.execute] first resolves the columns
      it names against the table ([prepare]); an unknown column raises
      [sqlite3.OperationalError], as SQLite does when it compiles the
      statement, whatever rows the table holds.
    - A handler works on the connection's view of the store; the store of
      the resulting world is that view if the handler reached
      [conn.commit()], and the store it started from otherwise
      ([conn.rollback()], or [conn.close()] with no commit).
    - Gateway calls ([bot.send_message], [bot.answer_callback_query], ...)
      are recorded in order.  In the handlers below every store write
      precedes the gateway calls that report it, so a transport error
      cannot change the resulting stores; transport errors are not
      modelled.
    - [DB_NAME], read by [handle_vote] and [handle_user_state], is bound
      nowhere in the two source files; it is taken to name the one
      database the program opens, ['facemash.db']. *)

From stdpp Require Import gmap list strings.
From Stdlib Require Import ZArith Lia Permutation Sorted.

Open Scope Z_scope.

(** ** Python strings *)

Abbreviation pystr := (list Z).

(** Code points of an ASCII literal. *)
Definition lit (s : string) : pystr :=
  map (fun a => Z.of_N (Ascii.N_of_ascii a)) (String.list_ascii_of_string s).

(** [str.isspace] on one code point (the set [Py_UNICODE_ISSPACE]
    recognises); it is also what [str.strip()] removes and what [\s]
    matches in a [str] pattern. *)
Definition py_isspace (c : Z) : bool :=
  ((9 <=? c) && (c <=? 13)) || ((28 <=? c) && (c <=? 32))
  || (c =? 133) || (c =? 160) || (c =? 5760)
  || ((8192 <=? c) && (c <=? 8202))
  || (c =? 8232) || (c =? 8233) || (c =? 8239) || (c =? 8287) || (c =? 12288).

Fixpoint py_lstrip (s : pystr) : pystr :=
  match s with
  | c :: s' => if py_isspace c then py_lstrip s' else s
  | [] => []
  end.

Definition py_rstrip (s : pystr) : pystr := rev (py_lstrip (rev s)).

(** [s.strip()] *)
Definition py_strip (s : pystr) : pystr := py_rstrip (py_lstrip s).

(** [str.lower] on one code point, for the cased letters of the Basic
    Latin and Cyrillic blocks (A-Z, U+0400-U+040F, U+0410-U+042F); the
    other code points this program compares after lowering are uncased. *)
Definition lower_cp (c : Z) : Z :=
  if (65 <=? c) && (c <=? 90) then c + 32
  else if (1040 <=? c) && (c <=? 1071) then c + 32
  else if (1024 <=? c) && (c <=? 1039) then c + 80
  else c.

Definition py_lower (s : pystr) : pystr := map lower_cp s.

Definition pystr_eqb (a b : pystr) : bool := bool_decide (a = b).

(** [s.split(sep)] for a one-character separator. *)
Fixpoint py_split (sep : Z) (s : pystr) : list pystr :=
  match s with
  | [] => [[]]
  | c :: s' =>
      if c =? sep then [] :: py_split sep s'
      else match py_split sep s' with
           | h :: t => (c :: h) :: t
           | [] => [[c]]
           end
  end.

(** ** Exceptions *)

Inductive exn :=
| OperationalError   (* sqlite3.OperationalError *)
| IntegrityError     (* sqlite3.IntegrityError *)
| ValueError
| KeyError
| IndexError.

(** [isinstance(e, sqlite3.Error)] *)
Definition is_sqlite_error (e : exn) : bool :=
  match e with
  | OperationalError | IntegrityError => true
  | _ => false
  end.

Inductive res (A : Type) :=
| Ok (a : A)
| Raise (e : exn).
Arguments Ok {A} a.
Arguments Raise {A} e.

Definition bind {A B} (m : res A) (k : A -> res B) : res B :=
  match m with
  | Ok a => k a
  | Raise e => Raise e
  end.

Notation "'do' x <- m ; k" := (bind m (fun x => k))
  (at level 10, x name, m at level 100, k at level 200).
Notation "'run' m ; k" := (bind m (fun _ => k))
  (at level 10, m at level 100, k at level 200).

(** [int(s)] on a [str], base 10.  The whitespace around the number is
    dropped, one sign is allowed, and the digits may be grouped by single
    underscores.  A digit is any character with the Unicode property
    [Decimal]: the digits 0-9 and, as a text typed by a user may hold
    them, the digits of the other scripts ([int('٤٨') == 48]); such digits
    come in runs of ten, listed below by their first code point (Unicode
    14, the table of Python 3.11).  The whitespace [int] drops is that of
    [str.isspace] without the four separators U+001C-U+001F.  The bound
    on the number of digits ([sys.int_info.default_max_str_digits], 4300)
    is not reached by a Telegram text or button. *)
Definition decimal_blocks : list Z :=
  [1632; 1776; 1984; 2406; 2534; 2662; 2790; 2918; 3046; 3174; 3302; 3430; 3558;
   3664; 3792; 3872; 4160; 4240; 6112; 6160; 6470; 6608; 6784; 6800; 6992; 7088;
   7232; 7248; 42528; 43216; 43264; 43472; 43504; 43600; 44016; 65296; 66720;
   68912; 69734; 69872; 69942; 70096; 70384; 70736; 70864; 71248; 71360; 71472;
   71904; 72016; 72784; 73040; 73120; 92768; 92864; 93008; 120782; 120792;
   120802; 120812; 120822; 123200; 123632; 125264; 130032].

Definition digit_val (c : Z) : option Z :=
  if (48 <=? c) && (c <=? 57) then Some (c - 48)
  else
    match find (fun first => (first <=? c) && (c <=? first + 9)) decimal_blocks with
    | Some first => Some (c - first)
    | None => None
    end.

Fixpoint int_digits (acc : Z) (after_digit : bool) (s : pystr) : option Z :=
  match s with
  | [] => if after_digit then Some acc else None
  | c :: s' =>
      if c =? 95 then
        if after_digit then int_digits acc false s' else None
      else
        match digit_val c with
        | Some d => int_digits (10 * acc + d) true s'
        | None => None
        end
  end.

Definition int_isspace (c : Z) : bool :=
  py_isspace c && negb ((28 <=? c) && (c <=? 31)).

Fixpoint int_lstrip (s : pystr) : pystr :=
  match s with
  | c :: s' => if int_isspace c then int_lstrip s' else s
  | [] => []
  end.

Definition int_strip (s : pystr) : pystr := rev (int_lstrip (rev (int_lstrip s))).

Definition py_int (s : pystr) : res Z :=
  let s := int_strip s in
  let '(sign, body) :=
    match s with
    | 43 :: b => (1, b)
    | 45 :: b => (-1, b)
    | _ => (1, s)
    end in
  match int_digits 0 false body with
  | Some n => Ok (sign * n)
  | None => Raise ValueError
  end.

(** [l[i]] on a list *)
Definition py_index {A} (l : list A) (i : nat) : res A :=
  match l !! i with
  | Some x => Ok x
  | None => Raise IndexError
  end.

(** ** The store: tables of [init_db] *)

Inductive media := photo | video.
Inductive status := pending | accepted | rejected.

#[global] Instance media_eq_dec : EqDecision media.
Proof. solve_decision. Defined.
#[global] Instance status_eq_dec : EqDecision status.
Proof. solve_decision. Defined.

(** The [created_at] columns are filled by the database and read by no
    handler; the rows below leave them out. *)
Record suggestion := {
  s_id : Z;
  s_name : pystr;
  s_file_id : pystr;
  s_media_type : media;
  suggested_by : Z;
  s_status : status }.

Record photo_row := {
  p_id : Z;
  p_name : pystr;
  p_file_id : pystr;
  approved : Z;
  p_media_type : media;
  votes : Z }.

Record user_vote := {
  uv_user_id : Z;
  uv_photo_id : Z }.

Record tournament := {
  t_id : Z;
  required_votes : Z;
  tournament_duration : Z;
  is_active : Z;
  current_tournament_start : option Z }.

(** [seq_*] is the AUTOINCREMENT counter of the table (the largest id it
    ever handed out); it belongs to the database and is rolled back with
    it. *)
Record db := {
  suggestions : list suggestion;
  photos : list photo_row;
  user_votes : list user_vote;
  tournament_settings : list tournament;
  seq_suggestions : Z;
  seq_photos : Z;
  seq_tournament_settings : Z }.

Inductive table := suggestions_t | photos_t | user_votes_t | tournament_settings_t.

(** Columns after [init_db]: the CREATE TABLE statements and the two
    ALTER TABLE migrations of [photos]. *)
Definition columns (t : table) : list string :=
  match t with
  | suggestions_t =>
      ["id"; "name"; "file_id"; "media_type"; "suggested_by"; "status"; "created_at"]
  | photos_t =>
      ["id"; "name"; "file_id"; "approved"; "created_at"; "media_type"; "votes"]
  | user_votes_t =>
      ["user_id"; "photo_id"; "created_at"]
  | tournament_settings_t =>
      ["id"; "required_votes"; "tournament_duration"; "is_active";
       "current_tournament_start"; "created_at"]
  end%string.

(** Names SQLite accepts for the implicit row id of any of these tables. *)
Definition rowid_names : list string := ["rowid"; "oid"; "_rowid_"]%string.

Definition known_column (t : table) (c : string) : bool :=
  bool_decide (c ∈ columns t ++ rowid_names).

(** Compiling a statement that names columns [cols] of table [t]. *)
Definition prepare (t : table) (cols : list string) : res unit :=
  if forallb (known_column t) cols then Ok tt else Raise OperationalError.

(** *** Row predicates and updates used by the statements *)

Definition active (t : tournament) : bool := is_active t =? 1.
Definition is_approved (p : photo_row) : bool := approved p =? 1.

Definition voted (user_id photo_id : Z) (v : user_vote) : bool :=
  (uv_user_id v =? user_id) && (uv_photo_id v =? photo_id).

Definition set_votes (n : Z) (p : photo_row) : photo_row :=
  {| p_id := p_id p; p_name := p_name p; p_file_id := p_file_id p;
     approved := approved p; p_media_type := p_media_type p; votes := n |}.

Definition set_active (a : Z) (t : tournament) : tournament :=
  {| t_id := t_id t; required_votes := required_votes t;
     tournament_duration := tournament_duration t; is_active := a;
     current_tournament_start := current_tournament_start t |}.

Definition set_required (n : Z) (t : tournament) : tournament :=
  {| t_id := t_id t; required_votes := n;
     tournament_duration := tournament_duration t; is_active := is_active t;
     current_tournament_start := current_tournament_start t |}.

Definition set_status (st : status) (s : suggestion) : suggestion :=
  {| s_id := s_id s; s_name := s_name s; s_file_id := s_file_id s;
     s_media_type := s_media_type s; suggested_by := suggested_by s;
     s_status := st |}.

Definition with_suggestions (l : list suggestion) (n : Z) (d : db) : db :=
  {| suggestions := l; photos := photos d; user_votes := user_votes d;
     tournament_settings := tournament_settings d;
     seq_suggestions := n; seq_photos := seq_photos d;
     seq_tournament_settings := seq_tournament_settings d |}.

Definition with_photos (l : list photo_row) (n : Z) (d : db) : db :=
  {| suggestions := suggestions d; photos := l; user_votes := user_votes d;
     tournament_settings := tournament_settings d;
     seq_suggestions := seq_suggestions d; seq_photos := n;
     seq_tournament_settings := seq_tournament_settings d |}.

Definition with_user_votes (l : list user_vote) (d : db) : db :=
  {| suggestions := suggestions d; photos := photos d; user_votes := l;
     tournament_settings := tournament_settings d;
     seq_suggestions := seq_suggestions d; seq_photos := seq_photos d;
     seq_tournament_settings := seq_tournament_settings d |}.

Definition with_tournaments (l : list tournament) (n : Z) (d : db) : db :=
  {| suggestions := suggestions d; photos := photos d;
     user_votes := user_votes d; tournament_settings := l;
     seq_suggestions := seq_suggestions d; seq_photos := seq_photos d;
     seq_tournament_settings := n |}.

(** [UPDATE ... WHERE cond]: every row satisfying [cond] is rewritten. *)
Definition update_where {A} (cond : A -> bool) (f : A -> A) (l : list A) : list A :=
  map (fun r => if cond r then f r else r) l.

(** [DELETE ... WHERE cond] *)
Definition delete_where {A} (cond : A -> bool) (l : list A) : list A :=
  filter (fun r => cond r = false) l.

(** [INSERT INTO user_votes (user_id, photo_id)]: the table's
    PRIMARY KEY (user_id, photo_id) rejects a second row for the pair. *)
Definition insert_user_vote (user_id photo_id : Z) (d : db) : res db :=
  run prepare user_votes_t ["user_id"; "photo_id"]%string;
  if existsb (voted user_id photo_id) (user_votes d)
  then Raise IntegrityError
  else Ok (with_user_votes
             (user_votes d ++ [{| uv_user_id := user_id; uv_photo_id := photo_id |}]) d).

(** *** ORDER BY: a stable sort on an integer key, ascending *)

Fixpoint insert_by {A} (key : A -> Z) (x : A) (l : list A) : list A :=
  match l with
  | [] => [x]
  | y :: l' => if key x <=? key y then x :: l else y :: insert_by key x l'
  end.

Definition sort_by {A} (key : A -> Z) (l : list A) : list A :=
  foldr (insert_by key) [] l.

(** [ORDER BY p.votes DESC]; rows with equal votes keep the storage
    order. *)
Definition order_by_votes_desc (l : list photo_row) : list photo_row :=
  sort_by (fun p => - votes p) l.

(** ** The conversation store *)

(** [class UserStates] *)
Inductive user_state :=
| START
| WAITING_NAME
| WAITING_MEDIA
| PREVIEW_SUBMISSION
| WAITING_VOTES_COUNT
| WAITING_TOURNAMENT_TIME.

#[global] Instance user_state_eq_dec : EqDecision user_state.
Proof. solve_decision. Defined.

(** A value of [user_data]: a dict with the keys the handlers write. *)
Record bag := {
  name : option pystr;
  file_id : option pystr;
  media_type : option media;
  preview_message_id : option Z;
  votes_count : option Z }.

(** [{}] *)
Definition empty_bag : bag :=
  {| name := None; file_id := None; media_type := None;
     preview_message_id := None; votes_count := None |}.

Definition bag_set_name (n : pystr) (b : bag) : bag :=
  {| name := Some n; file_id := file_id b; media_type := media_type b;
     preview_message_id := preview_message_id b; votes_count := votes_count b |}.

Definition bag_set_votes_count (n : Z) (b : bag) : bag :=
  {| name := name b; file_id := file_id b; media_type := media_type b;
     preview_message_id := preview_message_id b; votes_count := Some n |}.

(** Truth value of the dict: false exactly for [{}]. *)
Definition bag_nonempty (b : bag) : bool :=
  bool_decide (is_Some (name b)) || bool_decide (is_Some (file_id b)) || bool_decide (is_Some (media_type b))
  || bool_decide (is_Some (preview_message_id b)) || bool_decide (is_Some (votes_count b)).

Record world := {
  store : db;
  user_states : gmap Z user_state;
  user_data : gmap Z bag;
  ALLOWED_USERS : list Z }.

Definition ADMIN_ID : Z := 1758948212.

Definition get_user_state (user_id : Z) (w : world) : user_state :=
  default START (user_states w !! user_id).

Definition set_user_state (user_id : Z) (st : user_state) (w : world) : world :=
  {| store := store w; user_states := <[user_id := st]> (user_states w);
     user_data := user_data w; ALLOWED_USERS := ALLOWED_USERS w |}.

(** [user_data[user_id] = b] *)
Definition set_user_data (user_id : Z) (b : bag) (w : world) : world :=
  {| store := store w; user_states := user_states w;
     user_data := <[user_id := b]> (user_data w); ALLOWED_USERS := ALLOWED_USERS w |}.

(** [user_data.pop(user_id, None)] *)
Definition pop_user_data (user_id : Z) (w : world) : world :=
  {| store := store w; user_states := user_states w;
     user_data := delete user_id (user_data w); ALLOWED_USERS := ALLOWED_USERS w |}.

Definition set_store (d : db) (w : world) : world :=
  {| store := d; user_states := user_states w;
     user_data := user_data w; ALLOWED_USERS := ALLOWED_USERS w |}.

(** [if user_id not in ALLOWED_USERS: ALLOWED_USERS.append(user_id)] *)
Definition allow (user_id : Z) (w : world) : world :=
  {| store := store w; user_states := user_states w; user_data := user_data w;
     ALLOWED_USERS := if bool_decide (user_id ∈ ALLOWED_USERS w)
                      then ALLOWED_USERS w else ALLOWED_USERS w ++ [user_id] |}.

(** The stub: registers the user and always grants access. *)
Definition check_subscription (user_id : Z) (w : world) : world * bool :=
  (allow user_id w, true).

(** ** Gateway calls *)

(** The texts the handlers send, named by what they say. *)
Inductive text :=
| subscription_notice        (* send_subscription_message *)
| main_menu                  (* "Доступные команды: ..." *)
| proposal_cancelled         (* "❌ Предложение отменено" *)
| name_length_prompt         (* "Имя должно быть от 2 до 50 символов. Попробуйте еще раз:" *)
| name_charset_prompt        (* "Имя может содержать только буквы, цифры, пробелы и дефис. ..." *)
| ask_media                  (* "Отправьте фото или видео участницы:" *)
| name_failed                (* "Произошла ошибка при обработке имени" *)
| stale_data                 (* "Ошибка: данные устарели. Начните заново с команды /propose" *)
| ask_new_name               (* "Введите новое имя участницы:" *)
| ask_new_media              (* "Отправьте новое фото или видео участницы:" *)
| incomplete_data            (* "Ошибка: неполные данные. ..." *)
| new_suggestion (n : pystr) (from : Z) (suggestion_id : Z)
                             (* "📝 Новое предложение! ..." with the accept and reject buttons *)
| proposal_sent              (* "✅ Ваше предложение отправлено на рассмотрение администратору!" *)
| proposal_sent_toast        (* "Предложение отправлено!" *)
| proposal_save_failed       (* "Произошла ошибка при сохранении предложения" *)
| proposal_cancelled_toast   (* "Предложение отменено" *)
| no_access                  (* "У вас нет доступа к этой функции" *)
| no_bot_access              (* "⛔ У вас нет доступа к боту. Обратитесь к администратору." *)
| bad_format                 (* "Ошибка формата данных" *)
| suggestion_not_found       (* "Предложение не найдено" *)
| already_processed          (* "Это предложение уже было обработано" *)
| suggestion_accepted (n : pystr)   (* "✅ Ваше предложение участницы {name} было принято!" *)
| accepted_toast (n : pystr)        (* "Участница {name} принята!" *)
| added_to_tournament (n : pystr)   (* "✅ Участница {name} успешно добавлена в турнир!" *)
| accept_failed              (* "Ошибка при принятии предложения" *)
| suggestion_rejected (n : pystr)   (* "❌ Ваше предложение участницы {name} было отклонено." *)
| rejected_toast (n : pystr)        (* "Предложение {name} отклонено" *)
| rejected_notice (n : pystr)       (* "❌ Предложение участницы {name} отклонено" *)
| reject_failed              (* "Ошибка при отклонении предложения" *)
| generic_error              (* "Произошла ошибка" *)
| no_active_tournament       (* "🚫 В данный момент нет активного турнира" *)
| voted_for_all              (* "🏁 Вы уже проголосовали за всех участниц!" *)
| vote_card (n : pystr) (v : Z) (part_id : Z)
                             (* "👤 {name} 📊 Текущие голоса: {votes}" with the button vote_{part_id} *)
| voting_start_failed        (* "Произошла ошибка при начале голосования" *)
| already_voted              (* "Вы уже голосовали за эту участницу!" *)
| not_found_or_not_approved  (* "Участница не найдена или не одобрена" *)
| vote_counted (n : pystr) (v : Z)
                             (* "✅ Вы успешно проголосовали за участницу {name}! Текущее количество голосов: {votes}" *)
| vote_accepted              (* "Ваш голос учтен!" *)
| vote_processing_failed     (* "Ошибка при обработке голоса" *)
| vote_failed                (* "Произошла ошибка при голосовании" *)
| winner_announcement (n : pystr) (v : Z)
                             (* "🎉 Турнир завершен! 👑 Победитель: {name} 📊 Набрано голосов: {votes}" *)
| participant_not_found      (* "Участница не найдена" *)
| participant_deleted (n : pystr)   (* "✅ Участница {name} успешно удалена!" *)
| participant_deleted_toast  (* "Участница удалена" *)
| participant_delete_failed  (* "Ошибка при удалении участницы" *)
| ask_votes_count            (* "Введите необходимое количество голосов:" *)
| ask_tournament_time        (* "Введите длительность турнира в часах:" *)
| tournament_already_active  (* "🚫 Уже есть активный турнир" *)
| need_two_participants      (* "❌ Для начала турнира необходимо минимум 2 участницы" *)
| tournament_started (participants_count : Z)
                             (* "✅ Новый турнир запущен! ... Необходимо голосов для победы: 15" *)
| back_to_admin_panel        (* "Используйте кнопку ниже для возврата в админ-панель:" *)
| tournament_start_failed    (* "Произошла ошибка при запуске турнира" *)
| tournament_stop_failed     (* "Произошла ошибка при остановке турнира" *)
| no_tournament_to_stop      (* "🚫 Нет активного турнира" *)
| tournament_stopped (total_participants total_votes required : Z)
                             (* "🏁 Турнир завершен! 📊 Статистика: ..." *)
| votes_out_of_range         (* "Количество голосов должно быть от 1 до 1000." *)
| ask_hours                  (* "Теперь введите продолжительность турнира в часах (от 1 до 168):" *)
| enter_a_number             (* "Пожалуйста, введите число." *)
| hours_out_of_range         (* "Продолжительность должна быть от 1 до 168 часов." *)
| settings_updated (v hours : Z)    (* "✅ Настройки турнира обновлены: ..." *)
| use_buttons                (* "Используйте кнопки для навигации по боту." *)
| message_failed.            (* "Произошла ошибка при обработке вашего сообщения." *)

Inductive output :=
| answer_callback_query (t : text)
| reply_to (t : text)
| send_message (chat_id : Z) (t : text)
| send_media (chat_id : Z) (m : media) (f : pystr) (caption : text)
                             (* bot.send_photo / bot.send_video *)
| delete_message.            (* of the message the callback came from *)

(** An incoming text message and an incoming button press. *)
Record message := { m_from : Z; m_chat : Z; m_text : pystr }.
Record callback := { c_from : Z; c_chat : Z; c_data : pystr }.

(** ** Submission workflow *)

(** [cancel_proposal(message)] *)
Definition cancel_proposal (m : message) (w : world) : world * list output :=
  let user_id := m_from m in
  (pop_user_data user_id (set_user_state user_id START w),
   [send_message (m_chat m) proposal_cancelled]).

(** ["❌ отмена"] *)
Definition cancel_text : pystr := [10060; 32; 1086; 1090; 1084; 1077; 1085; 1072].

(** One character of the class [[а-яА-ЯёЁa-zA-Z0-9\s-]]. *)
Definition name_char (c : Z) : bool :=
  ((1072 <=? c) && (c <=? 1103))        (* а-я *)
  || ((1040 <=? c) && (c <=? 1071))     (* А-Я *)
  || (c =? 1105) || (c =? 1025)         (* ё Ё *)
  || ((97 <=? c) && (c <=? 122))        (* a-z *)
  || ((65 <=? c) && (c <=? 90))         (* A-Z *)
  || ((48 <=? c) && (c <=? 57))         (* 0-9 *)
  || py_isspace c                       (* \s *)
  || (c =? 45).                         (* - *)

(** [re.match(r"^[а-яА-ЯёЁa-zA-Z0-9\s-]+$", name, re.UNICODE)]: one or
    more characters of the class up to the end of the string (the line
    break [$] tolerates at the end is itself in the class). *)
Definition re_match_name (s : pystr) : bool :=
  match s with
  | [] => false
  | _ => forallb name_char s
  end.

Definition len (s : pystr) : Z := Z.of_nat (length s).

(** [handle_name(message)]: a text message from a user whose state is
    [WAITING_NAME]. *)
Definition handle_name (m : message) (w : world) : world * list output :=
  let user_id := m_from m in
  let w := fst (check_subscription user_id w) in
  let w := allow user_id w in
  let name := py_strip (m_text m) in
  if pystr_eqb (py_lower name) cancel_text then cancel_proposal m w
  else if (len name <? 2) || (50 <? len name) then
    (w, [send_message (m_chat m) name_length_prompt])
  else if negb (re_match_name name) then
    (w, [reply_to name_charset_prompt])
  else
    match user_data w !! user_id with
    | None => (w, [reply_to name_failed])        (* KeyError, caught *)
    | Some b =>
        (set_user_state user_id WAITING_MEDIA
           (set_user_data user_id (bag_set_name name b) w),
         [reply_to ask_media])
    end.

(** [start_command(message)]: the [/start] command. *)
Definition start_command (m : message) (w : world) : world * list output :=
  let user_id := m_from m in
  let w :=
    match user_states w !! user_id with
    | Some st =>
        if bool_decide (st <> START)
        then pop_user_data user_id (set_user_state user_id START w)
        else w
    | None => w
    end in
  let w := allow user_id w in
  (w, [send_message (m_chat m) subscription_notice;
       send_message (m_chat m) main_menu]).

(** [cancel_proposal_callback(call)] *)
Definition cancel_proposal_callback (c : callback) (w : world) : world * list output :=
  let user_id := c_from c in
  (pop_user_data user_id (set_user_state user_id START w),
   [delete_message; send_message (c_chat c) proposal_cancelled]).

(** [INSERT INTO suggestions (name, file_id, media_type, suggested_by,
    status) VALUES (?, ?, ?, ?, 'pending')]; returns [lastrowid]. *)
Definition insert_suggestion (n f : pystr) (mt : media) (user_id : Z) (d : db)
  : res (Z * db) :=
  run prepare suggestions_t ["name"; "file_id"; "media_type"; "suggested_by"; "status"]%string;
  let i := seq_suggestions d + 1 in
  Ok (i, with_suggestions
           (suggestions d ++
              [{| s_id := i; s_name := n; s_file_id := f; s_media_type := mt;
                  suggested_by := user_id; s_status := pending |}]) i d).

(** [handle_preview_buttons(call)]: the four buttons under the preview. *)
Definition handle_preview_buttons (c : callback) (w : world) : world * list output :=
  let user_id := c_from c in
  let w := fst (check_subscription user_id w) in
  let w := allow user_id w in
  match user_data w !! user_id with
  | None => (w, [answer_callback_query stale_data])
  | Some b =>
      if pystr_eqb (c_data c) (lit "edit_name") then
        (set_user_state user_id WAITING_NAME w,
         [send_message (c_chat c) ask_new_name; delete_message])
      else if pystr_eqb (c_data c) (lit "edit_media") then
        (set_user_state user_id WAITING_MEDIA w,
         [send_message (c_chat c) ask_new_media; delete_message])
      else if pystr_eqb (c_data c) (lit "send_proposal") then
        if negb (bag_nonempty b) then (w, [answer_callback_query stale_data])
        else
          match name b, file_id b, media_type b with
          | Some n, Some f, Some mt =>
              match insert_suggestion n f mt user_id (store w) with
              | Ok (suggestion_id, d) =>
                  (* conn.commit() *)
                  (pop_user_data user_id (set_user_state user_id START (set_store d w)),
                   [send_media ADMIN_ID mt f (new_suggestion n user_id suggestion_id);
                    delete_message;
                    send_message (c_chat c) proposal_sent;
                    answer_callback_query proposal_sent_toast])
              | Raise e =>
                  if is_sqlite_error e then
                    (w, [answer_callback_query proposal_save_failed])
                  else
                    (pop_user_data user_id (set_user_state user_id START w),
                     [answer_callback_query generic_error])
              end
          | _, _, _ => (w, [answer_callback_query incomplete_data])
          end
      else if pystr_eqb (c_data c) (lit "cancel_proposal") then
        let '(w, out) := cancel_proposal_callback c w in
        (w, out ++ [answer_callback_query proposal_cancelled_toast])
      else (w, [])
  end.

(** ** Moderation workflow *)

(** Storage faults: which of the write steps of one decision raises an
    [sqlite3.Error] for a reason outside the program (disk, lock). *)
Record faults := {
  insert_fails : bool;
  update_fails : bool;
  commit_fails : bool }.

Definition no_faults : faults :=
  {| insert_fails := false; update_fails := false; commit_fails := false |}.

Definition guard (fails : bool) : res unit :=
  if fails then Raise OperationalError else Ok tt.

(** The accept branch up to and including [conn.commit()]:
    [INSERT INTO photos (name, file_id, media_type, approved)
     VALUES (?, ?, ?, 1)], [votes] taking its column default 0, then
    [UPDATE suggestions SET status = 'accepted' WHERE id = ?]. *)
Definition accept_suggestion (f : faults) (s : suggestion) (suggestion_id : Z) (d : db)
  : res db :=
  run prepare photos_t ["name"; "file_id"; "media_type"; "approved"]%string;
  run guard (insert_fails f);
  let photo_id := seq_photos d + 1 in
  let d1 := with_photos
              (photos d ++
                 [{| p_id := photo_id; p_name := s_name s; p_file_id := s_file_id s;
                     approved := 1; p_media_type := s_media_type s; votes := 0 |}])
              photo_id d in
  run prepare suggestions_t ["status"; "id"]%string;
  run guard (update_fails f);
  let d2 := with_suggestions
              (update_where (fun r => s_id r =? suggestion_id) (set_status accepted)
                 (suggestions d1))
              (seq_suggestions d1) d1 in
  run guard (commit_fails f);
  Ok d2.

(** The reject branch up to and including [conn.commit()]:
    [UPDATE suggestions SET status = 'rejected' WHERE id = ?]. *)
Definition reject_suggestion (f : faults) (suggestion_id : Z) (d : db) : res db :=
  run prepare suggestions_t ["status"; "id"]%string;
  run guard (update_fails f);
  let d1 := with_suggestions
              (update_where (fun r => s_id r =? suggestion_id) (set_status rejected)
                 (suggestions d))
              (seq_suggestions d) d in
  run guard (commit_fails f);
  Ok d1.

(** [action = parts[0]; suggestion_id = int(parts[2])] *)
Definition parse_decision (parts : list pystr) : res (pystr * Z) :=
  do action <- py_index parts 0;
  do p <- py_index parts 2;
  do suggestion_id <- py_int p;
  Ok (action, suggestion_id).

(** [handle_suggestion_decision(call)]: the accept and reject buttons of
    a suggestion. *)
Definition handle_suggestion_decision (f : faults) (c : callback) (w : world)
  : world * list output :=
  if bool_decide (c_from c <> ADMIN_ID) then (w, [answer_callback_query no_access])
  else
    let parts := py_split 95 (c_data c) in
    if (length parts <? 3)%nat then (w, [answer_callback_query bad_format])
    else
      match parse_decision parts with
      | Raise _ => (w, [answer_callback_query generic_error])
      | Ok (action, suggestion_id) =>
          match prepare suggestions_t
                  ["name"; "file_id"; "media_type"; "suggested_by"; "status"; "id"]%string with
          | Raise _ => (w, [answer_callback_query generic_error])
          | Ok _ =>
              match find (fun s => s_id s =? suggestion_id) (suggestions (store w)) with
              | None => (w, [answer_callback_query suggestion_not_found])
              | Some s =>
                  if bool_decide (s_status s <> pending) then
                    (w, [answer_callback_query already_processed])
                  else if pystr_eqb action (lit "accept") then
                    match accept_suggestion f s suggestion_id (store w) with
                    | Ok d =>
                        (set_store d w,
                         [send_message (suggested_by s) (suggestion_accepted (s_name s));
                          answer_callback_query (accepted_toast (s_name s));
                          send_message (c_chat c) (added_to_tournament (s_name s));
                          delete_message])
                    | Raise e =>
                        (* conn.rollback() *)
                        (w, [answer_callback_query
                               (if is_sqlite_error e then accept_failed else generic_error)])
                    end
                  else
                    match reject_suggestion f suggestion_id (store w) with
                    | Ok d =>
                        (set_store d w,
                         [send_message (suggested_by s) (suggestion_rejected (s_name s));
                          answer_callback_query (rejected_toast (s_name s));
                          send_message (c_chat c) (rejected_notice (s_name s));
                          delete_message])
                    | Raise e =>
                        (w, [answer_callback_query
                               (if is_sqlite_error e then reject_failed else generic_error)])
                    end
              end
          end
      end.

(** ** Tournament engine *)

(** [check_tournament_completion()], on its own connection: the store it
    is given is the committed one. *)
Definition check_tournament_completion_db (d : db) : res (db * list output) :=
  run prepare photos_t ["approved"; "votes"]%string;
  run prepare tournament_settings_t ["is_active"; "required_votes"]%string;
  let completed_count :=
    length (filter (fun pt => is_approved (fst pt) && active (snd pt)
                              && (required_votes (snd pt) <=? votes (fst pt)) = true)
              (list_prod (photos d) (tournament_settings d))) in
  if (0 <? completed_count)%nat then
    run prepare photos_t ["id"; "name"; "file_id"; "media_type"; "votes"; "approved"]%string;
    match order_by_votes_desc (filter (fun p => is_approved p = true) (photos d)) with
    | winner :: _ =>
        run prepare tournament_settings_t ["is_active"]%string;
        let d1 := with_tournaments
                    (update_where active (set_active 0) (tournament_settings d))
                    (seq_tournament_settings d) d in
        (* conn.commit() *)
        Ok (d1, [send_media ADMIN_ID (p_media_type winner) (p_file_id winner)
                   (winner_announcement (p_name winner) (votes winner))])
    | [] => Ok (d, [])
    end
  else Ok (d, []).

Definition check_tournament_completion (d : db) : db * list output :=
  match check_tournament_completion_db d with
  | Ok r => r
  | Raise _ => (d, [])       (* logged *)
  end.

(** The body of [handle_vote] from the parse of the button data on.  [Ok]
    carries the committed store (the given one where the handler returned
    before writing, or rolled back) and the gateway calls. *)
Definition handle_vote_db (c : callback) (d : db) : res (db * list output) :=
  let user_id := c_from c in
  do part <- py_index (py_split 95 (c_data c)) 1;
  do photo_id <- py_int part;
  run prepare tournament_settings_t ["id"; "is_active"]%string;
  match find active (tournament_settings d) with
  | None => Ok (d, [answer_callback_query no_active_tournament])
  | Some _ =>
      run prepare user_votes_t ["id"; "user_id"; "photo_id"]%string;
      match find (voted user_id photo_id) (user_votes d) with
      | Some _ => Ok (d, [answer_callback_query already_voted])
      | None =>
          run prepare photos_t ["id"; "name"; "approved"]%string;
          match find (fun p => (p_id p =? photo_id) && is_approved p) (photos d) with
          | None => Ok (d, [answer_callback_query not_found_or_not_approved])
          | Some photo_data =>
              let photo_name := p_name photo_data in
              do d1 <- insert_user_vote user_id photo_id d;
              run prepare photos_t ["votes"; "id"]%string;
              let d2 := with_photos
                          (update_where (fun p => p_id p =? photo_id)
                             (fun p => set_votes (votes p + 1) p) (photos d1))
                          (seq_photos d1) d1 in
              run prepare photos_t ["votes"; "id"]%string;
              run prepare tournament_settings_t ["required_votes"; "is_active"]%string;
              match find (fun p => p_id p =? photo_id) (photos d2),
                    find active (tournament_settings d2) with
              | Some p, Some t =>
                  (* conn.commit() *)
                  let '(d3, announced) :=
                    if required_votes t <=? votes p
                    then check_tournament_completion d2 else (d2, []) in
                  Ok (d3, [delete_message] ++ announced ++
                          [send_message (c_chat c) (vote_counted photo_name (votes p));
                           answer_callback_query vote_accepted])
              | _, _ =>
                  (* conn.rollback() *)
                  Ok (d, [answer_callback_query vote_processing_failed])
              end
          end
      end
  end.

(** [handle_vote(call)]: the vote button under a contestant. *)
Definition handle_vote (c : callback) (w : world) : world * list output :=
  let w := fst (check_subscription (c_from c) w) in
  let w := allow (c_from c) w in
  match handle_vote_db c (store w) with
  | Ok (d, out) => (set_store d w, out)
  | Raise _ => (w, [answer_callback_query vote_failed])     (* conn.rollback() *)
  end.

(** [ORDER BY RANDOM()]: [rnd i] is the value [RANDOM()] takes for the
    [i]-th row the query produces. *)
Definition order_by_random {A} (rnd : nat -> Z) (l : list A) : list A :=
  map snd (sort_by fst (imap (fun i r => (rnd i, r)) l)).

(** The rows a voter may still be shown: approved, and with no vote of
    this voter. *)
Definition eligible (user_id : Z) (d : db) : list photo_row :=
  filter (fun p => is_approved p
                   && negb (existsb (voted user_id (p_id p)) (user_votes d)) = true)
    (photos d).

(** [participants] of [start_voting]: the pairing query, with its
    ORDER BY RANDOM() LIMIT 2. *)
Definition participants (rnd : nat -> Z) (user_id : Z) (d : db) : res (list photo_row) :=
  run prepare photos_t ["id"; "name"; "file_id"; "media_type"; "votes"; "approved"]%string;
  run prepare user_votes_t ["user_id"; "photo_id"]%string;
  Ok (take 2 (order_by_random rnd (eligible user_id d))).

Definition start_voting_db (rnd : nat -> Z) (m : message) (d : db) : res (list output) :=
  run prepare tournament_settings_t ["id"; "is_active"]%string;
  match find active (tournament_settings d) with
  | None => Ok [reply_to no_active_tournament]
  | Some _ =>
      do ps <- participants rnd (m_from m) d;
      if (length ps <? 2)%nat then Ok [reply_to voted_for_all]
      else Ok (map (fun p => send_media (m_chat m) (p_media_type p) (p_file_id p)
                                (vote_card (p_name p) (votes p) (p_id p))) ps)
  end.

(** [start_voting(message)] *)
Definition start_voting (rnd : nat -> Z) (m : message) (w : world) : world * list output :=
  let w := fst (check_subscription (m_from m) w) in
  if bool_decide (m_from m ∉ ALLOWED_USERS w) then (w, [reply_to no_bot_access])
  else
    match start_voting_db rnd m (store w) with
    | Ok out => (w, out)
    | Raise _ => (w, [reply_to voting_start_failed])
    end.

(** [handle_participant_deletion(call)] *)
Definition handle_participant_deletion (c : callback) (w : world) : world * list output :=
  if bool_decide (c_from c <> ADMIN_ID) then (w, [answer_callback_query no_access])
  else
    let d := store w in
    let r :=
      do part <- py_index (py_split 95 (c_data c)) 2;
      do participant_id <- py_int part;
      run prepare photos_t ["name"; "id"]%string;
      match find (fun p => p_id p =? participant_id) (photos d) with
      | None => Ok (d, [answer_callback_query participant_not_found])
      | Some participant =>
          run prepare user_votes_t ["photo_id"]%string;
          let d1 := with_user_votes
                      (delete_where (fun v => uv_photo_id v =? participant_id) (user_votes d)) d in
          run prepare photos_t ["id"]%string;
          let d2 := with_photos
                      (delete_where (fun p => p_id p =? participant_id) (photos d1))
                      (seq_photos d1) d1 in
          (* conn.commit() *)
          Ok (d2, [delete_message;
                   send_message (c_chat c) (participant_deleted (p_name participant));
                   answer_callback_query participant_deleted_toast])
      end in
    match r with
    | Ok (d', out) => (set_store d' w, out)
    | Raise e =>
        (w, [answer_callback_query
               (if is_sqlite_error e then participant_delete_failed else generic_error)])
    end.

(** [start_new_tournament(message)]; [now] is CURRENT_TIMESTAMP. *)
Definition start_new_tournament_db (now : Z) (m : message) (d : db)
  : res (db * list output) :=
  run prepare tournament_settings_t ["id"; "is_active"]%string;
  match find active (tournament_settings d) with
  | Some _ => Ok (d, [reply_to tournament_already_active])
  | None =>
      run prepare photos_t ["approved"]%string;
      let participants_count :=
        Z.of_nat (length (filter (fun p => is_approved p = true) (photos d))) in
      if participants_count <? 2 then Ok (d, [reply_to need_two_participants])
      else
        run prepare tournament_settings_t
              ["required_votes"; "tournament_duration"; "is_active";
               "current_tournament_start"]%string;
        let i := seq_tournament_settings d + 1 in
        let d1 := with_tournaments
                    (tournament_settings d ++
                       [{| t_id := i; required_votes := 15; tournament_duration := 24;
                           is_active := 1; current_tournament_start := Some now |}])
                    i d in
        (* conn.commit() *)
        Ok (d1, [reply_to (tournament_started participants_count);
                 send_message (m_chat m) back_to_admin_panel])
  end.

Definition start_new_tournament (now : Z) (m : message) (w : world)
  : world * list output :=
  match start_new_tournament_db now m (store w) with
  | Ok (d, out) => (set_store d w, out)
  | Raise _ => (w, [reply_to tournament_start_failed])
  end.

(** [stop_tournament(message)] *)
Definition stop_tournament_db (m : message) (d : db) : res (db * list output) :=
  run prepare tournament_settings_t ["id"; "required_votes"; "is_active"]%string;
  run prepare photos_t ["approved"]%string;
  match find active (tournament_settings d) with
  | None => Ok (d, [reply_to no_tournament_to_stop])
  | Some t =>
      let total_participants :=
        Z.of_nat (length (filter (fun p => is_approved p = true) (photos d))) in
      let total_votes := Z.of_nat (length (user_votes d)) in
      run prepare tournament_settings_t ["is_active"; "id"]%string;
      let d1 := with_tournaments
                  (update_where (fun r => t_id r =? t_id t) (set_active 0)
                     (tournament_settings d))
                  (seq_tournament_settings d) d in
      (* conn.commit() *)
      Ok (d1, [reply_to (tournament_stopped total_participants total_votes (required_votes t));
               send_message (m_chat m) back_to_admin_panel])
  end.

Definition stop_tournament (m : message) (w : world) : world * list output :=
  match stop_tournament_db m (store w) with
  | Ok (d, out) => (set_store d w, out)
  | Raise _ => (w, [reply_to tournament_stop_failed])
  end.

(** ** Admin configuration workflow *)

(** [handle_tournament_settings(call)]: the four buttons of the
    tournament settings panel.  [call.message] is the panel message, so
    the start and stop replies go to its chat. *)
Definition handle_tournament_settings (now : Z) (c : callback) (w : world)
  : world * list output :=
  let user_id := c_from c in
  let m := {| m_from := c_from c; m_chat := c_chat c; m_text := [] |} in
  if bool_decide (user_id <> ADMIN_ID) then (w, [answer_callback_query no_access])
  else if pystr_eqb (c_data c) (lit "set_votes") then
    (set_user_state user_id WAITING_VOTES_COUNT w, [send_message (c_chat c) ask_votes_count])
  else if pystr_eqb (c_data c) (lit "set_time") then
    (set_user_state user_id WAITING_TOURNAMENT_TIME w,
     [send_message (c_chat c) ask_tournament_time])
  else if pystr_eqb (c_data c) (lit "start_tournament") then start_new_tournament now m w
  else if pystr_eqb (c_data c) (lit "stop_tournament") then stop_tournament m w
  else (w, []).

(** The statement of the second step,
    [UPDATE tournament_settings SET required_votes = ?, duration_hours = ?
     WHERE active = 1], followed by [conn.commit()]. *)
Definition update_tournament_settings (v hours : Z) (d : db) : res db :=
  run prepare tournament_settings_t ["required_votes"; "duration_hours"; "active"]%string;
  Ok (with_tournaments
        (update_where active
           (fun t => {| t_id := t_id t; required_votes := v; tournament_duration := hours;
                        is_active := is_active t;
                        current_tournament_start := current_tournament_start t |})
           (tournament_settings d))
        (seq_tournament_settings d) d).

(** [user_data[user_id][key]] *)
Definition bag_lookup {A} (user_id : Z) (key : bag -> option A) (w : world) : res A :=
  match user_data w !! user_id with
  | Some b => match key b with Some x => Ok x | None => Raise KeyError end
  | None => Raise KeyError
  end.

(** The [WAITING_VOTES_COUNT] branch. *)
Definition handle_votes_count (m : message) (w : world) : res (world * list output) :=
  let user_id := m_from m in
  do v <- py_int (py_strip (m_text m));
  if (v <? 1) || (1000 <? v) then Ok (w, [send_message (m_chat m) votes_out_of_range])
  else
    match user_data w !! user_id with
    | None => Raise KeyError
    | Some b =>
        Ok (set_user_state user_id WAITING_TOURNAMENT_TIME
              (set_user_data user_id (bag_set_votes_count v b) w),
            [send_message (m_chat m) ask_hours])
    end.

(** The [WAITING_TOURNAMENT_TIME] branch. *)
Definition handle_tournament_time (m : message) (w : world) : res (world * list output) :=
  let user_id := m_from m in
  do hours <- py_int (py_strip (m_text m));
  if (hours <? 1) || (168 <? hours) then Ok (w, [send_message (m_chat m) hours_out_of_range])
  else
    do v <- bag_lookup user_id votes_count w;
    do d <- update_tournament_settings v hours (store w);
    let w := set_user_state user_id START (set_store d w) in
    do v' <- bag_lookup user_id votes_count w;
    Ok (w, [send_message (m_chat m) (settings_updated v' hours)]).

(** What the two numeric branches do with an exception: [ValueError] has
    its own handler inside the branch, anything else reaches the
    handler's outer [except]; neither touches the stores. *)
Definition numeric_step (m : message) (w : world) (r : res (world * list output))
  : world * list output :=
  match r with
  | Ok x => x
  | Raise ValueError => (w, [send_message (m_chat m) enter_a_number])
  | Raise _ => (w, [send_message (m_chat m) message_failed])
  end.

(** [handle_user_state(message)] *)
Definition handle_user_state (m : message) (w : world) : world * list output :=
  let user_id := m_from m in
  match get_user_state user_id w with
  | WAITING_NAME => handle_name m w
  | WAITING_VOTES_COUNT => numeric_step m w (handle_votes_count m w)
  | WAITING_TOURNAMENT_TIME => numeric_step m w (handle_tournament_time m w)
  | _ => (set_user_state user_id START w, [send_message (m_chat m) use_buttons])
  end.

(** The data migration at the end of [init_db]:
    [UPDATE tournament_settings SET required_votes = 15
     WHERE is_active = 1 AND required_votes = 100]. *)
Definition init_db (d : db) : db :=
  match prepare tournament_settings_t ["id"; "is_active"; "required_votes"]%string with
  | Ok _ =>
      with_tournaments
        (update_where (fun t => active t && (required_votes t =? 100)) (set_required 15)
           (tournament_settings d))
        (seq_tournament_settings d) d
  | Raise _ => d
  end.

(** ** The handlers as operations on the world *)

(** Every handler above, and with them every statement of the program
    that inserts, updates or deletes a row.  The handlers left out
    ([start_proposal], [handle_media], the [show_*] views, the export and
    restart commands) write no table. *)
Inductive operation :=
| Init_db
| Handle_name (m : message)
| Start_command (m : message)
| Handle_preview_buttons (c : callback)
| Handle_suggestion_decision (f : faults) (c : callback)
| Start_voting (rnd : nat -> Z) (m : message)
| Handle_vote (c : callback)
| Check_tournament_completion
| Handle_participant_deletion (c : callback)
| Handle_tournament_settings (now : Z) (c : callback)
| Handle_user_state (m : message).

Definition step (o : operation) (w : world) : world * list output :=
  match o with
  | Init_db => (set_store (init_db (store w)) w, [])
  | Handle_name m => handle_name m w
  | Start_command m => start_command m w
  | Handle_preview_buttons c => handle_preview_buttons c w
  | Handle_suggestion_decision f c => handle_suggestion_decision f c w
  | Start_voting rnd m => start_voting rnd m w
  | Handle_vote c => handle_vote c w
  | Check_tournament_completion =>
      let '(d, out) := check_tournament_completion (store w) in (set_store d w, out)
  | Handle_participant_deletion c => handle_participant_deletion c w
  | Handle_tournament_settings now c => handle_tournament_settings now c w
  | Handle_user_state m => handle_user_state m w
  end.

(** A run of the program: the operations in the order they are served. *)
Definition steps (os : list operation) (w : world) : world :=
  foldl (fun w o => fst (step o w)) w os.

(** ** Properties of stores *)

Definition active_rows (d : db) : list tournament :=
  filter (fun t => active t = true) (tournament_settings d).

(** At most one row of [tournament_settings] has [is_active = 1]. *)
Definition at_most_one_active (d : db) : Prop := (length (active_rows d) <= 1)%nat.

Definition vote_key (v : user_vote) : Z * Z := (uv_user_id v, uv_photo_id v).

(** PRIMARY KEY (user_id, photo_id) of [user_votes]. *)
Definition votes_unique (d : db) : Prop := NoDup (map vote_key (user_votes d)).

Definition approved_rows (d : db) : list photo_row :=
  filter (fun p => is_approved p = true) (photos d).

(** [WHERE id = ?] on [suggestions] *)
Definition by_id (suggestion_id : Z) (s : suggestion) : bool := s_id s =? suggestion_id.

(** The contestant an accepted suggestion becomes. *)
Definition contestant_of (s : suggestion) (photo_id : Z) : photo_row :=
  {| p_id := photo_id; p_name := s_name s; p_file_id := s_file_id s;
     approved := 1; p_media_type := s_media_type s; votes := 0 |}.

(** The row [start_new_tournament] inserts. *)
Definition new_tournament (i now : Z) : tournament :=
  {| t_id := i; required_votes := 15; tournament_duration := 24;
     is_active := 1; current_tournament_start := Some now |}.

(** What [handle_name] accepts, on the stripped text. *)
Definition name_accepted (n : pystr) : bool :=
  (2 <=? len n) && (len n <=? 50) && forallb name_char n.

(** *** The name rule in the words of the specification

    "length in [2,50] and every character a letter of any script, a
    digit, a space or a hyphen", read on the text as it was sent.
    [spec_letter] covers the letters of the Latin (Basic, Latin-1,
    Extended-A and -B), Greek, Cyrillic, Hebrew and Arabic alphabets, the
    kana and the CJK unified ideographs. *)
Definition spec_letter (c : Z) : bool :=
  ((65 <=? c) && (c <=? 90)) || ((97 <=? c) && (c <=? 122))
  || ((192 <=? c) && (c <=? 591) && negb (c =? 215) && negb (c =? 247))
  || ((913 <=? c) && (c <=? 969) && negb (c =? 930))
  || ((1024 <=? c) && (c <=? 1153))
  || ((1488 <=? c) && (c <=? 1514))
  || ((1569 <=? c) && (c <=? 1610))
  || ((12353 <=? c) && (c <=? 12438)) || ((12449 <=? c) && (c <=? 12538))
  || ((19968 <=? c) && (c <=? 40959)).

Definition spec_name_char (c : Z) : bool :=
  spec_letter c || ((48 <=? c) && (c <=? 57)) || (c =? 32) || (c =? 45).

Definition spec_name_ok (t : pystr) : bool :=
  (2 <=? len t) && (len t <=? 50) && forallb spec_name_char t.

(** ** Sample data *)

Definition sample_photo (i v : Z) : photo_row :=
  {| p_id := i; p_name := lit "Alice"; p_file_id := lit "AgACAgIAAx"; approved := 1;
     p_media_type := photo; votes := v |}.

Definition sample_tournament (required : Z) : tournament :=
  {| t_id := 1; required_votes := required; tournament_duration := 24; is_active := 1;
     current_tournament_start := Some 1700000000 |}.

Definition sample_suggestion : suggestion :=
  {| s_id := 5; s_name := lit "Alice"; s_file_id := lit "AgACAgIAAx";
     s_media_type := photo; suggested_by := 7; s_status := pending |}.

(** Two approved contestants, a pending suggestion, a running tournament
    with threshold 3, and the votes [ballots]. *)
Definition sample_db (ballots : list user_vote) : db :=
  {| suggestions := [sample_suggestion];
     photos := [sample_photo 1 1; sample_photo 2 3];
     user_votes := ballots;
     tournament_settings := [sample_tournament 3];
     seq_suggestions := 5; seq_photos := 2; seq_tournament_settings := 1 |}.

Definition sample_world (ballots : list user_vote) : world :=
  {| store := sample_db ballots; user_states := ∅; user_data := ∅;
     ALLOWED_USERS := [ADMIN_ID] |}.

Definition vote_of (user_id photo_id : Z) : user_vote :=
  {| uv_user_id := user_id; uv_photo_id := photo_id |}.

Definition press (user_id : Z) (data : string) : callback :=
  {| c_from := user_id; c_chat := user_id; c_data := lit data |}.

Definition says (user_id : Z) (t : pystr) : message :=
  {| m_from := user_id; m_chat := user_id; m_text := t |}.

(** A user in state [st] with bag [b]. *)
Definition in_state (user_id : Z) (st : user_state) (b : bag) (w : world) : world :=
  set_user_data user_id b (set_user_state user_id st w).

(** ** Button data

    The inline buttons carry their target in [callback_data], built with
    an f-string from the row id; the callback handlers split it again. *)

Fixpoint str_digits (fuel : nat) (n : Z) (acc : pystr) : pystr :=
  match fuel with
  | O => acc
  | S fuel' =>
      let acc' := (48 + n mod 10) :: acc in
      if n <? 10 then acc' else str_digits fuel' (n / 10) acc'
  end.

(** [str(n)] of an [int], as an f-string renders it: decimal digits, with
    a minus sign below zero. *)
Definition py_str (n : Z) : pystr :=
  if n <? 0 then 45 :: str_digits (S (Z.to_nat (Z.log2 (- n)))) (- n) []
  else str_digits (S (Z.to_nat (Z.log2 n))) n [].

(** [f"accept_suggestion_{suggestion_id}"] and
    [f"reject_suggestion_{suggestion_id}"] ([handle_preview_buttons],
    [show_suggestions]) *)
Definition accept_data (suggestion_id : Z) : pystr :=
  lit "accept_suggestion_" ++ py_str suggestion_id.
Definition reject_data (suggestion_id : Z) : pystr :=
  lit "reject_suggestion_" ++ py_str suggestion_id.

(** [f"vote_{part_id}"] ([start_voting]) *)
Definition vote_data (part_id : Z) : pystr := lit "vote_" ++ py_str part_id.

(** [f"delete_participant_{part_id}"] ([show_participants_for_deletion]) *)
Definition delete_data (part_id : Z) : pystr := lit "delete_participant_" ++ py_str part_id.

(** The characters 0-9, and the value a digit string denotes. *)
Definition is_digit (c : Z) : bool := (48 <=? c) && (c <=? 57).
Definition read_digit (a c : Z) : Z := 10 * a + (c - 48).

(** [int(call.data.split('_')[i])] *)
Definition parse_id (i : nat) (data : pystr) : res Z :=
  do part <- py_index (py_split 95 data) i;
  py_int part.

(** ** Who acts, and well-formed ids *)

(** The user an operation is served for; the migration and the
    evaluation of the win condition have none. *)
Definition actor (o : operation) : option Z :=
  match o with
  | Init_db | Check_tournament_completion => None
  | Handle_name m | Start_command m | Start_voting _ m | Handle_user_state m =>
      Some (m_from m)
  | Handle_preview_buttons c | Handle_suggestion_decision _ c | Handle_vote c
  | Handle_participant_deletion c | Handle_tournament_settings _ c =>
      Some (c_from c)
  end.

(** INTEGER PRIMARY KEY AUTOINCREMENT: the ids of a table are distinct
    and none exceeds the table's counter. *)
Definition keyed {A} (id : A -> Z) (rows : list A) (seq : Z) : Prop :=
  NoDup (map id rows) /\ forall r, In r rows -> id r <= seq.

Definition ids_wf (d : db) : Prop :=
  keyed s_id (suggestions d) (seq_suggestions d)
  /\ keyed p_id (photos d) (seq_photos d)
  /\ keyed t_id (tournament_settings d) (seq_tournament_settings d).

(** ** The remaining message handlers

    [start_proposal], [handle_media], [show_top], [admin_command],
    [cancel_command] and the catch-all [handle_text].  Their gateway
    calls are recorded as [event]s: the calls of the handlers above,
    wrapped, and the texts that only these handlers send.  A send that
    raised is not recorded; the reply that follows it is. *)

Inductive notice :=
| proposal_in_progress      (* "У вас уже есть активный процесс предложения. ..." *)
| ask_name                  (* "Введите имя участницы:" *)
| name_missing              (* "Произошла ошибка: данные о имени отсутствуют. ..." *)
| photo_missing             (* "Не удалось получить фото. Пожалуйста, попробуйте еще раз." *)
| video_missing             (* "Не удалось получить видео. Пожалуйста, попробуйте еще раз." *)
| preview (n : pystr) (m : media)
                            (* "📝 Предварительный просмотр: ..." with the four buttons *)
| photo_send_failed         (* "Не удалось отправить фото. Возможно, формат не поддерживается." *)
| video_send_failed         (* "Не удалось отправить видео. ..." *)
| preview_failed            (* "Не удалось создать превью. Пожалуйста, попробуйте еще раз." *)
| preview_error             (* "Произошла ошибка при создании превью. ..." *)
| check_data                (* "👆 Проверьте правильность данных" *)
| bot_access_denied         (* "⛔ У вас нет доступа к боту. Обратитесь к администратору." *)
| top_empty                 (* "🏆 В данный момент нет участниц в рейтинге" *)
| top_header                (* "🏆 ТОП-3 УЧАСТНИЦ ..." *)
| top_entry (place : nat) (n : pystr) (v : Z)
                            (* "{medal} {i} место 👤 {name} 📊 Голосов: {votes}" *)
| top_failed                (* "Произошла ошибка при получении рейтинга участниц." *)
| admin_panel_denied        (* "⛔ У вас нет доступа к админ-панели" *)
| admin_panel (participants_count pending_count : Z) (tournament_active : bool)
                            (* "👑 АДМИН-ПАНЕЛЬ ..." with the panel buttons *)
| no_panel_access           (* "У вас нет доступа к админ-панели." *)
| report_bug_info.          (* "Если вы обнаружили ошибку ..." *)

Inductive event :=
| gateway (o : output)
| reply (t : notice)
| send (chat_id : Z) (t : notice)
| send_card (chat_id : Z) (m : media) (f : pystr) (caption : notice)
| delete_preview (message_id : Z).

(** [start_proposal(message)]: the [/propose] command and the propose
    button. *)
Definition start_proposal (m : message) (w : world) : world * list event :=
  let user_id := m_from m in
  let w := fst (check_subscription user_id w) in
  if bool_decide (user_id ∉ ALLOWED_USERS w) then (w, [reply bot_access_denied])
  else if bool_decide (get_user_state user_id w <> START) then
    (w, [reply proposal_in_progress])
  else
    (set_user_data user_id empty_bag (set_user_state user_id WAITING_NAME w),
     [reply ask_name]).

(** What a media message carries: the sizes of a photo, smallest first,
    or a video. *)
Inductive content :=
| photo_sizes (file_ids : list pystr)
| video_file (v : option pystr).

Record media_message := { mm_from : Z; mm_chat : Z; mm_content : content }.

(** What sending the preview comes to. *)
Inductive sending :=
| sent (message_id : Z)
| sent_nothing          (* the call returned None *)
| api_exception         (* telebot.apihelper.ApiException *)
| other_exception.

Definition bag_set_media (f : pystr) (mt : media) (b : bag) : bag :=
  {| name := name b; file_id := Some f; media_type := Some mt;
     preview_message_id := preview_message_id b; votes_count := votes_count b |}.

Definition bag_set_preview (i : Z) (b : bag) : bag :=
  {| name := name b; file_id := file_id b; media_type := media_type b;
     preview_message_id := Some i; votes_count := votes_count b |}.

(** [file_id] and [media_type] of the message, or the reply for an empty
    one: [message.photo[-1].file_id], [message.video.file_id]. *)
Definition media_of (c : content) : pystr * media + notice :=
  match c with
  | photo_sizes file_ids =>
      match last file_ids with
      | Some f => inl (f, photo)
      | None => inr photo_missing
      end
  | video_file (Some f) => inl (f, video)
  | video_file None => inr video_missing
  end.

(** [handle_media(message)]: a photo or video from a user whose state is
    [WAITING_MEDIA]; [g] is the outcome of sending the preview. *)
Definition handle_media (g : sending) (m : media_message) (w : world) : world * list event :=
  let user_id := mm_from m in
  let w := allow user_id (fst (check_subscription user_id w)) in
  let w := match user_data w !! user_id with
           | Some _ => w
           | None => set_user_data user_id empty_bag w
           end in
  let b := default empty_bag (user_data w !! user_id) in
  match name b with
  | None => (set_user_state user_id START w, [send (mm_chat m) name_missing])
  | Some n =>
      match media_of (mm_content m) with
      | inr t => (w, [reply t])
      | inl (f, mt) =>
          let b1 := bag_set_media f mt b in
          let w1 := set_user_data user_id b1 w in
          let deleted := match preview_message_id b1 with
                         | Some i => [delete_preview i]
                         | None => []
                         end in
          match g with
          | sent i =>
              (set_user_state user_id PREVIEW_SUBMISSION
                 (set_user_data user_id (bag_set_preview i b1) w1),
               deleted ++ [send_card (mm_chat m) mt f (preview n mt);
                           send (mm_chat m) check_data])
          | api_exception =>
              (w1, deleted ++ [reply (match mt with
                                      | photo => photo_send_failed
                                      | video => video_send_failed
                                      end)])
          | sent_nothing => (w1, deleted ++ [reply preview_failed])
          | other_exception => (w1, deleted ++ [reply preview_error])
          end
      end
  end.

(** The query of [show_top]: [WHERE p.approved = 1 ORDER BY p.votes DESC
    LIMIT 3]. *)
Definition top_participants (d : db) : list photo_row :=
  take 3 (order_by_votes_desc (approved_rows d)).

(** [show_top(message)] *)
Definition show_top (m : message) (w : world) : world * list event :=
  let w := fst (check_subscription (m_from m) w) in
  if bool_decide (m_from m ∉ ALLOWED_USERS w) then (w, [reply bot_access_denied])
  else
    match prepare photos_t ["id"; "name"; "file_id"; "media_type"; "votes"; "approved"]%string with
    | Raise _ => (w, [reply top_failed])
    | Ok _ =>
        match top_participants (store w) with
        | [] => (w, [reply top_empty])
        | top =>
            (w, send (m_chat m) top_header ::
                imap (fun i p => send_card (m_chat m) (p_media_type p) (p_file_id p)
                                   (top_entry (S i) (p_name p) (votes p))) top)
        end
    end.

(** [admin_command(message)] *)
Definition admin_command (m : message) (w : world) : world * list event :=
  if bool_decide (m_from m <> ADMIN_ID) then (w, [reply admin_panel_denied])
  else
    let d := store w in
    let participants_count := Z.of_nat (length (approved_rows d)) in
    let pending_count :=
      Z.of_nat (length (filter (fun s => s_status s = pending) (suggestions d))) in
    let tournament_active := existsb active (tournament_settings d) in
    (w, [reply (admin_panel participants_count pending_count tournament_active)]).

(** [cancel_command(message)]: the [/cancel] command. *)
Definition cancel_command (m : message) (w : world) : world * list event :=
  let '(w, out) := cancel_proposal m w in (w, map gateway out).

(** [handle_report_bug(message)] *)
Definition handle_report_bug (m : message) (w : world) : world * list event :=
  (w, [reply report_bug_info]).

(** The captions of the reply keyboard. *)
Definition label_vote : pystr :=            (* "🎭 Начать голосование" *)
  [127917; 32; 1053; 1072; 1095; 1072; 1090; 1100; 32; 1075; 1086; 1083; 1086; 1089;
   1086; 1074; 1072; 1085; 1080; 1077].
Definition label_top : pystr :=             (* "🏆 Топ участниц" *)
  [127942; 32; 1058; 1086; 1087; 32; 1091; 1095; 1072; 1089; 1090; 1085; 1080; 1094].
Definition label_top_photos : pystr :=      (* "📊 Топ фото" *)
  [128202; 32; 1058; 1086; 1087; 32; 1092; 1086; 1090; 1086].
Definition label_propose : pystr :=         (* "➕ Предложить участницу" *)
  [10133; 32; 1055; 1088; 1077; 1076; 1083; 1086; 1078; 1080; 1090; 1100; 32; 1091;
   1095; 1072; 1089; 1090; 1085; 1080; 1094; 1091].
Definition label_admin : pystr :=           (* "👑 Админ-панель" *)
  [128081; 32; 1040; 1076; 1084; 1080; 1085; 45; 1087; 1072; 1085; 1077; 1083; 1100].
Definition label_report : pystr :=          (* "🔧 Сообщить о поломке" *)
  [128295; 32; 1057; 1086; 1086; 1073; 1097; 1080; 1090; 1100; 32; 1086; 32; 1087;
   1086; 1083; 1086; 1084; 1082; 1077].

Definition labels : list pystr :=
  [label_vote; label_top; label_top_photos; label_propose; label_admin; label_report].

Definition wrap (r : world * list output) : world * list event :=
  (fst r, map gateway (snd r)).

(** [handle_text(message)]: every text no earlier handler took. *)
Definition handle_text (rnd : nat -> Z) (m : message) (w : world) : world * list event :=
  let user_id := m_from m in
  let w := allow user_id (fst (check_subscription user_id w)) in
  if pystr_eqb (m_text m) label_vote then wrap (start_voting rnd m w)
  else if pystr_eqb (m_text m) label_top || pystr_eqb (m_text m) label_top_photos
  then show_top m w
  else if pystr_eqb (m_text m) label_propose then start_proposal m w
  else if pystr_eqb (m_text m) label_admin then
    if bool_decide (user_id = ADMIN_ID) then admin_command m w
    else (w, [send (m_chat m) no_panel_access])
  else if pystr_eqb (m_text m) label_report then handle_report_bug m w
  else
    if bool_decide (is_Some (user_states w !! user_id))
       && bool_decide (is_Some (user_data w !! user_id))
    then wrap (handle_user_state m w)
    else (w, [gateway (send_message (m_chat m) use_buttons)]).

(** ** Which handler takes a text message

    The library tries the message handlers in the order of their
    registration and runs the first whose filters all pass.  A handler
    registered without [content_types] takes text messages only; the
    filter [commands=[c]] passes when [util.extract_command(text)] is
    [c]; the filter [func] is the handler's own test.  For a text
    message the handlers are, in order: [start_proposal] (command
    propose), [handle_name] (state [WAITING_NAME]), [start_command]
    (command start), [admin_command] (command admin), [cancel_command]
    (command cancel) and [handle_text] (every message); [handle_media]
    takes photos and videos only, and the handlers registered after
    [handle_text] are never reached. *)

Fixpoint take_until (stop : Z -> bool) (s : pystr) : pystr :=
  match s with
  | [] => []
  | c :: s' => if stop c then [] else c :: take_until stop s'
  end.

(** [text.split()[0].split('@')[0][1:] if text.startswith('/') else None] *)
Definition extract_command (text : pystr) : option pystr :=
  match text with
  | 47 :: _ =>
      Some (drop 1 (take_until (fun c => c =? 64) (take_until py_isspace text)))
  | _ => None
  end.

Definition has_command (c : string) (m : message) : bool :=
  bool_decide (extract_command (m_text m) = Some (lit c)).

Definition process_new_message (rnd : nat -> Z) (m : message) (w : world)
  : world * list event :=
  if has_command "propose" m then start_proposal m w
  else if bool_decide (get_user_state (m_from m) w = WAITING_NAME) then wrap (handle_name m w)
  else if has_command "start" m then wrap (start_command m w)
  else if has_command "admin" m then admin_command m w
  else if has_command "cancel" m then cancel_command m w
  else handle_text rnd m w.

(** ** The tournament settings panel *)

(** The message of [show_tournament_settings]: the values of its text and
    the callback data of its buttons, in the order they are added. *)
Record settings_panel := {
  shown_required_votes : Z;        (* "🗳 Необходимо голосов: {required_votes}" *)
  shown_duration : Z;              (* "⏱ Длительность: {duration} часов" *)
  shown_active : bool;             (* 'Активен' if is_active else 'Не активен' *)
  buttons : list pystr }.

(** [ORDER BY id DESC] *)
Definition order_by_id_desc (l : list tournament) : list tournament :=
  sort_by (fun t => - t_id t) l.

(** [show_tournament_settings(message)]: the panel it sends; on an
    exception it replies "Произошла ошибка при показе настроек турнира"
    instead. *)
Definition show_tournament_settings (d : db) : res settings_panel :=
  run prepare tournament_settings_t
        ["required_votes"; "tournament_duration"; "is_active"]%string;
  do settings <-
    (match find active (tournament_settings d) with
     | Some t => Ok (Some t)
     | None =>
         run prepare tournament_settings_t
               ["required_votes"; "tournament_duration"; "is_active"; "id"]%string;
         Ok (head (order_by_id_desc (tournament_settings d)))
     end);
  let '(required_votes, duration, is_active) :=
    match settings with
    | None => (15, 24, false)
    | Some t => (required_votes t, tournament_duration t, negb (is_active t =? 0))
    end in
  Ok {| shown_required_votes := required_votes;
        shown_duration := duration;
        shown_active := is_active;
        buttons := [lit "set_votes"; lit "set_time";
                    if is_active then lit "stop_tournament" else lit "start_tournament";
                    lit "admin_back_to_admin"] |}.

(** Every [is_active] is 0 or 1: the values the program writes. *)
Definition flags_wf (d : db) : Prop :=
  Forall (fun t => is_active t = 0 \/ is_active t = 1) (tournament_settings d).

(** * keep_alive.py

    The keep-alive service pings the deployment so that the host does not
    put it to sleep.  The service object is a record; the network, the
    random numbers and the clock are read from an environment, one per
    pass of the loop, indexed by the position of the request within the
    pass.  The loop of [_keep_alive_task] runs on a thread of its own and
    ends only when it finds [is_running] cleared; [_keep_alive_task] below
    gives the service after the passes of a given list of environments.
    Log lines are not modelled. *)

Module keep_alive.

(** What [requests.get] comes to: a response with its status code, a
    [requests.RequestException], or another exception; the exceptions
    carry [str(e)]. *)
Inductive response :=
| status_code (code : Z)
| RequestException (msg : pystr)
| other_exception (msg : pystr).

(** The error text of [_do_ping]. *)
Inductive ping_error :=
| unexpected_status (code : Z)   (* f"Неожиданный статус: {response.status_code}" *)
| request_failed (msg : pystr)   (* str(e) *)
| unknown_error (msg : pystr).   (* f"Неизвестная ошибка: {str(e)}" *)

Record environment := {
  get : nat -> pystr -> response;     (* requests.get(full_url, timeout=10) *)
  randint : nat -> Z;                 (* random.randint(10000, 99999) *)
  now : nat -> Z                      (* datetime.now().strftime(...) *)
}.

Record error_info := {
  time : Z;
  url : pystr;
  error : option ping_error
}.

Record stats_dict := {
  total_pings : Z;
  successful_pings : Z;
  failed_pings : Z;
  last_successful_ping : option Z;
  start_time : Z;
  errors : list error_info
}.

Record KeepAliveService := {
  render_url : option pystr;
  is_running : bool;
  stats : stats_dict;
  thread : bool;                      (* a [threading.Thread] was created *)
  ping_urls : list pystr
}.

(** [__init__]: [render_url] is [os.environ.get('RENDER_EXTERNAL_URL')]. *)
Definition __init__ (environ : option pystr) (clock : Z) : KeepAliveService :=
  {| render_url := environ;
     is_running := false;
     stats := {| total_pings := 0; successful_pings := 0; failed_pings := 0;
                 last_successful_ping := None; start_time := clock; errors := [] |};
     thread := false;
     ping_urls := [] |}.

Definition default_url : pystr := lit "https://your-app.onrender.com".

(** [s.endswith('/')] *)
Definition endswith_slash (s : pystr) : bool :=
  match last s with
  | Some c => c =? 47
  | None => false
  end.

(** [setup(self)] *)
Definition setup (self : KeepAliveService) : KeepAliveService :=
  let u := match render_url self with
           | None => default_url
           | Some u => if bool_decide (u = []) then default_url else u
           end in
  let u := if endswith_slash u then u else u ++ lit "/" in
  {| render_url := Some u;
     is_running := is_running self;
     stats := stats self;
     thread := thread self;
     ping_urls := [u ++ lit "ping"; u] |}.

(** [_do_ping(self, url)], as request number [i] of the pass. *)
Definition _do_ping (e : environment) (i : nat) (url : pystr) : bool * option ping_error :=
  let random_param := lit "?nocache=" ++ py_str (randint e i) in
  let full_url := url ++ random_param in
  match get e i full_url with
  | status_code code =>
      if code =? 200 then (true, None) else (false, Some (unexpected_status code))
  | RequestException msg => (false, Some (request_failed msg))
  | other_exception msg => (false, Some (unknown_error msg))
  end.

(** [errors.append(error_info)], then [errors[-10:]] when more than ten
    are held. *)
Definition append_error (x : error_info) (l : list error_info) : list error_info :=
  let l := l ++ [x] in
  if bool_decide (10 < length l)%nat then drop (length l - 10) l else l.

(** The [for url in self.ping_urls] loop from request number [i] on; the
    flag is [ping_success]. *)
Fixpoint ping_all (e : environment) (i : nat) (urls : list pystr) (st : stats_dict)
  : stats_dict * bool :=
  match urls with
  | [] => (st, false)
  | url :: rest =>
      let '(success, error) := _do_ping e i url in
      if success then
        ({| total_pings := total_pings st;
            successful_pings := successful_pings st + 1;
            failed_pings := failed_pings st;
            last_successful_ping := Some (now e i);
            start_time := start_time st;
            errors := errors st |}, true)
      else
        let error_info := {| time := now e i; url := url; error := error |} in
        ping_all e (S i) rest
          {| total_pings := total_pings st;
             successful_pings := successful_pings st;
             failed_pings := failed_pings st;
             last_successful_ping := last_successful_ping st;
             start_time := start_time st;
             errors := append_error error_info (errors st) |}
  end.

Definition with_stats (st : stats_dict) (self : KeepAliveService) : KeepAliveService :=
  {| render_url := render_url self; is_running := is_running self; stats := st;
     thread := thread self; ping_urls := ping_urls self |}.

(** The body of the [while self.is_running] loop. *)
Definition pass (e : environment) (self : KeepAliveService) : KeepAliveService :=
  let st := stats self in
  let st := {| total_pings := total_pings st + 1;
               successful_pings := successful_pings st;
               failed_pings := failed_pings st;
               last_successful_ping := last_successful_ping st;
               start_time := start_time st;
               errors := errors st |} in
  let '(st, ping_success) := ping_all e 0 (ping_urls self) st in
  let st := if negb ping_success
            then {| total_pings := total_pings st;
                    successful_pings := successful_pings st;
                    failed_pings := failed_pings st + 1;
                    last_successful_ping := last_successful_ping st;
                    start_time := start_time st;
                    errors := errors st |}
            else st in
  with_stats st self.

(** [_keep_alive_task(self)] over the passes the environments allow. *)
Fixpoint _keep_alive_task (es : list environment) (self : KeepAliveService)
  : KeepAliveService :=
  match es with
  | [] => self
  | e :: es => if is_running self then _keep_alive_task es (pass e self) else self
  end.

(** [start(self)] *)
Definition start (self : KeepAliveService) : KeepAliveService :=
  if is_running self then self
  else
    let self := if bool_decide (ping_urls self = []) then setup self else self in
    {| render_url := render_url self; is_running := true; stats := stats self;
       thread := true; ping_urls := ping_urls self |}.

(** [stop(self)] *)
Definition stop (self : KeepAliveService) : KeepAliveService :=
  {| render_url := render_url self; is_running := false; stats := stats self;
     thread := thread self; ping_urls := ping_urls self |}.

(** [start_keep_alive_thread()] *)
Definition start_keep_alive_thread (environ : option pystr) (clock : Z) : KeepAliveService :=
  start (setup (__init__ environ clock)).

(** The last ten of a list, [l[-10:]]. *)
Definition last_ten {A} (l : list A) : list A := drop (length l - 10) l.

(** The errors of the requests [i], [i+1], ... to [urls], one per url. *)
Fixpoint failures (e : environment) (i : nat) (urls : list pystr) : list error_info :=
  match urls with
  | [] => []
  | url :: rest =>
      {| time := now e i; url := url; error := snd (_do_ping e i url) |}
      :: failures e (S i) rest
  end.

(** Request [i] to the [i]-th url is answered with status 200. *)
Definition answers (e : environment) (urls : list pystr) (i : nat) : Prop :=
  exists url, urls !! i = Some url /\ fst (_do_ping e i url) = true.

(** A sample environment: the statuses of the requests in order, 503 once
    the list is used up. *)
Definition sample_environment (codes : list Z) (clock : Z) : environment :=
  {| get := fun i _ => status_code (default 503 (codes !! i));
     randint := fun i => 10000 + Z.of_nat i;
     now := fun i => clock + Z.of_nat i |}.

End keep_alive.

(** * Verification *)

(** ** Generalities *)

Lemma find_some_of_In {A} (f : A -> bool) (l : list A) (x : A) :
  In x l -> f x = true -> exists y, find f l = Some y.
Proof.
  induction l as [|a l IH]; simpl; [tauto|].
  intros [->|Hin] Hx.
  - rewrite Hx. eauto.
  - destruct (f a); eauto.
Qed.

Lemma find_none_iff {A} (f : A -> bool) (l : list A) :
  find f l = None <-> forall x, In x l -> f x = false.
Proof.
  split; [apply find_none|].
  induction l as [|a l IH]; simpl; [done|].
  intros H. rewrite (H a) by auto. apply IH. auto.
Qed.

Lemma store_allow user_id w : store (allow user_id w) = store w.
Proof. reflexivity. Qed.

Lemma store_check_subscription user_id w :
  store (fst (check_subscription user_id w)) = store w.
Proof. reflexivity. Qed.

(** The duplicate-vote check of [handle_vote] names a column [id] that
    [user_votes] does not have. *)
Lemma user_votes_has_no_id :
  prepare user_votes_t ["id"; "user_id"; "photo_id"]%string = Raise OperationalError.
Proof. reflexivity. Qed.

(** Past the tournament check, [handle_vote] raises before it reads or
    writes a row. *)
Lemma handle_vote_db_active c d t :
  In t (tournament_settings d) -> is_active t = 1 ->
  exists e, handle_vote_db c d = Raise e.
Proof.
  intros Hin Hact. unfold handle_vote_db.
  destruct (py_index (py_split 95 (c_data c)) 1) as [part|e]; simpl; [|eauto].
  destruct (py_int part) as [photo_id|e]; simpl; [|eauto].
  destruct (find_some_of_In active _ t Hin) as [t' ->].
  { unfold active. rewrite Hact. reflexivity. }
  eauto.
Qed.

(** Without a running tournament it answers that there is none, or fails
    on the button data; the store is the one it was given. *)
Lemma handle_vote_db_inactive c d :
  (forall t, In t (tournament_settings d) -> active t = false) ->
  handle_vote_db c d = Ok (d, [answer_callback_query no_active_tournament])
  \/ exists e, handle_vote_db c d = Raise e.
Proof.
  intros Hnone. unfold handle_vote_db.
  destruct (py_index (py_split 95 (c_data c)) 1) as [part|e]; simpl; [|eauto].
  destruct (py_int part) as [photo_id|e]; simpl; [|eauto].
  apply find_none_iff in Hnone. rewrite Hnone. auto.
Qed.

(** [handle_vote] never commits a change. *)
Lemma handle_vote_store c w : store (fst (handle_vote c w)) = store w.
Proof.
  unfold handle_vote.
  set (w1 := allow (c_from c) (fst (check_subscription (c_from c) w))).
  assert (Hs : store w1 = store w) by reflexivity.
  destruct (find active (tournament_settings (store w1))) as [t|] eqn:Hf.
  - apply find_some in Hf as [Hin Hact]. apply Z.eqb_eq in Hact.
    destruct (handle_vote_db_active c (store w1) t Hin Hact) as [e ->]. exact Hs.
  - destruct (handle_vote_db_inactive c (store w1)) as [-> | [e ->]]; [| |exact Hs].
    + by apply find_none_iff.
    + simpl. exact Hs.
Qed.

(** ** C1: casting a vote *)

(** C1 (code defect).  While a tournament is running, [handle_vote]
    answers every press of a vote button with "Произошла ошибка при
    голосовании" and leaves the store as it was: no vote row is inserted
    and no vote count is incremented, whoever the voter and whatever the
    contestant.  The claim asks for the insertion and the increment when
    the contestant is approved and the voter has not voted for her. *)
Theorem handle_vote_fails_while_active (c : callback) (w : world) (t : tournament) :
  In t (tournament_settings (store w)) ->
  is_active t = 1 ->
  snd (handle_vote c w) = [answer_callback_query vote_failed]
  /\ store (fst (handle_vote c w)) = store w.
Proof.
  intros Hin Hact. split; [|apply handle_vote_store].
  unfold handle_vote.
  destruct (handle_vote_db_active c (store w) t Hin Hact) as [e He].
  change (store (allow (c_from c) (fst (check_subscription (c_from c) w)))) with (store w).
  rewrite He. reflexivity.
Qed.

(** Voter 7 presses the button of contestant 1, who is approved and for
    whom 7 has not voted, while the tournament runs. *)
Lemma handle_vote_fails_while_active_witness :
  is_approved (sample_photo 1 1) = true
  /\ user_votes (sample_db []) = []
  /\ snd (handle_vote (press 7 "vote_1") (sample_world [])) =
       [answer_callback_query vote_failed]
  /\ store (fst (handle_vote (press 7 "vote_1") (sample_world []))) = sample_db [].
Proof.
  split; [reflexivity|]. split; [reflexivity|].
  apply (handle_vote_fails_while_active (press 7 "vote_1") (sample_world [])
           (sample_tournament 3)).
  - simpl. left. reflexivity.
  - reflexivity.
Defined.

(** ** C2: one vote per voter and contestant *)

(** The table constraint: an insertion keeps the keys distinct, and a
    second insertion for a pair is refused by the store itself. *)
Lemma insert_user_vote_unique user_id photo_id d d' :
  votes_unique d -> insert_user_vote user_id photo_id d = Ok d' -> votes_unique d'.
Proof.
  unfold insert_user_vote, votes_unique. simpl.
  destruct (existsb (voted user_id photo_id) (user_votes d)) eqn:Hex; [done|].
  intros Hnd [= <-]. simpl. rewrite map_app. simpl.
  apply NoDup_app. split; [done|]. split; [|apply NoDup_singleton].
  intros k Hk Hk'. apply list_elem_of_singleton in Hk'. subst k.
  apply list_elem_of_fmap in Hk as (v & Hv & Hin).
  apply list_elem_of_In in Hin.
  assert (voted user_id photo_id v = false) as Hv'.
  { destruct (voted user_id photo_id v) eqn:E; [|done].
    rewrite <- Hex. symmetry. apply existsb_exists. eauto. }
  unfold voted, vote_key in *. injection Hv as H1 H2.
  rewrite <- H1, <- H2 in Hv'. rewrite !Z.eqb_refl in Hv'. done.
Qed.

Lemma insert_user_vote_twice user_id photo_id d d' :
  insert_user_vote user_id photo_id d = Ok d' ->
  insert_user_vote user_id photo_id d' = Raise IntegrityError.
Proof.
  unfold insert_user_vote. simpl.
  destruct (existsb (voted user_id photo_id) (user_votes d)); [done|].
  intros [= <-]. simpl. rewrite existsb_app. simpl.
  unfold voted at 2. simpl. rewrite !Z.eqb_refl. simpl.
  by rewrite orb_true_r.
Qed.

(** C2 (code defect).  Voter 7 already has a vote row for contestant 1
    and presses her button again.  The store is unchanged (one row for
    the pair, her count still 1), but the answer is the general failure
    "Произошла ошибка при голосовании", not the signal "Вы уже голосовали
    за эту участницу!" the claim names. *)
Theorem handle_vote_repeated_press :
  let w := sample_world [vote_of 7 1] in
  let r := handle_vote (press 7 "vote_1") w in
  snd r = [answer_callback_query vote_failed]
  /\ snd r <> [answer_callback_query already_voted]
  /\ user_votes (store (fst r)) = [vote_of 7 1]
  /\ photos (store (fst r)) = photos (store w).
Proof. repeat split; try reflexivity. discriminate. Qed.

(** ** C3: the win condition *)

Lemma sort_by_cons {A} (key : A -> Z) a (l : list A) :
  sort_by key (a :: l) = insert_by key a (sort_by key l).
Proof. reflexivity. Qed.

Lemma insert_by_not_nil {A} (key : A -> Z) a (l : list A) : insert_by key a l <> [].
Proof. destruct l; simpl; [done|]. by destruct (key a <=? key a0). Qed.

(** The first row of the sorted list is the first row of the input that
    carries the least key. *)
Lemma sort_by_head {A} (key : A -> Z) (l : list A) y rest :
  sort_by key l = y :: rest ->
  exists l1 l2, l = l1 ++ y :: l2
    /\ (forall z, In z l1 -> key y < key z)
    /\ (forall z, In z l2 -> key y <= key z).
Proof.
  revert y rest. induction l as [|a l IH]; intros y rest; [done|].
  rewrite sort_by_cons. destruct (sort_by key l) as [|y0 r0] eqn:Hs.
  - destruct l as [|b l]; [|by destruct (insert_by_not_nil key b (sort_by key l))].
    simpl. intros [= <- <-]. exists [], []. simpl. repeat split; tauto.
  - destruct (IH y0 r0 eq_refl) as (l1 & l2 & -> & H1 & H2).
    simpl. destruct (key a <=? key y0) eqn:Hle.
    + apply Z.leb_le in Hle. intros [= <- <-]. exists [], (l1 ++ y0 :: l2).
      split; [done|]. split; [simpl; tauto|].
      intros z Hz. apply in_app_or in Hz as [Hz|[<-|Hz]].
      * specialize (H1 z Hz). lia.
      * done.
      * specialize (H2 z Hz). lia.
    + apply Z.leb_gt in Hle. intros [= <- <-]. exists (a :: l1), l2.
      split; [done|]. split; [|done].
      intros z [<-|Hz]; [lia|auto].
Qed.

Lemma sort_by_nil_inv {A} (key : A -> Z) (l : list A) : sort_by key l = [] -> l = [].
Proof.
  destruct l as [|a l]; [done|]. rewrite sort_by_cons.
  intros H. by destruct (insert_by_not_nil key a (sort_by key l)).
Qed.

Lemma filter_all_false {A} (P : A -> Prop) `{!forall x, Decision (P x)} (l : list A) :
  (forall x, x ∈ l -> ~ P x) -> filter P l = [].
Proof.
  intros Hno. apply elem_of_nil_inv. intros x Hx.
  apply list_elem_of_filter in Hx as [HP Hx]. by apply (Hno x).
Qed.

Lemma In_update_where {A} (cond : A -> bool) (f : A -> A) (l : list A) y :
  In y (update_where cond f l) ->
  exists x, In x l /\ y = (if cond x then f x else x).
Proof.
  unfold update_where. intros H. apply in_map_iff in H as (x & <- & Hx). eauto.
Qed.

(** After [UPDATE tournament_settings SET is_active = 0 WHERE
    is_active = 1] no row is active. *)
Lemma deactivate_all l t :
  In t (update_where active (set_active 0) l) -> active t = false.
Proof.
  intros H. apply In_update_where in H as (x & _ & ->).
  destruct (active x) eqn:E; [reflexivity|exact E].
Qed.

(** Evaluation with no running tournament changes nothing and announces
    nothing. *)
Lemma check_tournament_completion_inactive d :
  (forall t, In t (tournament_settings d) -> active t = false) ->
  check_tournament_completion d = (d, []).
Proof.
  intros Hnone. unfold check_tournament_completion, check_tournament_completion_db.
  simpl. rewrite filter_all_false; [reflexivity|].
  intros [p t] Hin. apply list_elem_of_In, in_prod_iff in Hin as [_ Ht].
  simpl. rewrite (Hnone t Ht). rewrite andb_false_r. simpl. discriminate.
Qed.

(** The run of the evaluation once the threshold is reached. *)
Lemma check_tournament_completion_reached d p t :
  In p (photos d) -> approved p = 1 ->
  In t (tournament_settings d) -> is_active t = 1 ->
  required_votes t <= votes p ->
  exists winner before after,
    check_tournament_completion d =
      (with_tournaments (update_where active (set_active 0) (tournament_settings d))
         (seq_tournament_settings d) d,
       [send_media ADMIN_ID (p_media_type winner) (p_file_id winner)
          (winner_announcement (p_name winner) (votes winner))])
    /\ approved_rows d = before ++ winner :: after
    /\ (forall q, In q before -> votes q < votes winner)
    /\ (forall q, In q after -> votes q <= votes winner).
Proof.
  intros Hp Hap Ht Hact Hreach.
  assert (Hpa : p ∈ approved_rows d).
  { apply list_elem_of_filter. split; [|by apply list_elem_of_In].
    unfold is_approved. by apply Z.eqb_eq. }
  unfold check_tournament_completion, check_tournament_completion_db. simpl.
  set (hits := filter _ (list_prod (photos d) (tournament_settings d))).
  assert (Hhit : (p, t) ∈ hits).
  { apply list_elem_of_filter. split.
    - simpl. unfold is_approved, active. rewrite Hap, Hact. simpl.
      by apply Z.leb_le.
    - apply list_elem_of_In, in_prod_iff. done. }
  destruct hits as [|h hs] eqn:Hh; [by apply elem_of_nil in Hhit|]. simpl.
  fold (approved_rows d).
  destruct (order_by_votes_desc (approved_rows d)) as [|winner rest] eqn:Hsort.
  { apply sort_by_nil_inv in Hsort. rewrite Hsort in Hpa. by apply elem_of_nil in Hpa. }
  simpl.
  destruct (sort_by_head _ _ _ _ Hsort) as (before & after & Heq & Hlt & Hle).
  exists winner, before, after. split; [reflexivity|]. split; [exact Heq|].
  split; intros q Hq; [specialize (Hlt q Hq)|specialize (Hle q Hq)]; lia.
Qed.

Lemma handle_votes_store cs w : store (steps (map Handle_vote cs) w) = store w.
Proof.
  revert w. induction cs as [|c cs IH]; intros w; [done|].
  simpl. rewrite IH. apply handle_vote_store.
Qed.

(** C3 (code defect).  No vote ends a tournament.  While a tournament
    runs, every press of a vote button, after any number of earlier
    presses, is answered "Произошла ошибка при голосовании" and nothing
    else: no winner is announced, no vote count moves, and the tournament
    row is still there and still active.  The claim asks for the vote
    that brings a contestant to the threshold to select the winner and
    to deactivate the tournament; [handle_vote] calls
    [check_tournament_completion] for that, after the commit it never
    reaches. *)
Theorem votes_never_end_tournament
    (cs : list callback) (c : callback) (w : world) (t : tournament) :
  In t (tournament_settings (store w)) ->
  is_active t = 1 ->
  let w' := steps (map Handle_vote cs) w in
  let r := handle_vote c w' in
  store w' = store w
  /\ snd r = [answer_callback_query vote_failed]
  /\ store (fst r) = store w
  /\ photos (store (fst r)) = photos (store w)
  /\ In t (tournament_settings (store (fst r))).
Proof.
  intros Hin Hact w' r. subst w' r.
  pose proof (handle_votes_store cs w) as Hs.
  assert (Hr : store (fst (handle_vote c (steps (map Handle_vote cs) w))) = store w)
    by (by rewrite handle_vote_store).
  split; [exact Hs|]. split; [|split; [exact Hr|split; by rewrite Hr]].
  unfold handle_vote.
  change (store (allow (c_from c)
                   (fst (check_subscription (c_from c) (steps (map Handle_vote cs) w)))))
    with (store (steps (map Handle_vote cs) w)).
  rewrite Hs. destruct (handle_vote_db_active c (store w) t Hin Hact) as [e ->].
  reflexivity.
Qed.

(** Contestant 1 holds 2 votes and the threshold is 3; voter 8 and then
    voter 7, neither of whom has voted, press her button. *)
Lemma votes_never_end_tournament_witness :
  let d := with_photos [sample_photo 1 2; sample_photo 2 0] 2 (sample_db []) in
  let w := set_store d (sample_world []) in
  let r := handle_vote (press 7 "vote_1") (steps [Handle_vote (press 8 "vote_1")] w) in
  snd r = [answer_callback_query vote_failed]
  /\ photos (store (fst r)) = [sample_photo 1 2; sample_photo 2 0]
  /\ In (sample_tournament 3) (tournament_settings (store (fst r))).
Proof.
  intros d w r.
  destruct (votes_never_end_tournament [press 8 "vote_1"] (press 7 "vote_1") w
              (sample_tournament 3) (or_introl eq_refl) eq_refl)
    as (_ & H1 & _ & H2 & H3).
  exact (conj H1 (conj H2 H3)).
Defined.

(** ** C4 and C5: deciding a suggestion *)

Lemma find_update_status suggestion_id st l :
  find (by_id suggestion_id) (update_where (by_id suggestion_id) (set_status st) l) =
  set_status st <$> find (by_id suggestion_id) l.
Proof.
  induction l as [|a l IH]; [done|]. simpl.
  destruct (by_id suggestion_id a) eqn:E.
  - unfold by_id in *. simpl. rewrite E. done.
  - rewrite E. exact IH.
Qed.

Lemma parse_decision_length parts action suggestion_id :
  parse_decision parts = Ok (action, suggestion_id) -> (length parts <? 3)%nat = false.
Proof.
  unfold parse_decision, py_index. intros H. apply Nat.ltb_ge.
  destruct parts as [|a [|b [|x parts]]]; simpl in *; try done. lia.
Qed.

Lemma accept_suggestion_ok s suggestion_id d :
  accept_suggestion no_faults s suggestion_id d =
  Ok (with_suggestions
        (update_where (by_id suggestion_id) (set_status accepted) (suggestions d))
        (seq_suggestions d)
        (with_photos (photos d ++ [contestant_of s (seq_photos d + 1)])
           (seq_photos d + 1) d)).
Proof. reflexivity. Qed.

Lemma reject_suggestion_ok suggestion_id d :
  reject_suggestion no_faults suggestion_id d =
  Ok (with_suggestions
        (update_where (by_id suggestion_id) (set_status rejected) (suggestions d))
        (seq_suggestions d) d).
Proof. reflexivity. Qed.

(** A failing insertion, update or commit aborts the accept branch with
    an [sqlite3.Error]. *)
Lemma accept_suggestion_fault f s suggestion_id d :
  f <> no_faults -> accept_suggestion f s suggestion_id d = Raise OperationalError.
Proof.
  destruct f as [[] [] []]; intros Hf; try reflexivity. by destruct Hf.
Qed.

(** [handle_suggestion_decision] for the administrator, once the button
    data are read and the suggestion is found pending. *)
Lemma handle_suggestion_decision_pending f c w action suggestion_id s :
  c_from c = ADMIN_ID ->
  parse_decision (py_split 95 (c_data c)) = Ok (action, suggestion_id) ->
  find (by_id suggestion_id) (suggestions (store w)) = Some s ->
  s_status s = pending ->
  handle_suggestion_decision f c w =
  if pystr_eqb action (lit "accept") then
    match accept_suggestion f s suggestion_id (store w) with
    | Ok d =>
        (set_store d w,
         [send_message (suggested_by s) (suggestion_accepted (s_name s));
          answer_callback_query (accepted_toast (s_name s));
          send_message (c_chat c) (added_to_tournament (s_name s));
          delete_message])
    | Raise e =>
        (w, [answer_callback_query
               (if is_sqlite_error e then accept_failed else generic_error)])
    end
  else
    match reject_suggestion f suggestion_id (store w) with
    | Ok d =>
        (set_store d w,
         [send_message (suggested_by s) (suggestion_rejected (s_name s));
          answer_callback_query (rejected_toast (s_name s));
          send_message (c_chat c) (rejected_notice (s_name s));
          delete_message])
    | Raise e =>
        (w, [answer_callback_query
               (if is_sqlite_error e then reject_failed else generic_error)])
    end.
Proof.
  intros Hadmin Hparse Hfind Hpend. unfold handle_suggestion_decision.
  rewrite bool_decide_false by (intros H; by apply H).
  rewrite (parse_decision_length _ _ _ Hparse), Hparse.
  change (prepare suggestions_t _) with (Ok tt).
  fold (by_id suggestion_id). rewrite Hfind.
  rewrite bool_decide_false by (intros H; by apply H).
  reflexivity.
Qed.

(** On a suggestion that is missing or already decided the handler
    changes nothing and answers with one notice. *)
Lemma handle_suggestion_decision_noop f c w action suggestion_id :
  parse_decision (py_split 95 (c_data c)) = Ok (action, suggestion_id) ->
  (find (by_id suggestion_id) (suggestions (store w)) = None
   \/ exists s, find (by_id suggestion_id) (suggestions (store w)) = Some s
               /\ s_status s <> pending) ->
  fst (handle_suggestion_decision f c w) = w
  /\ exists notice, snd (handle_suggestion_decision f c w) = [answer_callback_query notice]
       /\ (c_from c = ADMIN_ID -> notice = suggestion_not_found \/ notice = already_processed).
Proof.
  intros Hparse Htarget. unfold handle_suggestion_decision.
  case_bool_decide as Hadmin.
  { split; [done|]. exists no_access. split; [done|]. intros H. by destruct Hadmin. }
  rewrite (parse_decision_length _ _ _ Hparse), Hparse.
  change (prepare suggestions_t _) with (Ok tt).
  fold (by_id suggestion_id).
  destruct Htarget as [-> | (s & -> & Hs)].
  - split; [done|]. exists suggestion_not_found. auto.
  - rewrite bool_decide_true by done. split; [done|]. exists already_processed. auto.
Qed.

(** C4.  Whenever the suggestion a decision names is not found or is no
    longer pending, [handle_suggestion_decision] changes nothing and
    answers with one notice ("Предложение не найдено", "Это предложение
    уже было обработано").  Pressing accept twice on a pending suggestion:
    the first press appends exactly one contestant and sets the status to
    accepted; the second leaves the world as the first left it, so one
    contestant has been created and the status is accepted after both. *)
Theorem decide_is_idempotent
    (f f' : faults) (c : callback) (w : world) (action : pystr) (suggestion_id : Z) :
  parse_decision (py_split 95 (c_data c)) = Ok (action, suggestion_id) ->
  let target d := find (by_id suggestion_id) (suggestions d) in
  ((target (store w) = None
    \/ exists s, target (store w) = Some s /\ s_status s <> pending) ->
   fst (handle_suggestion_decision f c w) = w
   /\ exists notice,
        snd (handle_suggestion_decision f c w) = [answer_callback_query notice]
        /\ (c_from c = ADMIN_ID ->
            notice = suggestion_not_found \/ notice = already_processed))
  /\ (forall s,
        c_from c = ADMIN_ID -> action = lit "accept" ->
        target (store w) = Some s -> s_status s = pending ->
        let w1 := fst (handle_suggestion_decision no_faults c w) in
        let w2 := fst (handle_suggestion_decision f' c w1) in
        photos (store w1) = photos (store w) ++ [contestant_of s (seq_photos (store w) + 1)]
        /\ target (store w1) = Some (set_status accepted s)
        /\ w2 = w1
        /\ photos (store w2) = photos (store w) ++ [contestant_of s (seq_photos (store w) + 1)]
        /\ target (store w2) = Some (set_status accepted s)
        /\ snd (handle_suggestion_decision f' c w1) =
             [answer_callback_query already_processed]).
Proof.
  intros Hparse target. split.
  { apply (handle_suggestion_decision_noop f c w action suggestion_id Hparse). }
  intros s Hadmin -> Hfind Hpend w1 w2.
  assert (Hw1 : w1 = set_store
                  (with_suggestions
                     (update_where (by_id suggestion_id) (set_status accepted)
                        (suggestions (store w)))
                     (seq_suggestions (store w))
                     (with_photos
                        (photos (store w) ++ [contestant_of s (seq_photos (store w) + 1)])
                        (seq_photos (store w) + 1) (store w))) w).
  { subst w1. rewrite (handle_suggestion_decision_pending _ _ _ _ _ _ Hadmin Hparse Hfind Hpend).
    rewrite accept_suggestion_ok. reflexivity. }
  assert (Ht1 : target (store w1) = Some (set_status accepted s)).
  { rewrite Hw1. unfold target. simpl. rewrite find_update_status.
    unfold target in Hfind. by rewrite Hfind. }
  assert (Hp1 : photos (store w1) =
                photos (store w) ++ [contestant_of s (seq_photos (store w) + 1)]).
  { by rewrite Hw1. }
  destruct (handle_suggestion_decision_noop f' c w1 _ _ Hparse) as (H2 & notice & Hout & Hn).
  { right. exists (set_status accepted s). split; [exact Ht1|done]. }
  assert (Hout' : snd (handle_suggestion_decision f' c w1) =
                  [answer_callback_query already_processed]).
  { unfold handle_suggestion_decision.
    rewrite bool_decide_false by (intros H; by apply H).
    rewrite (parse_decision_length _ _ _ Hparse), Hparse.
    change (prepare suggestions_t _) with (Ok tt).
    fold (by_id suggestion_id). fold (target (store w1)). rewrite Ht1.
    by rewrite bool_decide_true. }
  subst w2. rewrite H2. done.
Qed.

(** The administrator presses "accept" on the pending suggestion 5, twice. *)
Lemma decide_is_idempotent_witness :
  let c := press ADMIN_ID "accept_suggestion_5" in
  let w1 := fst (handle_suggestion_decision no_faults c (sample_world [])) in
  let w2 := fst (handle_suggestion_decision no_faults c w1) in
  parse_decision (py_split 95 (c_data c)) = Ok (lit "accept", 5)
  /\ photos (store w2) = photos (sample_db []) ++ [contestant_of sample_suggestion 3]
  /\ find (by_id 5) (suggestions (store w2)) = Some (set_status accepted sample_suggestion).
Proof.
  intros c w1 w2.
  assert (Hparse : parse_decision (py_split 95 (c_data c)) = Ok (lit "accept", 5))
    by reflexivity.
  split; [exact Hparse|].
  destruct (decide_is_idempotent no_faults no_faults c (sample_world []) _ _ Hparse)
    as [_ H].
  destruct (H sample_suggestion eq_refl eq_refl eq_refl eq_refl) as (_ & _ & _ & Hp & Ht & _).
  exact (conj Hp Ht).
Defined.

(** C5.  For the administrator's decision on a pending suggestion:
    accept with no storage fault appends the contestant made from the
    suggestion's name and media, approved, with zero votes, and sets the
    status to accepted; if the insertion, the update or the commit fails,
    the world is the one before the press (the suggestion is still
    pending, no contestant exists) and the answer is "Ошибка при принятии
    предложения".  Reject sets the status to rejected and leaves the
    contestants as they are. *)
Theorem decide_accept_is_atomic
    (f : faults) (c : callback) (w : world) (action : pystr) (suggestion_id : Z)
    (s : suggestion) :
  c_from c = ADMIN_ID ->
  parse_decision (py_split 95 (c_data c)) = Ok (action, suggestion_id) ->
  find (by_id suggestion_id) (suggestions (store w)) = Some s ->
  s_status s = pending ->
  let w' := fst (handle_suggestion_decision f c w) in
  let new_contestant :=
    {| p_id := seq_photos (store w) + 1; p_name := s_name s; p_file_id := s_file_id s;
       approved := 1; p_media_type := s_media_type s; votes := 0 |} in
  (action = lit "accept" ->
     (f = no_faults ->
        photos (store w') = photos (store w) ++ [new_contestant]
        /\ find (by_id suggestion_id) (suggestions (store w')) =
             Some (set_status accepted s))
     /\ (f <> no_faults ->
          w' = w
          /\ find (by_id suggestion_id) (suggestions (store w')) = Some s
          /\ snd (handle_suggestion_decision f c w) =
               [answer_callback_query accept_failed]))
  /\ (action = lit "reject" -> f = no_faults ->
        photos (store w') = photos (store w)
        /\ find (by_id suggestion_id) (suggestions (store w')) =
             Some (set_status rejected s)).
Proof.
  intros Hadmin Hparse Hfind Hpend w' new_contestant. subst w'.
  rewrite (handle_suggestion_decision_pending _ _ _ _ _ _ Hadmin Hparse Hfind Hpend).
  split; [intros ->; split|intros -> ->].
  - intros ->. rewrite accept_suggestion_ok. simpl.
    rewrite find_update_status, Hfind. done.
  - intros Hf. rewrite (accept_suggestion_fault _ _ _ _ Hf). simpl. done.
  - rewrite reject_suggestion_ok. simpl.
    rewrite find_update_status, Hfind. done.
Qed.

(** The insertion succeeds and the update of the status fails. *)
Lemma decide_accept_is_atomic_witness :
  let f := {| insert_fails := false; update_fails := true; commit_fails := false |} in
  let c := press ADMIN_ID "accept_suggestion_5" in
  fst (handle_suggestion_decision f c (sample_world [])) = sample_world []
  /\ photos (store (fst (handle_suggestion_decision no_faults c (sample_world [])))) =
       photos (sample_db []) ++ [contestant_of sample_suggestion 3].
Proof.
  intros f c. split.
  - destruct (decide_accept_is_atomic f c (sample_world []) (lit "accept") 5
                sample_suggestion eq_refl eq_refl eq_refl eq_refl) as [H _].
    destruct (H eq_refl) as [_ H'].
    assert (Hf : f <> no_faults) by discriminate.
    exact (proj1 (H' Hf)).
  - destruct (decide_accept_is_atomic no_faults c (sample_world []) (lit "accept") 5
                sample_suggestion eq_refl eq_refl eq_refl eq_refl) as [H _].
    destruct (H eq_refl) as [H' _]. exact (proj1 (H' eq_refl)).
Defined.

(** ** C6: entering the name *)

Lemma get_user_state_set user_id st w :
  get_user_state user_id (set_user_state user_id st w) = st.
Proof. unfold get_user_state, set_user_state. simpl. by rewrite lookup_insert_eq. Qed.

Lemma lower_cp_cross c : lower_cp c = 10060 -> c = 10060.
Proof.
  unfold lower_cp.
  destruct ((65 <=? c) && (c <=? 90)) eqn:E1.
  { apply andb_true_iff in E1 as [H1 H2]. lia. }
  destruct ((1040 <=? c) && (c <=? 1071)) eqn:E2.
  { apply andb_true_iff in E2 as [H1 H2]. lia. }
  destruct ((1024 <=? c) && (c <=? 1039)) eqn:E3.
  { apply andb_true_iff in E3 as [H1 H2]. lia. }
  done.
Qed.

(** A name the pattern matches is never the cancel text: the cross mark
    is outside the class. *)
Lemma accepted_not_cancel n : forallb name_char n = true -> py_lower n <> cancel_text.
Proof.
  destruct n as [|c n]; [done|]. simpl. intros Hall Heq.
  injection Heq as Hc _. apply lower_cp_cross in Hc. subst c.
  by vm_compute in Hall.
Qed.

Lemma re_match_name_forallb n : 2 <= len n -> re_match_name n = forallb name_char n.
Proof. destruct n; [unfold len; simpl; lia|done]. Qed.

(** C6, as the code has it.  For a user in [WAITING_NAME] whose bag
    exists, and every text: the state becomes [WAITING_MEDIA] exactly
    when the text with its surrounding whitespace removed has between 2
    and 50 characters, each a Russian or basic Latin letter, one of the
    digits 0-9, a whitespace character or a hyphen; the name stored is
    then that stripped text.  Otherwise the text is the cancel word and
    the conversation returns to [START] with the bag deleted, or the user
    is prompted again and state and bag stay as they were.  In no case is
    the store touched, so no suggestion is created. *)
Theorem handle_name_transition (m : message) (w : world) (b : bag) :
  get_user_state (m_from m) w = WAITING_NAME ->
  user_data w !! m_from m = Some b ->
  let stripped := py_strip (m_text m) in
  let w' := fst (handle_name m w) in
  let out := snd (handle_name m w) in
  store w' = store w
  /\ (get_user_state (m_from m) w' = WAITING_MEDIA <-> name_accepted stripped = true)
  /\ (name_accepted stripped = true ->
        user_data w' !! m_from m = Some (bag_set_name stripped b)
        /\ out = [reply_to ask_media])
  /\ (name_accepted stripped = false ->
        (py_lower stripped = cancel_text ->
           get_user_state (m_from m) w' = START
           /\ user_data w' !! m_from m = None
           /\ out = [send_message (m_chat m) proposal_cancelled])
        /\ (py_lower stripped <> cancel_text ->
              get_user_state (m_from m) w' = WAITING_NAME
              /\ user_data w' !! m_from m = Some b
              /\ (out = [send_message (m_chat m) name_length_prompt]
                  \/ out = [reply_to name_charset_prompt]))).
Proof.
  intros Hst Hbag stripped w' out. subst w' out. unfold handle_name.
  set (w1 := allow (m_from m) (fst (check_subscription (m_from m) w))).
  assert (Hs1 : get_user_state (m_from m) w1 = WAITING_NAME) by exact Hst.
  assert (Hb1 : user_data w1 !! m_from m = Some b) by exact Hbag.
  assert (Hd1 : store w1 = store w) by reflexivity.
  fold stripped. unfold pystr_eqb.
  case_bool_decide as Hcancel.
  { (* the cancel word *)
    assert (Hna : name_accepted stripped = false).
    { unfold name_accepted. destruct (forallb name_char stripped) eqn:E.
      - by destruct (accepted_not_cancel _ E).
      - by rewrite andb_false_r. }
    unfold cancel_proposal. simpl.
    split; [done|]. split.
    { rewrite Hna. split; [|done]. unfold get_user_state. simpl.
      rewrite lookup_insert_eq. done. }
    split; [by rewrite Hna|]. intros _. split; [|done]. intros _.
    split; [unfold get_user_state; simpl; by rewrite lookup_insert_eq|].
    split; [by rewrite lookup_delete_eq|done]. }
  destruct ((len stripped <? 2) || (50 <? len stripped)) eqn:Hlen.
  { (* too short or too long *)
    assert (Hna : name_accepted stripped = false).
    { unfold name_accepted. apply orb_true_iff in Hlen as [H|H].
      - apply Z.ltb_lt in H. replace (2 <=? len stripped) with false; [done|].
        symmetry. apply Z.leb_gt. lia.
      - apply Z.ltb_lt in H. replace (len stripped <=? 50) with false.
        + by rewrite andb_false_r.
        + symmetry. apply Z.leb_gt. lia. }
    simpl. split; [done|]. split; [rewrite Hna, Hs1; done|].
    split; [by rewrite Hna|]. intros _. split; [done|]. intros _. auto. }
  apply orb_false_iff in Hlen as [Hlo Hhi].
  apply Z.ltb_ge in Hlo. apply Z.ltb_ge in Hhi.
  rewrite (re_match_name_forallb _ Hlo).
  assert (Hna : name_accepted stripped = forallb name_char stripped).
  { unfold name_accepted.
    replace (2 <=? len stripped) with true by (symmetry; apply Z.leb_le; lia).
    replace (len stripped <=? 50) with true by (symmetry; apply Z.leb_le; lia).
    done. }
  rewrite Hna. destruct (forallb name_char stripped) eqn:Hall; cbn [negb].
  - (* accepted *)
    rewrite Hb1. simpl. split; [done|]. split.
    { split; [done|]. intros _. unfold get_user_state. simpl.
      by rewrite lookup_insert_eq. }
    split; [|done]. intros _. split; [|done]. by rewrite lookup_insert_eq.
  - (* a character outside the class *)
    cbn [fst snd].
    split; [done|]. split; [rewrite Hs1; done|]. split; [done|].
    intros _. split; [done|]. intros _. auto.
Qed.

(** "Anna-Maria 2", sent with a space on either side. *)
Lemma handle_name_transition_witness :
  let w := in_state 7 WAITING_NAME empty_bag (sample_world []) in
  let w' := fst (handle_name (says 7 (lit " Anna-Maria 2 ")) w) in
  get_user_state 7 w' = WAITING_MEDIA
  /\ user_data w' !! 7 = Some (bag_set_name (lit "Anna-Maria 2") empty_bag).
Proof.
  intros w w'.
  destruct (handle_name_transition (says 7 (lit " Anna-Maria 2 ")) w empty_bag
              eq_refl eq_refl) as (_ & Hiff & Hacc & _).
  split.
  - apply (proj2 Hiff). reflexivity.
  - exact (proj1 (Hacc eq_refl)).
Defined.

(** "José" (four letters, the last one outside the pattern's class) and
    " A " (three characters, one after stripping) satisfy the rule as the
    claim words it, and both leave the user in [WAITING_NAME]; "Anna "
    is accepted, and the name stored is not the text as sent. *)
Lemma handle_name_spec_rule_counterexample :
  let w := in_state 7 WAITING_NAME empty_bag (sample_world []) in
  let after t := fst (handle_name (says 7 t) w) in
  (spec_name_ok [74; 111; 115; 233] = true
   /\ get_user_state 7 (after [74; 111; 115; 233]) = WAITING_NAME)
  /\ (spec_name_ok (lit " A ") = true
      /\ get_user_state 7 (after (lit " A ")) = WAITING_NAME)
  /\ (spec_name_ok (lit "Anna ") = true
      /\ get_user_state 7 (after (lit "Anna ")) = WAITING_MEDIA
      /\ name <$> user_data (after (lit "Anna ")) !! 7 = Some (Some (lit "Anna"))
      /\ lit "Anna" <> lit "Anna ").
Proof. vm_compute. repeat split; discriminate. Qed.

(** ** C10: the /start command *)

(** [start_command] on its own: a user in any state other than [START]
    is put into [START] and loses the bag; for a user in [START]
    (recorded or by default) both dictionaries stay as they are. *)
Lemma start_command_run m w :
  let w' := fst (start_command m w) in
  (get_user_state (m_from m) w <> START ->
     get_user_state (m_from m) w' = START /\ user_data w' !! m_from m = None)
  /\ (get_user_state (m_from m) w = START ->
        get_user_state (m_from m) w' = START
        /\ user_states w' = user_states w /\ user_data w' = user_data w)
  /\ store w' = store w.
Proof.
  unfold start_command, get_user_state. simpl.
  destruct (user_states w !! m_from m) as [st|] eqn:Hst; simpl.
  - case_bool_decide as Hne; simpl.
    + split; [|split; [done|reflexivity]].
      intros _. by rewrite lookup_insert_eq, lookup_delete_eq.
    + split; [done|]. split; [|reflexivity]. intros Heq. by rewrite Hst.
  - split; [done|]. split; [|reflexivity]. intros _. by rewrite Hst.
Qed.

Lemma py_lstrip_last l c :
  py_isspace c = false -> exists l', py_lstrip (l ++ [c]) = l' ++ [c].
Proof.
  intros Hc. induction l as [|a l [l' IH]]; simpl.
  - rewrite Hc. by exists [].
  - destruct (py_isspace a); [by exists l'|]. by exists (a :: l).
Qed.

(** [strip] keeps a first character that is no whitespace. *)
Lemma py_strip_first c s :
  py_isspace c = false -> exists r, py_strip (c :: s) = c :: r.
Proof.
  intros Hc. unfold py_strip, py_rstrip. simpl. rewrite Hc. simpl.
  destruct (py_lstrip_last (rev s) c Hc) as [l' ->].
  exists (rev l'). by rewrite rev_app_distr.
Qed.

Lemma extract_command_slash text cmd :
  extract_command text = Some cmd -> exists rest, text = 47 :: rest.
Proof.
  unfold extract_command. destruct text as [|c rest]; [done|].
  destruct (decide (c = 47)) as [->|Hne]; [by exists rest|].
  intros H. exfalso.
  destruct c as [|c|c]; try done.
  repeat (destruct c as [c|c|]; try done).
Qed.

(** A text that begins with ['/'] is no name: [handle_name] answers with
    one of its two prompts and leaves states and bags as they are. *)
Lemma handle_name_command m w rest :
  m_text m = 47 :: rest ->
  user_states (fst (handle_name m w)) = user_states w
  /\ user_data (fst (handle_name m w)) = user_data w
  /\ store (fst (handle_name m w)) = store w
  /\ (snd (handle_name m w) = [reply_to name_charset_prompt]
      \/ snd (handle_name m w) = [send_message (m_chat m) name_length_prompt]).
Proof.
  intros Htext. unfold handle_name. rewrite Htext.
  destruct (py_strip_first 47 rest eq_refl) as [r ->].
  unfold pystr_eqb. rewrite bool_decide_false by (by intros [= ?]).
  destruct ((len (47 :: r) <? 2) || (50 <? len (47 :: r))); simpl; auto.
Qed.

(** C10 (code defect).  A [/start] sent by a user in [WAITING_NAME] does
    not reach [start_command]: the handlers are tried in the order of
    their registration, [handle_name] comes first and takes every text
    of such a user; it finds that the text is no name, answers with a
    prompt, and the user stays in [WAITING_NAME] with the bag as it was.
    In every other state the command reaches [start_command], which
    puts the user into [START] and deletes the bag, and changes neither
    for a user already in [START]. *)
Theorem start_text_in_waiting_name (rnd : nat -> Z) (m : message) (w : world) :
  extract_command (m_text m) = Some (lit "start") ->
  let r := process_new_message rnd m w in
  (get_user_state (m_from m) w = WAITING_NAME ->
     r = wrap (handle_name m w)
     /\ get_user_state (m_from m) (fst r) = WAITING_NAME
     /\ user_states (fst r) = user_states w
     /\ user_data (fst r) = user_data w
     /\ (snd r = [gateway (reply_to name_charset_prompt)]
         \/ snd r = [gateway (send_message (m_chat m) name_length_prompt)]))
  /\ (get_user_state (m_from m) w <> WAITING_NAME ->
        r = wrap (start_command m w)
        /\ get_user_state (m_from m) (fst r) = START
        /\ (get_user_state (m_from m) w <> START -> user_data (fst r) !! m_from m = None)
        /\ (get_user_state (m_from m) w = START ->
              user_states (fst r) = user_states w /\ user_data (fst r) = user_data w)).
Proof.
  intros Hcmd r. subst r. unfold process_new_message, has_command. rewrite Hcmd.
  rewrite (bool_decide_false (Some (lit "start") = Some (lit "propose"))) by done.
  split.
  - intros Hst. rewrite bool_decide_true by done.
    destruct (extract_command_slash _ _ Hcmd) as [rest Htext].
    destruct (handle_name_command m w rest Htext) as (H1 & H2 & _ & H3).
    split; [done|]. unfold wrap. cbn [fst snd].
    split; [unfold get_user_state in *; by rewrite H1|].
    split; [exact H1|]. split; [exact H2|].
    destruct H3 as [->| ->]; auto.
  - intros Hst. rewrite bool_decide_false by done.
    rewrite (bool_decide_true (Some (lit "start") = Some (lit "start"))) by done.
    split; [done|]. unfold wrap. cbn [fst snd].
    destruct (start_command_run m w) as (Hreset & Hkeep & _).
    split.
    { destruct (decide (get_user_state (m_from m) w = START)) as [Hs|Hs].
      - by destruct (Hkeep Hs).
      - by destruct (Hreset Hs). }
    split.
    { intros Hs. by destruct (Hreset Hs). }
    intros Hs. by destruct (Hkeep Hs) as (_ & ? & ?).
Qed.

(** User 7 has sent /propose and is asked for the name; /start follows. *)
Lemma start_text_in_waiting_name_witness :
  let w := in_state 7 WAITING_NAME empty_bag (sample_world []) in
  let r := process_new_message (fun i => Z.of_nat i) (says 7 (lit "/start")) w in
  get_user_state 7 (fst r) = WAITING_NAME
  /\ user_data (fst r) !! 7 = Some empty_bag
  /\ snd r = [gateway (reply_to name_charset_prompt)].
Proof.
  intros w r.
  destruct (start_text_in_waiting_name (fun i => Z.of_nat i) (says 7 (lit "/start")) w
              eq_refl) as [H _].
  destruct (H eq_refl) as (Hr & Hst & _ & Hbag & _).
  split; [exact Hst|]. subst r. split; [by rewrite Hbag|].
  rewrite Hr. reflexivity.
Defined.

(** ** C9: the two numeric steps *)

(** The statement of the second step names the columns [duration_hours]
    and [active]; the table has [tournament_duration] and [is_active]. *)
Lemma update_tournament_settings_raises v hours d :
  update_tournament_settings v hours d = Raise OperationalError.
Proof. reflexivity. Qed.

(** The first step: a text that is no integer, or an integer outside
    1..1000, is answered with a prompt and changes nothing; an integer in
    range is stored in the bag and moves the user to the second step. *)
Lemma handle_votes_count_step m w b :
  get_user_state (m_from m) w = WAITING_VOTES_COUNT ->
  user_data w !! m_from m = Some b ->
  handle_user_state m w =
  match py_int (py_strip (m_text m)) with
  | Ok v =>
      if (v <? 1) || (1000 <? v) then (w, [send_message (m_chat m) votes_out_of_range])
      else (set_user_state (m_from m) WAITING_TOURNAMENT_TIME
              (set_user_data (m_from m) (bag_set_votes_count v b) w),
            [send_message (m_chat m) ask_hours])
  | Raise _ => (w, [send_message (m_chat m) enter_a_number])
  end.
Proof.
  intros Hst Hbag. unfold handle_user_state. rewrite Hst.
  unfold handle_votes_count, py_int.
  destruct (match int_strip (py_strip (m_text m)) with
            | 43 :: b0 => (1, b0) | 45 :: b0 => (-1, b0) | _ => _ end) as [sign body].
  destruct (int_digits 0 false body) as [n|]; simpl; [|done].
  destruct ((sign * n <? 1) || (1000 <? sign * n)); [done|].
  by rewrite Hbag.
Qed.

Lemma py_int_raises s e : py_int s = Raise e -> e = ValueError.
Proof.
  unfold py_int.
  destruct (match int_strip s with
            | 43 :: b0 => (1, b0) | 45 :: b0 => (-1, b0) | _ => _ end) as [sign body].
  destruct (int_digits 0 false body); [done|]. by intros [= <-].
Qed.

(** The second step, by the text sent. *)
Lemma handle_tournament_time_step m w :
  numeric_step m w (handle_tournament_time m w) =
  match py_int (py_strip (m_text m)) with
  | Ok hours =>
      if (hours <? 1) || (168 <? hours)
      then (w, [send_message (m_chat m) hours_out_of_range])
      else (w, [send_message (m_chat m) message_failed])
  | Raise _ => (w, [send_message (m_chat m) enter_a_number])
  end.
Proof.
  unfold handle_tournament_time.
  destruct (py_int (py_strip (m_text m))) as [hours|e] eqn:Hint.
  - unfold bind at 1. destruct ((hours <? 1) || (168 <? hours)); [done|].
    unfold bag_lookup at 1.
    destruct (user_data w !! m_from m) as [b|]; [|done].
    destruct (votes_count b); done.
  - by rewrite (py_int_raises _ _ Hint).
Qed.

(** C9 (code defect).  In [WAITING_TOURNAMENT_TIME] no text completes the
    flow: whatever is sent, the store keeps its tournament rows, and the
    user's state and bag stay as they were.  A text that is no integer
    and an integer outside 1..168 are answered with their prompts; an
    integer within 1..168 is answered with "Произошла ошибка при обработке
    вашего сообщения", where the claim asks for the running tournament to
    take the new threshold and duration and the state to return to
    [START]. *)
Theorem handle_user_state_time_never_completes (m : message) (w : world) :
  get_user_state (m_from m) w = WAITING_TOURNAMENT_TIME ->
  let w' := fst (handle_user_state m w) in
  let out := snd (handle_user_state m w) in
  w' = w
  /\ get_user_state (m_from m) w' = WAITING_TOURNAMENT_TIME
  /\ (forall e, py_int (py_strip (m_text m)) = Raise e ->
        out = [send_message (m_chat m) enter_a_number])
  /\ (forall hours, py_int (py_strip (m_text m)) = Ok hours ->
        (hours < 1 \/ 168 < hours -> out = [send_message (m_chat m) hours_out_of_range])
        /\ (1 <= hours <= 168 -> out = [send_message (m_chat m) message_failed])).
Proof.
  intros Hst w' out. subst w' out. unfold handle_user_state. rewrite Hst.
  rewrite handle_tournament_time_step.
  destruct (py_int (py_strip (m_text m))) as [hours|e].
  - destruct ((hours <? 1) || (168 <? hours)) eqn:Hr.
    + split; [done|]. split; [done|]. split; [done|].
      intros h [= <-]. split; [done|]. intros [H1 H2].
      apply orb_true_iff in Hr as [H|H]; apply Z.ltb_lt in H; lia.
    + apply orb_false_iff in Hr as [H1 H2].
      apply Z.ltb_ge in H1. apply Z.ltb_ge in H2.
      split; [done|]. split; [done|]. split; [done|].
      intros h [= <-]. split; [lia|done].
  - split; [done|]. split; [done|]. split; done.
Qed.

(** The administrator, with 20 stored as the new threshold and a
    tournament running, sends "48". *)
Lemma handle_user_state_time_never_completes_witness :
  let w := in_state ADMIN_ID WAITING_TOURNAMENT_TIME (bag_set_votes_count 20 empty_bag)
             (sample_world []) in
  let r := handle_user_state (says ADMIN_ID (lit "48")) w in
  py_int (py_strip (lit "48")) = Ok 48
  /\ fst r = w
  /\ tournament_settings (store (fst r)) = [sample_tournament 3]
  /\ get_user_state ADMIN_ID (fst r) = WAITING_TOURNAMENT_TIME
  /\ snd r = [send_message ADMIN_ID message_failed].
Proof.
  intros w r. split; [reflexivity|].
  destruct (handle_user_state_time_never_completes (says ADMIN_ID (lit "48")) w eq_refl)
    as (Hw & Hst & _ & Hok).
  split; [exact Hw|]. split; [subst r; rewrite Hw; reflexivity|].
  split; [exact Hst|].
  destruct (Hok 48 eq_refl) as [_ H]. apply H. lia.
Defined.


(** ** C8: pairing *)

Lemma insert_by_perm {A} (key : A -> Z) x (l : list A) : insert_by key x l ≡ₚ x :: l.
Proof.
  induction l as [|y l IH]; simpl; [done|].
  destruct (key x <=? key y); [done|].
  rewrite IH. apply Permutation_swap.
Qed.

Lemma sort_by_perm {A} (key : A -> Z) (l : list A) : sort_by key l ≡ₚ l.
Proof.
  induction l as [|x l IH]; [done|].
  rewrite sort_by_cons, insert_by_perm. by rewrite IH.
Qed.

Lemma imap_tag {A} (rnd : nat -> Z) (l : list A) :
  map snd (imap (fun i r => (rnd i, r)) l) = l.
Proof.
  revert rnd. induction l as [|x l IH]; intros rnd; [done|].
  simpl. f_equal. exact (IH (fun i => rnd (S i))).
Qed.

(** Ordering by [RANDOM()] rearranges the rows, whatever values it takes. *)
Lemma order_by_random_perm {A} (rnd : nat -> Z) (l : list A) : order_by_random rnd l ≡ₚ l.
Proof.
  unfold order_by_random.
  rewrite <- (imap_tag rnd l) at 2.
  apply fmap_Permutation, sort_by_perm.
Qed.

Lemma eligible_spec user_id d p :
  In p (eligible user_id d) <->
  In p (photos d) /\ approved p = 1
  /\ forall v, In v (user_votes d) -> ~ (uv_user_id v = user_id /\ uv_photo_id v = p_id p).
Proof.
  unfold eligible. rewrite <- !list_elem_of_In, list_elem_of_filter.
  rewrite andb_true_iff, negb_true_iff. unfold is_approved. rewrite Z.eqb_eq.
  assert (existsb (voted user_id (p_id p)) (user_votes d) = false <->
          forall v, In v (user_votes d) ->
                    ~ (uv_user_id v = user_id /\ uv_photo_id v = p_id p)) as ->.
  { split.
    - intros Hex v Hv [H1 H2].
      assert (existsb (voted user_id (p_id p)) (user_votes d) = true); [|congruence].
      apply existsb_exists. exists v. split; [done|].
      unfold voted. rewrite H1, H2, !Z.eqb_refl. done.
    - intros Hno. destruct (existsb _ _) eqn:Hex; [|done].
      apply existsb_exists in Hex as (v & Hv & Hvoted).
      unfold voted in Hvoted. apply andb_true_iff in Hvoted as [H1 H2].
      apply Z.eqb_eq in H1, H2. by destruct (Hno v Hv). }
  tauto.
Qed.

Lemma allowed_after_allow user_id w : user_id ∈ ALLOWED_USERS (allow user_id w).
Proof.
  unfold allow. simpl. case_bool_decide; [done|].
  apply list_elem_of_In, in_or_app. right. by left.
Qed.

(** C8, as the code has it.  The pairing query of [start_voting] returns
    at most two rows, drawn without replacement from the contestants
    that are approved and for whom the voter has no vote row; it returns
    fewer than two exactly when fewer than two such contestants remain
    (none, or a single one); and with a tournament running that case is
    answered with "Вы уже проголосовали за всех участниц!", not with the
    error reply. *)
Theorem participants_pairing (rnd : nat -> Z) (m : message) (w : world) :
  let d := store w in
  let user_id := m_from m in
  exists ps rest,
    participants rnd user_id d = Ok ps
    /\ (length ps <= 2)%nat
    /\ ps ++ rest ≡ₚ eligible user_id d
    /\ (forall p, In p ps ->
          In p (photos d) /\ approved p = 1
          /\ forall v, In v (user_votes d) ->
                       ~ (uv_user_id v = user_id /\ uv_photo_id v = p_id p))
    /\ ((length ps < 2)%nat <-> (length (eligible user_id d) < 2)%nat)
    /\ ((exists t, In t (tournament_settings d) /\ is_active t = 1) ->
        (length ps < 2)%nat ->
        start_voting rnd m w = (allow user_id w, [reply_to voted_for_all])).
Proof.
  intros d user_id.
  set (sorted := order_by_random rnd (eligible user_id d)).
  assert (Hperm : sorted ≡ₚ eligible user_id d) by apply order_by_random_perm.
  exists (take 2 sorted), (drop 2 sorted).
  split; [reflexivity|].
  split; [rewrite length_take; lia|].
  split; [by rewrite take_drop|].
  split.
  { intros p Hp. apply eligible_spec. apply list_elem_of_In. rewrite <- Hperm.
    apply list_elem_of_In in Hp. by apply (subseteq_take 2 sorted). }
  split.
  { rewrite length_take, <- (Permutation_length Hperm). lia. }
  intros (t & Hin & Hact) Hlt. unfold start_voting.
  change (fst (check_subscription (m_from m) w)) with (allow user_id w).
  rewrite bool_decide_false.
  2: { intros Hn. apply Hn, allowed_after_allow. }
  unfold start_voting_db.
  change (prepare tournament_settings_t _) with (Ok tt). cbn [bind].
  change (store (allow user_id w)) with d.
  destruct (find_some_of_In active _ t Hin) as [t' ->].
  { unfold active. by rewrite Hact. }
  change (participants rnd (m_from m) d) with (Ok (take 2 sorted)). cbn [bind].
  apply Nat.ltb_lt in Hlt. by rewrite Hlt.
Qed.

(** A voter who has voted for both approved contestants is shown none
    and is told so. *)
Lemma participants_pairing_witness :
  let w := sample_world [vote_of 7 1; vote_of 7 2] in
  participants (fun i => Z.of_nat i) 7 (store w) = Ok []
  /\ start_voting (fun i => Z.of_nat i) (says 7 []) w =
       (allow 7 w, [reply_to voted_for_all]).
Proof.
  intros w.
  destruct (participants_pairing (fun i => Z.of_nat i) (says 7 []) w)
    as (ps & rest & Hps & _ & _ & _ & Hlt & Hreply).
  assert (Hnone : (length (eligible 7 (store w)) < 2)%nat) by (vm_compute; lia).
  split; [reflexivity|].
  apply Hreply.
  - exists (sample_tournament 3). split; [by left|reflexivity].
  - by apply Hlt.
Defined.

(** Voter 7 has voted for contestant 1 and not for contestant 2: one
    contestant is returned, fewer than two, although the voter has not
    exhausted the contestants; the reply says she has voted for all. *)
Lemma participants_exhaustion_counterexample :
  let w := sample_world [vote_of 7 1] in
  participants (fun _ => 0) 7 (store w) = Ok [sample_photo 2 3]
  /\ (length [sample_photo 2 3] < 2)%nat
  /\ eligible 7 (store w) = [sample_photo 2 3]
  /\ eligible 7 (store w) <> []
  /\ existsb (voted 7 2) (user_votes (store w)) = false
  /\ snd (start_voting (fun _ => 0) (says 7 []) w) = [reply_to voted_for_all].
Proof. vm_compute. repeat split; (lia || discriminate). Qed.

(** ** C7: starting a tournament *)

Ltac branches := repeat (first [case_bool_decide | case_match]); simpl in *; try done.

Lemma active_set_active_0 t : active (set_active 0 t) = false.
Proof. reflexivity. Qed.

Lemma length_active_deactivate cond l :
  (length (filter (fun t => active t = true) (update_where cond (set_active 0) l))
   <= length (filter (fun t => active t = true) l))%nat.
Proof.
  induction l as [|t l IH]; [done|]. simpl.
  rewrite !filter_cons. destruct (cond t).
  - rewrite decide_False by (rewrite active_set_active_0; done).
    destruct (decide (active t = true)); simpl; lia.
  - destruct (decide (active t = true)); simpl; lia.
Qed.

Lemma length_active_set_required cond n l :
  length (filter (fun t => active t = true) (update_where cond (set_required n) l))
  = length (filter (fun t => active t = true) l).
Proof.
  induction l as [|t l IH]; [done|]. simpl.
  rewrite !filter_cons.
  assert (active (if cond t then set_required n t else t) = active t) as Ha
    by (by destruct (cond t)).
  destruct (decide (active t = true)) as [H|H].
  - rewrite decide_True by (by rewrite Ha). simpl. by rewrite IH.
  - rewrite decide_False by (by rewrite Ha). exact IH.
Qed.

Lemma no_active_rows l :
  find active l = None -> filter (fun t => active t = true) l = [].
Proof.
  intros H. apply filter_all_false. intros t Ht.
  rewrite (proj1 (find_none_iff _ _) H t); [done|]. by apply list_elem_of_In.
Qed.

(** The handlers that leave [tournament_settings] alone. *)
Lemma handle_name_store m w : store (fst (handle_name m w)) = store w.
Proof. unfold handle_name, cancel_proposal. branches. Qed.

Lemma start_command_store m w : store (fst (start_command m w)) = store w.
Proof. unfold start_command. branches. Qed.

Lemma start_voting_store rnd m w : store (fst (start_voting rnd m w)) = store w.
Proof. unfold start_voting. branches. Qed.

Lemma handle_preview_buttons_settings c w :
  tournament_settings (store (fst (handle_preview_buttons c w))) =
  tournament_settings (store w).
Proof.
  unfold handle_preview_buttons, cancel_proposal_callback. branches.
  unfold insert_suggestion in *. simpl in *. by simplify_eq.
Qed.

Lemma handle_suggestion_decision_settings f c w :
  tournament_settings (store (fst (handle_suggestion_decision f c w))) =
  tournament_settings (store w).
Proof.
  unfold handle_suggestion_decision. branches.
  - unfold accept_suggestion, guard in *. destruct f as [[] [] []]; simpl in *;
      by simplify_eq.
  - unfold reject_suggestion, guard in *. destruct f as [[] [] []]; simpl in *;
      by simplify_eq.
Qed.

Lemma handle_participant_deletion_settings c w :
  tournament_settings (store (fst (handle_participant_deletion c w))) =
  tournament_settings (store w).
Proof.
  unfold handle_participant_deletion. branches.
  unfold bind in *. branches; by simplify_eq.
Qed.

Lemma handle_user_state_store m w : store (fst (handle_user_state m w)) = store w.
Proof.
  unfold handle_user_state. destruct (get_user_state (m_from m) w); try done.
  - apply handle_name_store.
  - unfold handle_votes_count, numeric_step, bind. branches; by simplify_eq.
  - by rewrite handle_tournament_time_step; branches.
Qed.

(** What the engine's own writes do to the active rows. *)
Lemma init_db_active d : length (active_rows (init_db d)) = length (active_rows d).
Proof. unfold init_db, active_rows. simpl. apply length_active_set_required. Qed.

Lemma check_tournament_completion_active d :
  (length (active_rows (fst (check_tournament_completion d))) <= length (active_rows d))%nat.
Proof.
  unfold check_tournament_completion, check_tournament_completion_db, active_rows.
  simpl. branches; simplify_eq; simpl; first [lia | apply length_active_deactivate].
Qed.

Lemma stop_tournament_active m w :
  (length (active_rows (store (fst (stop_tournament m w)))) <= length (active_rows (store w)))%nat.
Proof.
  unfold stop_tournament, stop_tournament_db, active_rows.
  simpl. branches; simplify_eq; simpl; first [lia | apply length_active_deactivate].
Qed.

(** [start_new_tournament], case by case. *)
Lemma start_new_tournament_cases now m w :
  let d := store w in
  start_new_tournament now m w =
  match find active (tournament_settings d) with
  | Some _ => (w, [reply_to tournament_already_active])
  | None =>
      if (length (approved_rows d) <? 2)%nat then (w, [reply_to need_two_participants])
      else
        (set_store
           (with_tournaments
              (tournament_settings d ++ [new_tournament (seq_tournament_settings d + 1) now])
              (seq_tournament_settings d + 1) d) w,
         [reply_to (tournament_started (Z.of_nat (length (approved_rows d))));
          send_message (m_chat m) back_to_admin_panel])
  end.
Proof.
  intros d. unfold start_new_tournament, start_new_tournament_db. simpl.
  fold d. fold (approved_rows d).
  destruct (find active (tournament_settings d)); simpl.
  { by destruct w. }
  destruct (Z.of_nat (length (approved_rows d)) <? 2) eqn:E.
  - apply Z.ltb_lt in E. rewrite (proj2 (Nat.ltb_lt _ _)) by lia. by destruct w.
  - apply Z.ltb_ge in E. rewrite (proj2 (Nat.ltb_ge _ _)) by lia. done.
Qed.

Lemma start_new_tournament_active now m w :
  at_most_one_active (store w) ->
  at_most_one_active (store (fst (start_new_tournament now m w))).
Proof.
  intros Hinv. rewrite start_new_tournament_cases.
  destruct (find active (tournament_settings (store w))) eqn:Hf; [done|].
  destruct (length (approved_rows (store w)) <? 2)%nat; [done|].
  unfold at_most_one_active, active_rows. simpl.
  rewrite filter_app, (no_active_rows _ Hf), app_nil_l.
  etransitivity; [apply length_filter|done].
Qed.

(** No operation breaks the singleton. *)
Lemma step_at_most_one_active o w :
  at_most_one_active (store w) -> at_most_one_active (store (fst (step o w))).
Proof.
  intros Hinv. unfold at_most_one_active in *.
  assert (Hkeep : forall d', tournament_settings d' = tournament_settings (store w) ->
                             (length (active_rows d') <= 1)%nat).
  { intros d' Heq. unfold active_rows in *. by rewrite Heq. }
  destruct o; cbn [step fst].
  - change (store (set_store (init_db (store w)) w)) with (init_db (store w)).
    rewrite init_db_active. exact Hinv.
  - by rewrite handle_name_store.
  - by rewrite start_command_store.
  - apply Hkeep, handle_preview_buttons_settings.
  - apply Hkeep, handle_suggestion_decision_settings.
  - by rewrite start_voting_store.
  - by rewrite handle_vote_store.
  - pose proof (check_tournament_completion_active (store w)) as Hle.
    destruct (check_tournament_completion (store w)) as [d out]. simpl in *.
    change (store (set_store d w)) with d. lia.
  - apply Hkeep, handle_participant_deletion_settings.
  - unfold handle_tournament_settings. branches.
    + by apply start_new_tournament_active.
    + pose proof (stop_tournament_active
                    {| m_from := c_from c; m_chat := c_chat c; m_text := [] |} w). lia.
  - by rewrite handle_user_state_store.
Qed.

Lemma steps_at_most_one_active os w :
  at_most_one_active (store w) -> at_most_one_active (store (steps os w)).
Proof.
  revert w. induction os as [|o os IH]; intros w Hinv; [done|].
  simpl. apply IH. by apply step_at_most_one_active.
Qed.

(** C7.  [start_new_tournament] refuses while a tournament row is active
    and when fewer than two contestants are approved, changing nothing;
    otherwise it appends exactly one row, active, with threshold 15,
    duration 24 and the current time as start, and that row is then the
    only active one.  Every operation of the program, and so every run of
    operations, keeps the number of active rows at most one. *)
Theorem start_new_tournament_singleton (now : Z) (m : message) (w : world) :
  let d := store w in
  let r := start_new_tournament now m w in
  ((exists t, In t (tournament_settings d) /\ is_active t = 1) ->
     r = (w, [reply_to tournament_already_active]))
  /\ ((forall t, In t (tournament_settings d) -> is_active t <> 1) ->
      (length (approved_rows d) < 2)%nat ->
      r = (w, [reply_to need_two_participants]))
  /\ ((forall t, In t (tournament_settings d) -> is_active t <> 1) ->
      (2 <= length (approved_rows d))%nat ->
      tournament_settings (store (fst r)) =
        tournament_settings d ++ [new_tournament (seq_tournament_settings d + 1) now]
      /\ active_rows (store (fst r)) = [new_tournament (seq_tournament_settings d + 1) now]
      /\ photos (store (fst r)) = photos d
      /\ user_votes (store (fst r)) = user_votes d)
  /\ (forall o, at_most_one_active d -> at_most_one_active (store (fst (step o w))))
  /\ (forall os, at_most_one_active d -> at_most_one_active (store (steps os w))).
Proof.
  intros d r. subst r. rewrite start_new_tournament_cases. fold d.
  split.
  { intros (t & Hin & Hact). destruct (find_some_of_In active _ t Hin) as [t' ->]; [|done].
    unfold active. by rewrite Hact. }
  assert (Hnone : (forall t, In t (tournament_settings d) -> is_active t <> 1) ->
                  find active (tournament_settings d) = None).
  { intros H. apply find_none_iff. intros t Ht. unfold active. apply Z.eqb_neq. auto. }
  split.
  { intros H Hlt. rewrite (Hnone H). by rewrite (proj2 (Nat.ltb_lt _ _) Hlt). }
  split.
  { intros H Hge. rewrite (Hnone H). rewrite (proj2 (Nat.ltb_ge _ _) Hge). simpl.
    split; [done|]. split; [|done].
    unfold active_rows. simpl. by rewrite filter_app, (no_active_rows _ (Hnone H)). }
  split; [intros o; apply step_at_most_one_active|intros os; apply steps_at_most_one_active].
Qed.

(** With the sample tournament stopped and two approved contestants, the
    administrator starts a tournament at time 1700000500. *)
Lemma start_new_tournament_singleton_witness :
  let w := fst (stop_tournament (says ADMIN_ID []) (sample_world [])) in
  let w' := fst (start_new_tournament 1700000500 (says ADMIN_ID []) w) in
  active_rows (store w) = []
  /\ active_rows (store w') = [new_tournament 2 1700000500]
  /\ at_most_one_active
       (store (steps [Handle_vote (press 7 "vote_1"); Check_tournament_completion;
                      Handle_tournament_settings 1700000900
                        (press ADMIN_ID "start_tournament")] w')).
Proof.
  intros w w'. split; [reflexivity|].
  destruct (start_new_tournament_singleton 1700000500 (says ADMIN_ID []) w)
    as (_ & _ & Hstart & _ & _).
  destruct (start_new_tournament_singleton 1700000500 (says ADMIN_ID []) w')
    as (_ & _ & _ & _ & Hrun).
  split.
  - apply Hstart.
    + intros t [<-|[]]. discriminate.
    + vm_compute. lia.
  - apply Hrun. vm_compute. lia.
Defined.

(** * Further properties of the code *)

(** ** Button data survive the round trip *)

Lemma str_digits_digits fuel n acc :
  0 <= n -> forallb is_digit acc = true -> forallb is_digit (str_digits fuel n acc) = true.
Proof.
  revert n acc. induction fuel as [|fuel IH]; intros n acc Hn Hacc; [done|].
  simpl.
  assert (Hd : forallb is_digit ((48 + n mod 10) :: acc) = true).
  { simpl. rewrite Hacc, andb_true_r. unfold is_digit.
    pose proof (Z.mod_pos_bound n 10). apply andb_true_iff.
    split; apply Z.leb_le; lia. }
  destruct (n <? 10); [exact Hd|].
  apply IH; [|exact Hd]. apply Z.div_pos; lia.
Qed.

Lemma str_digits_not_nil fuel n acc : str_digits (S fuel) n acc <> [].
Proof.
  revert n acc. induction fuel as [|fuel IH]; intros n acc; simpl.
  - by destruct (n <? 10).
  - destruct (n <? 10); [done|]. apply (IH (n / 10)).
Qed.

(** Reading the digits back, most significant first. *)
Lemma str_digits_value fuel n acc :
  0 <= n < 10 ^ Z.of_nat fuel ->
  fold_left read_digit (str_digits fuel n acc) 0 = fold_left read_digit acc n.
Proof.
  revert n acc. induction fuel as [|fuel IH]; intros n acc Hn.
  - simpl in *. by replace n with 0 by lia.
  - simpl str_digits. destruct (n <? 10) eqn:E.
    + apply Z.ltb_lt in E. simpl. unfold read_digit at 2.
      rewrite Z.mod_small by lia. f_equal. lia.
    + apply Z.ltb_ge in E. rewrite IH.
      * simpl. unfold read_digit at 2. f_equal.
        pose proof (Z.div_mod n 10). lia.
      * split; [apply Z.div_pos; lia|].
        apply Z.div_lt_upper_bound; [lia|].
        rewrite Nat2Z.inj_succ, Z.pow_succ_r in Hn by lia. lia.
Qed.

Lemma int_digits_fold a b ds :
  forallb is_digit ds = true -> ds <> [] \/ b = true ->
  int_digits a b ds = Some (fold_left read_digit ds a).
Proof.
  revert a b. induction ds as [|c ds IH]; intros a b Hall Hne.
  - destruct Hne as [Hne| ->]; done.
  - simpl in Hall. apply andb_true_iff in Hall as [Hc Hall].
    simpl. unfold is_digit in Hc.
    assert ((c =? 95) = false) as ->.
    { apply andb_true_iff in Hc as [H1 H2]. apply Z.leb_le in H1, H2.
      apply Z.eqb_neq. lia. }
    unfold digit_val. rewrite Hc. apply IH; auto.
Qed.

Lemma py_lstrip_id s : forallb (fun c => negb (py_isspace c)) s = true -> py_lstrip s = s.
Proof.
  destruct s as [|c s]; [done|]. simpl. intros H.
  apply andb_true_iff in H as [H _]. by destruct (py_isspace c).
Qed.

Lemma py_strip_id s : forallb (fun c => negb (py_isspace c)) s = true -> py_strip s = s.
Proof.
  intros H. unfold py_strip, py_rstrip. rewrite (py_lstrip_id s H).
  rewrite py_lstrip_id; [apply rev_involutive|].
  apply forallb_forall. intros c Hc. apply in_rev in Hc.
  by apply (proj1 (forallb_forall _ _) H).
Qed.

Lemma int_lstrip_id s : forallb (fun c => negb (int_isspace c)) s = true -> int_lstrip s = s.
Proof.
  destruct s as [|c s]; [done|]. simpl. intros H.
  apply andb_true_iff in H as [H _]. by destruct (int_isspace c).
Qed.

Lemma int_strip_id s : forallb (fun c => negb (int_isspace c)) s = true -> int_strip s = s.
Proof.
  intros H. unfold int_strip. rewrite (int_lstrip_id s H).
  rewrite int_lstrip_id; [apply rev_involutive|].
  apply forallb_forall. intros c Hc. apply in_rev in Hc.
  by apply (proj1 (forallb_forall _ _) H).
Qed.

Lemma not_space_not_int_space c : negb (py_isspace c) = true -> negb (int_isspace c) = true.
Proof. unfold int_isspace. by destruct (py_isspace c). Qed.

Lemma digit_not_space c : is_digit c = true -> negb (py_isspace c) = true.
Proof.
  unfold is_digit, py_isspace. intros H.
  apply andb_true_iff in H as [H1 H2]. apply Z.leb_le in H1, H2.
  apply negb_true_iff. repeat (apply orb_false_iff; split);
    first [apply andb_false_iff; (left; apply Z.leb_gt; lia) || (right; apply Z.leb_gt; lia)
          | apply Z.eqb_neq; lia].
Qed.

Lemma digits_fuel n : 0 <= n -> n < 10 ^ Z.of_nat (S (Z.to_nat (Z.log2 n))).
Proof.
  intros Hn. rewrite Nat2Z.inj_succ, Z2Nat.id by apply Z.log2_nonneg.
  destruct (Z.eq_dec n 0) as [->|Hne]; [done|].
  pose proof (Z.log2_spec n ltac:(lia)) as [_ Hlt].
  eapply Z.lt_le_trans; [exact Hlt|].
  apply Z.pow_le_mono_l. pose proof (Z.log2_nonneg n). lia.
Qed.

(** [int(str(n)) == n] *)
Lemma py_int_py_str n : py_int (py_str n) = Ok n.
Proof.
  unfold py_str. destruct (n <? 0) eqn:Hneg.
  - apply Z.ltb_lt in Hneg.
    set (ds := str_digits _ (- n) []).
    assert (Hds : forallb is_digit ds = true) by (apply str_digits_digits; [lia|done]).
    unfold py_int. rewrite int_strip_id.
    2:{ simpl. apply forallb_forall. intros c Hc. apply not_space_not_int_space, digit_not_space.
        by apply (proj1 (forallb_forall _ _) Hds). }
    rewrite int_digits_fold; [|exact Hds|left; apply str_digits_not_nil].
    unfold ds. rewrite str_digits_value by (split; [lia|apply digits_fuel; lia]).
    simpl. f_equal. lia.
  - apply Z.ltb_ge in Hneg.
    set (ds := str_digits _ n []).
    assert (Hds : forallb is_digit ds = true) by (apply str_digits_digits; [lia|done]).
    assert (Hne : ds <> []) by apply str_digits_not_nil.
    unfold py_int. rewrite int_strip_id.
    2:{ apply forallb_forall. intros c Hc. apply not_space_not_int_space, digit_not_space.
        by apply (proj1 (forallb_forall _ _) Hds). }
    assert (Hsign : match ds with
                    | 43 :: b => (1, b) | 45 :: b => (-1, b) | _ => (1, ds)
                    end = (1, ds)).
    { destruct ds as [|c ds']; [done|]. simpl in Hds.
      apply andb_true_iff in Hds as [Hc _]. unfold is_digit in Hc.
      apply andb_true_iff in Hc as [H1 H2]. apply Z.leb_le in H1, H2.
      destruct c as [|c|c]; try lia.
      do 6 (destruct c as [c|c|]; try lia; try done). }
    rewrite Hsign, int_digits_fold; [|exact Hds|by left].
    unfold ds. rewrite str_digits_value by (split; [lia|apply digits_fuel; lia]).
    simpl. f_equal. lia.
Qed.

Lemma py_split_no_sep sep s :
  forallb (fun c => negb (c =? sep)) s = true -> py_split sep s = [s].
Proof.
  induction s as [|c s IH]; [done|]. simpl. intros H.
  apply andb_true_iff in H as [Hc H]. apply negb_true_iff in Hc.
  by rewrite Hc, (IH H).
Qed.

Lemma py_split_app sep p s :
  forallb (fun c => negb (c =? sep)) p = true ->
  py_split sep (p ++ sep :: s) = p :: py_split sep s.
Proof.
  induction p as [|c p IH]; simpl.
  - by rewrite Z.eqb_refl.
  - intros H. apply andb_true_iff in H as [Hc H]. apply negb_true_iff in Hc.
    by rewrite Hc, (IH H).
Qed.

Lemma py_str_no_underscore n : forallb (fun c => negb (c =? 95)) (py_str n) = true.
Proof.
  assert (Hd : forall ds, forallb is_digit ds = true ->
                          forallb (fun c => negb (c =? 95)) ds = true).
  { intros ds H. apply forallb_forall. intros c Hc.
    apply (proj1 (forallb_forall _ _) H) in Hc. unfold is_digit in Hc.
    apply andb_true_iff in Hc as [H1 H2]. apply Z.leb_le in H1, H2.
    apply negb_true_iff, Z.eqb_neq. lia. }
  unfold py_str. destruct (n <? 0) eqn:E.
  - apply Z.ltb_lt in E. cbn [forallb]. rewrite Hd; [done|].
    apply str_digits_digits; [lia|done].
  - apply Z.ltb_ge in E. apply Hd, str_digits_digits; [lia|done].
Qed.

Lemma split_accept_data i :
  py_split 95 (accept_data i) = [lit "accept"; lit "suggestion"; py_str i].
Proof.
  change (accept_data i) with (lit "accept" ++ 95 :: (lit "suggestion" ++ 95 :: py_str i)).
  rewrite !py_split_app by reflexivity.
  by rewrite (py_split_no_sep 95 _ (py_str_no_underscore i)).
Qed.

Lemma split_reject_data i :
  py_split 95 (reject_data i) = [lit "reject"; lit "suggestion"; py_str i].
Proof.
  change (reject_data i) with (lit "reject" ++ 95 :: (lit "suggestion" ++ 95 :: py_str i)).
  rewrite !py_split_app by reflexivity.
  by rewrite (py_split_no_sep 95 _ (py_str_no_underscore i)).
Qed.

Lemma split_vote_data i : py_split 95 (vote_data i) = [lit "vote"; py_str i].
Proof.
  change (vote_data i) with (lit "vote" ++ 95 :: py_str i).
  rewrite !py_split_app by reflexivity.
  by rewrite (py_split_no_sep 95 _ (py_str_no_underscore i)).
Qed.

Lemma split_delete_data i :
  py_split 95 (delete_data i) = [lit "delete"; lit "participant"; py_str i].
Proof.
  change (delete_data i) with (lit "delete" ++ 95 :: (lit "participant" ++ 95 :: py_str i)).
  rewrite !py_split_app by reflexivity.
  by rewrite (py_split_no_sep 95 _ (py_str_no_underscore i)).
Qed.

Lemma parse_accept_data i :
  parse_decision (py_split 95 (accept_data i)) = Ok (lit "accept", i).
Proof.
  rewrite split_accept_data. unfold parse_decision, py_index. simpl.
  by rewrite py_int_py_str.
Qed.

Lemma parse_reject_data i :
  parse_decision (py_split 95 (reject_data i)) = Ok (lit "reject", i).
Proof.
  rewrite split_reject_data. unfold parse_decision, py_index. simpl.
  by rewrite py_int_py_str.
Qed.

(** X1.  The data a button is given lead its handler back to the row the
    button was made for: the accept and reject data of a suggestion parse
    to that action and id, the vote and delete data of a contestant to
    her id, for every integer id. *)
Theorem button_data_round_trip (i : Z) :
  parse_decision (py_split 95 (accept_data i)) = Ok (lit "accept", i)
  /\ parse_decision (py_split 95 (reject_data i)) = Ok (lit "reject", i)
  /\ parse_id 1 (vote_data i) = Ok i
  /\ parse_id 2 (delete_data i) = Ok i.
Proof.
  split; [apply parse_accept_data|]. split; [apply parse_reject_data|].
  unfold parse_id. rewrite split_vote_data, split_delete_data.
  unfold py_index. simpl. by rewrite py_int_py_str.
Qed.

(** ** What a user who is not the administrator can change *)

(** X2.  An operation served for a user other than the administrator
    leaves contestants, votes and tournament rows as they are, and
    leaves the suggestions as they are or adds one pending suggestion
    submitted by that user. *)
Theorem only_admin_changes_contest (o : operation) (w : world) (u : Z) :
  actor o = Some u -> u <> ADMIN_ID ->
  let d := store w in
  let d' := store (fst (step o w)) in
  photos d' = photos d
  /\ user_votes d' = user_votes d
  /\ tournament_settings d' = tournament_settings d
  /\ (suggestions d' = suggestions d
      \/ exists s, suggestions d' = suggestions d ++ [s]
                   /\ s_status s = pending /\ suggested_by s = u).
Proof.
  intros Hactor Hu d d'. subst d d'.
  assert (Hsame : forall w', store w' = store w ->
            photos (store w') = photos (store w)
            /\ user_votes (store w') = user_votes (store w)
            /\ tournament_settings (store w') = tournament_settings (store w)
            /\ (suggestions (store w') = suggestions (store w)
                \/ exists s, suggestions (store w') = suggestions (store w) ++ [s]
                             /\ s_status s = pending /\ suggested_by s = u)).
  { intros w' ->. auto. }
  destruct o; cbn [step actor] in *; simplify_eq.
  - apply Hsame, handle_name_store.
  - apply Hsame, start_command_store.
  - unfold handle_preview_buttons, cancel_proposal_callback.
    branches; try (repeat split; auto; fail).
    unfold insert_suggestion in *. simpl in *. simplify_eq. simpl.
    repeat split; try done. right. eexists. split; [done|]. done.
  - apply Hsame. unfold handle_suggestion_decision.
    by rewrite bool_decide_true.
  - apply Hsame, start_voting_store.
  - apply Hsame, handle_vote_store.
  - apply Hsame. unfold handle_participant_deletion.
    by rewrite bool_decide_true.
  - apply Hsame. unfold handle_tournament_settings.
    by rewrite bool_decide_true.
  - apply Hsame, handle_user_state_store.
Qed.

(** User 7, with a complete bag, presses "send" under the preview. *)
Lemma only_admin_changes_contest_witness :
  let b := {| name := Some (lit "Alice"); file_id := Some (lit "AgACAgIAAx");
              media_type := Some photo; preview_message_id := Some 41;
              votes_count := None |} in
  let w := in_state 7 PREVIEW_SUBMISSION b (sample_world []) in
  let d' := store (fst (step (Handle_preview_buttons (press 7 "send_proposal")) w)) in
  photos d' = photos (sample_db [])
  /\ length (suggestions d') = 2%nat.
Proof.
  intros b w d'.
  assert (Hne : 7 <> ADMIN_ID) by discriminate.
  destruct (only_admin_changes_contest (Handle_preview_buttons (press 7 "send_proposal"))
              w 7 eq_refl Hne) as (Hp & _ & _ & _).
  split; [exact Hp|reflexivity].
Defined.

(** ** Removing a contestant *)

Lemma In_delete_where {A} (cond : A -> bool) (l : list A) x :
  In x (delete_where cond l) <-> In x l /\ cond x = false.
Proof.
  unfold delete_where. rewrite <- !list_elem_of_In, list_elem_of_filter. tauto.
Qed.

(** The run of [handle_participant_deletion] for the administrator on
    the data of a delete button. *)
Lemma handle_participant_deletion_run c w i :
  c_from c = ADMIN_ID -> c_data c = delete_data i ->
  handle_participant_deletion c w =
  match find (fun p => p_id p =? i) (photos (store w)) with
  | None => (w, [answer_callback_query participant_not_found])
  | Some participant =>
      (set_store
         (with_photos (delete_where (fun p => p_id p =? i) (photos (store w)))
            (seq_photos (store w))
            (with_user_votes
               (delete_where (fun v => uv_photo_id v =? i) (user_votes (store w)))
               (store w))) w,
       [delete_message;
        send_message (c_chat c) (participant_deleted (p_name participant));
        answer_callback_query participant_deleted_toast])
  end.
Proof.
  intros Hadmin Hdata. unfold handle_participant_deletion.
  rewrite bool_decide_false by (intros H; by apply H).
  rewrite Hdata, split_delete_data. unfold py_index. simpl.
  rewrite py_int_py_str. simpl.
  destruct (find _ _); [done|]. by destruct w.
Qed.

(** X3.  When the administrator presses the delete button of an
    existing contestant, exactly the rows of that contestant go: her row
    in [photos] and every vote row for her; all other contestants and
    votes, the suggestions and the tournament rows stay.  For an id that
    names no contestant nothing changes and the answer is "Участница не
    найдена". *)
Theorem deletion_cascades (c : callback) (w : world) (i : Z) :
  c_from c = ADMIN_ID -> c_data c = delete_data i ->
  let d := store w in
  let d' := store (fst (handle_participant_deletion c w)) in
  ((exists p, In p (photos d) /\ p_id p = i) ->
     (forall q, In q (photos d') <-> In q (photos d) /\ p_id q <> i)
     /\ (forall v, In v (user_votes d') <-> In v (user_votes d) /\ uv_photo_id v <> i)
     /\ suggestions d' = suggestions d
     /\ tournament_settings d' = tournament_settings d)
  /\ ((forall p, In p (photos d) -> p_id p <> i) ->
      handle_participant_deletion c w =
        (w, [answer_callback_query participant_not_found])).
Proof.
  intros Hadmin Hdata d d'. subst d d'.
  rewrite (handle_participant_deletion_run c w i Hadmin Hdata).
  split.
  - intros (p & Hin & Hid).
    destruct (find_some_of_In (fun p => p_id p =? i) _ p Hin) as [p' ->].
    { by apply Z.eqb_eq. }
    simpl. split; [|split; [|done]].
    + intros q. rewrite In_delete_where, Z.eqb_neq. tauto.
    + intros v. rewrite In_delete_where, Z.eqb_neq. tauto.
  - intros Hnone.
    assert (find (fun p => p_id p =? i) (photos (store w)) = None) as ->; [|done].
    apply find_none_iff. intros p Hp. apply Z.eqb_neq. auto.
Qed.

(** The administrator removes contestant 1, for whom voters 7 and 8 have
    voted; voter 7's vote for contestant 2 stays. *)
Lemma deletion_cascades_witness :
  let w := sample_world [vote_of 7 1; vote_of 7 2; vote_of 8 1] in
  let d' := store (fst (handle_participant_deletion
                          {| c_from := ADMIN_ID; c_chat := ADMIN_ID; c_data := delete_data 1 |}
                          w)) in
  photos d' = [sample_photo 2 3] /\ user_votes d' = [vote_of 7 2]
  /\ (forall q, In q (photos d') <-> In q (photos (store w)) /\ p_id q <> 1).
Proof.
  intros w d'. split; [reflexivity|]. split; [reflexivity|].
  destruct (deletion_cascades
              {| c_from := ADMIN_ID; c_chat := ADMIN_ID; c_data := delete_data 1 |}
              w 1 eq_refl eq_refl) as [H _].
  assert (Hex : exists p, In p (photos (store w)) /\ p_id p = 1)
    by (exists (sample_photo 1 1); split; [by left|reflexivity]).
  destruct (H Hex) as [Hq _]. exact Hq.
Defined.

(** X4.  A contestant the administrator has removed is not offered for
    voting again: after the removal no pairing contains a row with her
    id, whoever asks and whatever order the random draw takes. *)
Theorem deleted_never_paired
    (c : callback) (w : world) (i : Z) (rnd : nat -> Z) (voter : Z) (ps : list photo_row) :
  c_from c = ADMIN_ID -> c_data c = delete_data i ->
  (exists p, In p (photos (store w)) /\ p_id p = i) ->
  participants rnd voter (store (fst (handle_participant_deletion c w))) = Ok ps ->
  forall q, In q ps -> p_id q <> i.
Proof.
  intros Hadmin Hdata (p & Hin & Hid) Hps q Hq.
  rewrite (handle_participant_deletion_run c w i Hadmin Hdata) in Hps.
  destruct (find_some_of_In (fun p => p_id p =? i) _ p Hin) as [p' Hfind].
  { by apply Z.eqb_eq. }
  rewrite Hfind in Hps. simpl in Hps.
  unfold participants in Hps. simpl in Hps. injection Hps as <-.
  apply list_elem_of_In, (subseteq_take 2) in Hq.
  rewrite order_by_random_perm in Hq.
  apply list_elem_of_In, eligible_spec in Hq as (Hq & _). simpl in Hq.
  apply In_delete_where in Hq as [_ Hq]. by apply Z.eqb_neq.
Qed.

Lemma deleted_never_paired_witness :
  let w := sample_world [] in
  let c := {| c_from := ADMIN_ID; c_chat := ADMIN_ID; c_data := delete_data 2 |} in
  participants (fun i => Z.of_nat i) 7 (store (fst (handle_participant_deletion c w)))
    = Ok [sample_photo 1 1]
  /\ forall q, In q [sample_photo 1 1] -> p_id q <> 2.
Proof.
  intros w c. split; [reflexivity|].
  apply (deleted_never_paired c w 2 (fun i => Z.of_nat i) 7 [sample_photo 1 1]
           eq_refl eq_refl).
  - exists (sample_photo 2 3). split; [right; by left|reflexivity].
  - reflexivity.
Defined.

(** ** Keys stay distinct *)

Lemma votes_unique_delete cond d :
  votes_unique d -> NoDup (map vote_key (delete_where cond (user_votes d))).
Proof.
  unfold votes_unique, delete_where. generalize (user_votes d) as l.
  induction l as [|v l IH]; [done|]. simpl. intros Hnd.
  apply NoDup_cons in Hnd as [Hv Hnd]. rewrite filter_cons.
  destruct (decide (cond v = false)); [|auto].
  simpl. apply NoDup_cons. split; [|auto].
  intros Hin. apply Hv. apply list_elem_of_fmap in Hin as (v' & -> & Hv').
  apply list_elem_of_filter in Hv' as [_ Hv']. apply list_elem_of_fmap. eauto.
Qed.

Lemma step_user_votes o w :
  user_votes (store (fst (step o w))) = user_votes (store w)
  \/ exists cond, user_votes (store (fst (step o w))) = delete_where cond (user_votes (store w)).
Proof.
  destruct o; cbn [step fst].
  - by left.
  - left. by rewrite handle_name_store.
  - left. by rewrite start_command_store.
  - left. unfold handle_preview_buttons, cancel_proposal_callback. branches.
    unfold insert_suggestion in *. simpl in *. by simplify_eq.
  - left. unfold handle_suggestion_decision. branches.
    + unfold accept_suggestion, guard in *. destruct f as [[] [] []]; simpl in *;
        by simplify_eq.
    + unfold reject_suggestion, guard in *. destruct f as [[] [] []]; simpl in *;
        by simplify_eq.
  - left. by rewrite start_voting_store.
  - left. by rewrite handle_vote_store.
  - left. unfold check_tournament_completion, check_tournament_completion_db.
    simpl. branches; by simplify_eq.
  - unfold handle_participant_deletion. branches; try by left.
    unfold bind in *. branches; simplify_eq; try by left.
    right. by eexists.
  - left. unfold handle_tournament_settings. branches.
    + unfold start_new_tournament, start_new_tournament_db. simpl. branches; by simplify_eq.
    + unfold stop_tournament, stop_tournament_db. simpl. branches; by simplify_eq.
  - left. by rewrite handle_user_state_store.
Qed.

(** X5.  PRIMARY KEY (user_id, photo_id): if no two vote rows share
    voter and contestant, no operation, and so no run of operations,
    produces a store in which two do. *)
Theorem votes_stay_unique (os : list operation) (w : world) :
  votes_unique (store w) -> votes_unique (store (steps os w)).
Proof.
  revert w. induction os as [|o os IH]; intros w Hinv; [done|].
  simpl. apply IH. unfold votes_unique in *.
  destruct (step_user_votes o w) as [-> | [cond ->]]; [done|].
  by apply votes_unique_delete.
Qed.

Lemma votes_stay_unique_witness :
  let w := sample_world [vote_of 7 1; vote_of 7 2; vote_of 8 1] in
  votes_unique
    (store (steps [Handle_vote (press 7 "vote_1");
                   Handle_participant_deletion
                     {| c_from := ADMIN_ID; c_chat := ADMIN_ID; c_data := delete_data 1 |};
                   Handle_vote (press 8 "vote_2")] w)).
Proof.
  intros w. apply votes_stay_unique.
  unfold votes_unique. apply (bool_decide_unpack _). vm_compute. exact I.
Defined.

Lemma keyed_app_new {A} (id : A -> Z) rows seq r :
  keyed id rows seq -> id r = seq + 1 -> keyed id (rows ++ [r]) (seq + 1).
Proof.
  intros [Hnd Hle] Hr. split.
  - rewrite map_app. simpl. apply NoDup_app. split; [done|]. split; [|apply NoDup_singleton].
    intros k Hk Hk'. apply list_elem_of_singleton in Hk'. subst k.
    apply list_elem_of_fmap in Hk as (r' & Heq & Hin).
    apply list_elem_of_In, Hle in Hin. lia.
  - intros r' Hin. apply in_app_or in Hin as [Hin|[<-|[]]]; [|lia].
    specialize (Hle r' Hin). lia.
Qed.

Lemma keyed_update {A} (id : A -> Z) cond f rows seq :
  (forall r, id (f r) = id r) -> keyed id rows seq -> keyed id (update_where cond f rows) seq.
Proof.
  intros Hf [Hnd Hle]. split.
  - replace (map id (update_where cond f rows)) with (map id rows); [done|].
    unfold update_where. rewrite map_map. apply map_ext. intros r.
    by destruct (cond r).
  - intros r Hin. apply In_update_where in Hin as (x & Hx & ->).
    destruct (cond x); [rewrite Hf|]; auto.
Qed.

Lemma keyed_delete {A} (id : A -> Z) cond rows seq :
  keyed id rows seq -> keyed id (delete_where cond rows) seq.
Proof.
  intros [Hnd Hle]. split.
  - unfold delete_where. clear Hle. induction rows as [|r rows IH]; [done|].
    simpl in Hnd. apply NoDup_cons in Hnd as [Hr Hnd]. rewrite filter_cons.
    destruct (decide (cond r = false)); [|auto].
    simpl. apply NoDup_cons. split; [|auto].
    intros Hin. apply Hr. apply list_elem_of_fmap in Hin as (r' & -> & Hr').
    apply list_elem_of_filter in Hr' as [_ Hr']. apply list_elem_of_fmap. eauto.
  - intros r Hin. apply In_delete_where in Hin as [Hin _]. auto.
Qed.

Ltac keyed :=
  first [ assumption
        | apply keyed_app_new; [assumption|reflexivity]
        | apply keyed_update; [by intros []|assumption]
        | apply keyed_delete; assumption ].

Lemma step_ids_wf o w : ids_wf (store w) -> ids_wf (store (fst (step o w))).
Proof.
  intros (Hs & Hp & Ht).
  assert (Hsame : forall w', store w' = store w -> ids_wf (store w')).
  { intros w' ->. done. }
  destruct o; cbn [step fst].
  - unfold init_db. simpl. (split; [|split]); simpl; keyed.
  - apply Hsame, handle_name_store.
  - apply Hsame, start_command_store.
  - unfold handle_preview_buttons, cancel_proposal_callback.
    branches; try ((split; [|split]); simpl; keyed; fail).
    unfold insert_suggestion in *. simpl in *. simplify_eq.
    (split; [|split]); simpl; keyed.
  - unfold handle_suggestion_decision.
    branches; try ((split; [|split]); simpl; keyed; fail).
    + unfold accept_suggestion, guard in *. destruct f as [[] [] []]; simpl in *;
        simplify_eq; (split; [|split]); simpl; keyed.
    + unfold reject_suggestion, guard in *. destruct f as [[] [] []]; simpl in *;
        simplify_eq; (split; [|split]); simpl; keyed.
  - apply Hsame, start_voting_store.
  - apply Hsame, handle_vote_store.
  - unfold check_tournament_completion, check_tournament_completion_db.
    simpl. branches; simplify_eq; (split; [|split]); simpl; keyed.
  - unfold handle_participant_deletion.
    branches; try ((split; [|split]); simpl; keyed; fail).
    unfold bind in *. branches; simplify_eq; (split; [|split]); simpl; keyed.
  - unfold handle_tournament_settings.
    branches; try ((split; [|split]); simpl; keyed; fail).
    + unfold start_new_tournament, start_new_tournament_db. simpl.
      branches; simplify_eq; (split; [|split]); simpl; keyed.
    + unfold stop_tournament, stop_tournament_db. simpl.
      branches; simplify_eq; (split; [|split]); simpl; keyed.
  - apply Hsame, handle_user_state_store.
Qed.

(** X6.  AUTOINCREMENT keys: if in every table the ids are distinct and
    bounded by the table's counter, they are so after every run of
    operations; a new suggestion, contestant or tournament never takes
    the id of a row that exists. *)
Theorem ids_stay_distinct (os : list operation) (w : world) :
  ids_wf (store w) -> ids_wf (store (steps os w)).
Proof.
  revert w. induction os as [|o os IH]; intros w Hinv; [done|].
  simpl. apply IH. by apply step_ids_wf.
Qed.

Lemma ids_stay_distinct_witness :
  let b := {| name := Some (lit "Bella"); file_id := Some (lit "BAACAgIAAx");
              media_type := Some video; preview_message_id := None;
              votes_count := None |} in
  let w := in_state 7 PREVIEW_SUBMISSION b (sample_world []) in
  ids_wf (store (steps [Handle_preview_buttons (press 7 "send_proposal");
                        Handle_suggestion_decision no_faults
                          {| c_from := ADMIN_ID; c_chat := ADMIN_ID; c_data := accept_data 6 |};
                        Handle_participant_deletion
                          {| c_from := ADMIN_ID; c_chat := ADMIN_ID; c_data := delete_data 1 |}]
                   w)).
Proof.
  intros b w. apply ids_stay_distinct.
  unfold ids_wf, keyed. simpl.
  repeat split; try (apply (bool_decide_unpack _); vm_compute; exact I).
  - intros r [<-|[]]. simpl. lia.
  - intros r [<-|[<-|[]]]; simpl; lia.
  - intros r [<-|[]]. simpl. lia.
Defined.

(** ** Decisions are final *)

Lemma find_by_id_unique l s :
  NoDup (map s_id l) -> In s l -> find (by_id (s_id s)) l = Some s.
Proof.
  induction l as [|a l IH]; [done|]. simpl. intros Hnd Hin.
  apply NoDup_cons in Hnd as [Ha Hnd]. unfold by_id at 1.
  destruct (s_id a =? s_id s) eqn:E.
  - destruct Hin as [->|Hin]; [done|]. apply Z.eqb_eq in E.
    destruct Ha. rewrite E. apply list_elem_of_fmap. exists s.
    split; [done|]. by apply list_elem_of_In.
  - destruct Hin as [->|Hin]; [by rewrite Z.eqb_refl in E|]. auto.
Qed.

(** What one operation does to the table of suggestions. *)
Lemma step_suggestions o w :
  let l := suggestions (store w) in
  let l' := suggestions (store (fst (step o w))) in
  l' = l
  \/ (exists s, l' = l ++ [s])
  \/ (exists suggestion_id st s0,
         l' = update_where (by_id suggestion_id) (set_status st) l
         /\ find (by_id suggestion_id) l = Some s0 /\ s_status s0 = pending).
Proof.
  intros l l'. subst l l'.
  destruct o; cbn [step fst].
  - by left.
  - left. by rewrite handle_name_store.
  - left. by rewrite start_command_store.
  - unfold handle_preview_buttons, cancel_proposal_callback. branches; try by left.
    unfold insert_suggestion in *. simpl in *. simplify_eq. simpl.
    right. left. by eexists.
  - unfold handle_suggestion_decision. branches; try by left.
    + unfold accept_suggestion, guard in *. destruct f as [[] [] []]; simpl in *;
        simplify_eq; simpl; right; right;
        eexists _, accepted, _; (split; [reflexivity|]); (split; [eassumption|]);
        by destruct (s_status s).
    + unfold reject_suggestion, guard in *. destruct f as [[] [] []]; simpl in *;
        simplify_eq; simpl; right; right;
        eexists _, rejected, _; (split; [reflexivity|]); (split; [eassumption|]);
        by destruct (s_status s).
  - left. by rewrite start_voting_store.
  - left. by rewrite handle_vote_store.
  - left. unfold check_tournament_completion, check_tournament_completion_db.
    simpl. branches; by simplify_eq.
  - left. unfold handle_participant_deletion. branches.
    unfold bind in *. branches; by simplify_eq.
  - left. unfold handle_tournament_settings. branches.
    + unfold start_new_tournament, start_new_tournament_db. simpl. branches; by simplify_eq.
    + unfold stop_tournament, stop_tournament_db. simpl. branches; by simplify_eq.
  - left. by rewrite handle_user_state_store.
Qed.

Lemma step_decided_final o w s :
  ids_wf (store w) -> In s (suggestions (store w)) ->
  (s_status s <> pending -> In s (suggestions (store (fst (step o w)))))
  /\ exists s', In s' (suggestions (store (fst (step o w))))
       /\ s_id s' = s_id s /\ s_name s' = s_name s /\ s_file_id s' = s_file_id s
       /\ s_media_type s' = s_media_type s /\ suggested_by s' = suggested_by s
       /\ (s_status s <> pending -> s' = s).
Proof.
  intros ((Hnd & _) & _) Hin.
  destruct (step_suggestions o w) as [-> | [[x ->] | (sid & st & s0 & -> & Hfind & Hpend)]].
  - split; [done|]. exists s. repeat split; done.
  - split; [intros _; apply in_or_app; by left|].
    exists s. split; [apply in_or_app; by left|]. repeat split; done.
  - assert (Hkeep : s_status s <> pending ->
                    In s (update_where (by_id sid) (set_status st) (suggestions (store w)))).
    { intros Hs. unfold update_where. apply in_map_iff. exists s. split; [|done].
      destruct (by_id sid s) eqn:E; [|done].
      unfold by_id in E. apply Z.eqb_eq in E. subst sid.
      rewrite (find_by_id_unique _ s Hnd Hin) in Hfind. by simplify_eq. }
    split; [exact Hkeep|].
    exists (if by_id sid s then set_status st s else s). split.
    { unfold update_where. apply in_map_iff. by exists s. }
    destruct (by_id sid s) eqn:E; simpl; repeat split; try done.
    intros Hs. unfold by_id in E. apply Z.eqb_eq in E. subst sid.
    rewrite (find_by_id_unique _ s Hnd Hin) in Hfind. by simplify_eq.
Qed.

(** X7.  In a store with distinct ids no run of operations removes a
    suggestion or changes its name, media or submitter, and a suggestion
    that has been accepted or rejected keeps its row unchanged: a
    decision is never revised. *)
Theorem decided_suggestions_are_final (os : list operation) (w : world) (s : suggestion) :
  ids_wf (store w) -> In s (suggestions (store w)) ->
  exists s', In s' (suggestions (store (steps os w)))
    /\ s_id s' = s_id s /\ s_name s' = s_name s /\ s_file_id s' = s_file_id s
    /\ s_media_type s' = s_media_type s /\ suggested_by s' = suggested_by s
    /\ (s_status s <> pending -> s' = s).
Proof.
  revert w s. induction os as [|o os IH]; intros w s Hwf Hin.
  { exists s. repeat split; done. }
  destruct (step_decided_final o w s Hwf Hin)
    as (_ & s1 & Hin1 & Hid & Hn & Hf & Hm & Hb & Hfin).
  destruct (IH (fst (step o w)) s1 (step_ids_wf o w Hwf) Hin1)
    as (s2 & Hin2 & Hid2 & Hn2 & Hf2 & Hm2 & Hb2 & Hfin2).
  exists s2. split; [exact Hin2|].
  repeat split; try congruence.
  intros Hs. rewrite <- (Hfin Hs). apply Hfin2. by rewrite (Hfin Hs).
Qed.

(** Suggestion 5 is rejected; pressing accept afterwards, twice, leaves
    the rejected row as it is. *)
Lemma decided_suggestions_are_final_witness :
  let admin d := {| c_from := ADMIN_ID; c_chat := ADMIN_ID; c_data := d |} in
  let w := fst (handle_suggestion_decision no_faults (admin (reject_data 5)) (sample_world [])) in
  In (set_status rejected sample_suggestion) (suggestions (store w))
  /\ In (set_status rejected sample_suggestion)
       (suggestions (store (steps [Handle_suggestion_decision no_faults (admin (accept_data 5));
                                   Handle_suggestion_decision no_faults (admin (accept_data 5))]
                              w))).
Proof.
  intros admin w.
  assert (Hin : In (set_status rejected sample_suggestion) (suggestions (store w)))
    by (left; reflexivity).
  split; [exact Hin|].
  destruct (decided_suggestions_are_final
              [Handle_suggestion_decision no_faults (admin (accept_data 5));
               Handle_suggestion_decision no_faults (admin (accept_data 5))]
              w (set_status rejected sample_suggestion))
    as (s' & Hin' & _ & _ & _ & _ & _ & Hfin); [|exact Hin|].
  - unfold ids_wf, keyed. simpl.
    repeat split; try (apply (bool_decide_unpack _); vm_compute; exact I).
    + intros r [<-|[]]. simpl. lia.
    + intros r [<-|[<-|[]]]; simpl; lia.
    + intros r [<-|[]]. simpl. lia.
  - rewrite <- (Hfin ltac:(discriminate)). exact Hin'.
Defined.

(** ** Stopping and restarting a tournament *)

Lemma filter_at_most_one {A} (P : A -> Prop) `{!forall x, Decision (P x)} (l : list A) x y :
  (length (filter P l) <= 1)%nat -> In x l -> In y l -> P x -> P y -> x = y.
Proof.
  intros Hlen Hx Hy Px Py.
  assert (Hx' : x ∈ filter P l) by (apply list_elem_of_filter; split; [done|by apply list_elem_of_In]).
  assert (Hy' : y ∈ filter P l) by (apply list_elem_of_filter; split; [done|by apply list_elem_of_In]).
  destruct (filter P l) as [|a [|b k]]; simpl in Hlen.
  - by apply elem_of_nil in Hx'.
  - apply list_elem_of_singleton in Hx', Hy'. congruence.
  - lia.
Qed.

(** [stop_tournament], case by case. *)
Lemma stop_tournament_cases m w :
  let d := store w in
  stop_tournament m w =
  match find active (tournament_settings d) with
  | None => (w, [reply_to no_tournament_to_stop])
  | Some t =>
      (set_store
         (with_tournaments
            (update_where (fun r => t_id r =? t_id t) (set_active 0) (tournament_settings d))
            (seq_tournament_settings d) d) w,
       [reply_to (tournament_stopped (Z.of_nat (length (approved_rows d)))
                    (Z.of_nat (length (user_votes d))) (required_votes t));
        send_message (m_chat m) back_to_admin_panel])
  end.
Proof.
  intros d. unfold stop_tournament, stop_tournament_db. simpl. fold d.
  destruct (find active (tournament_settings d)); [done|]. by destruct w.
Qed.

(** X8.  [stop_tournament] with no tournament running changes nothing
    and answers "Нет активного турнира".  With one running it reports
    the number of approved contestants, the number of vote rows and the
    threshold of the stopped tournament, leaves contestants, votes and
    suggestions as they are, and, in a store with at most one active
    row, leaves no row active. *)
Theorem stop_tournament_stops (m : message) (w : world) :
  let d := store w in
  let r := stop_tournament m w in
  ((forall t, In t (tournament_settings d) -> is_active t <> 1) ->
     r = (w, [reply_to no_tournament_to_stop]))
  /\ (forall t, In t (tournament_settings d) -> is_active t = 1 ->
        at_most_one_active d ->
        snd r = [reply_to (tournament_stopped (Z.of_nat (length (approved_rows d)))
                             (Z.of_nat (length (user_votes d))) (required_votes t));
                 send_message (m_chat m) back_to_admin_panel]
        /\ photos (store (fst r)) = photos d
        /\ user_votes (store (fst r)) = user_votes d
        /\ suggestions (store (fst r)) = suggestions d
        /\ length (tournament_settings (store (fst r))) = length (tournament_settings d)
        /\ active_rows (store (fst r)) = []).
Proof.
  intros d r. subst r. rewrite stop_tournament_cases. fold d. split.
  - intros Hnone.
    assert (find active (tournament_settings d) = None) as ->; [|done].
    apply find_none_iff. intros t Ht. unfold active. apply Z.eqb_neq. auto.
  - intros t Hin Hact Hone.
    assert (Ht : active t = true) by (unfold active; by rewrite Hact).
    destruct (find active (tournament_settings d)) as [t0|] eqn:Hfind.
    2:{ rewrite (proj1 (find_none_iff _ _) Hfind t Hin) in Ht. done. }
    apply find_some in Hfind as [Hin0 Hact0].
    assert (t0 = t) as ->.
    { apply (filter_at_most_one (fun t => active t = true) (tournament_settings d)); auto. }
    simpl. split; [done|]. split; [done|]. split; [done|]. split; [done|].
    split.
    { unfold update_where. by rewrite length_map. }
    unfold active_rows. simpl. apply filter_all_false.
    intros t' Hin' Hact'. apply list_elem_of_In, In_update_where in Hin' as (x & Hx & ->).
    destruct (t_id x =? t_id t) eqn:E; [done|].
    assert (x = t) as ->.
    { apply (filter_at_most_one (fun t => active t = true) (tournament_settings d)); auto. }
    by rewrite Z.eqb_refl in E.
Qed.

Lemma stop_tournament_stops_witness :
  let w := sample_world [vote_of 7 1; vote_of 8 1] in
  snd (stop_tournament (says ADMIN_ID []) w) =
    [reply_to (tournament_stopped 2 2 3); send_message ADMIN_ID back_to_admin_panel]
  /\ active_rows (store (fst (stop_tournament (says ADMIN_ID []) w))) = [].
Proof.
  intros w.
  destruct (stop_tournament_stops (says ADMIN_ID []) w) as [_ H].
  assert (Hone : at_most_one_active (store w)) by (vm_compute; lia).
  destruct (H (sample_tournament 3) (or_introl eq_refl) eq_refl Hone)
    as (Hout & _ & _ & _ & _ & Hoff).
  exact (conj Hout Hoff).
Defined.

(** X9.  Stopping a running tournament and starting a new one, with at
    least two approved contestants: the new row is the only active one,
    and contestants, their vote counts and the vote rows are exactly
    those of the stopped tournament; nothing resets them. *)
Theorem restart_keeps_votes (now : Z) (m : message) (w : world) (t : tournament) :
  at_most_one_active (store w) ->
  In t (tournament_settings (store w)) -> is_active t = 1 ->
  (2 <= length (approved_rows (store w)))%nat ->
  let w1 := fst (stop_tournament m w) in
  let w2 := fst (start_new_tournament now m w1) in
  active_rows (store w2) = [new_tournament (seq_tournament_settings (store w) + 1) now]
  /\ photos (store w2) = photos (store w)
  /\ user_votes (store w2) = user_votes (store w).
Proof.
  intros Hone Hin Hact Happ w1 w2.
  destruct (stop_tournament_stops m w) as [_ Hstop].
  destruct (Hstop t Hin Hact Hone) as (_ & Hp & Hv & _ & _ & Hoff). fold w1 in Hp, Hv, Hoff.
  assert (Hseq : seq_tournament_settings (store w1) = seq_tournament_settings (store w)).
  { subst w1. rewrite stop_tournament_cases. by destruct (find _ _). }
  assert (Hnone : find active (tournament_settings (store w1)) = None).
  { apply find_none_iff. intros t' Ht'. destruct (active t') eqn:E; [|done].
    assert (t' ∈ active_rows (store w1)); [|rewrite Hoff in *; by apply elem_of_nil in H].
    apply list_elem_of_filter. split; [done|by apply list_elem_of_In]. }
  subst w2. rewrite start_new_tournament_cases. rewrite Hnone.
  assert (approved_rows (store w1) = approved_rows (store w)) as ->
    by (unfold approved_rows; by rewrite Hp).
  rewrite (proj2 (Nat.ltb_ge _ _) Happ). simpl.
  split; [|by rewrite Hp, Hv].
  unfold active_rows. simpl. rewrite filter_app, (no_active_rows _ Hnone), Hseq. done.
Qed.

Lemma restart_keeps_votes_witness :
  let w := sample_world [vote_of 7 1] in
  let w1 := fst (stop_tournament (says ADMIN_ID []) w) in
  let w2 := fst (start_new_tournament 1700000500 (says ADMIN_ID []) w1) in
  active_rows (store w2) = [new_tournament 2 1700000500]
  /\ photos (store w2) = [sample_photo 1 1; sample_photo 2 3]
  /\ user_votes (store w2) = [vote_of 7 1].
Proof.
  intros w w1 w2.
  assert (Hone : at_most_one_active (store w)) by (vm_compute; lia).
  assert (Happ : (2 <= length (approved_rows (store w)))%nat) by (vm_compute; lia).
  exact (restart_keeps_votes 1700000500 (says ADMIN_ID []) w (sample_tournament 3)
           Hone (or_introl eq_refl) eq_refl Happ).
Defined.

(** ** The migration of [init_db] *)

(** X10.  The data migration at the end of [init_db] turns the threshold
    100 of active tournaments into 15 and touches nothing else: afterwards
    no active row has threshold 100, the rows keep their number, ids,
    flags, durations and start times, every row that is inactive or has
    another threshold is unchanged, and running it again changes
    nothing. *)
Theorem init_db_migrates_threshold (d : db) :
  let d' := init_db d in
  (forall t, In t (tournament_settings d') -> is_active t = 1 -> required_votes t <> 100)
  /\ map t_id (tournament_settings d') = map t_id (tournament_settings d)
  /\ map is_active (tournament_settings d') = map is_active (tournament_settings d)
  /\ (forall t, In t (tournament_settings d) ->
        is_active t <> 1 \/ required_votes t <> 100 -> In t (tournament_settings d'))
  /\ (forall t, In t (tournament_settings d) -> is_active t = 1 -> required_votes t = 100 ->
        In (set_required 15 t) (tournament_settings d'))
  /\ photos d' = photos d /\ user_votes d' = user_votes d /\ suggestions d' = suggestions d
  /\ init_db d' = d'.
Proof.
  intros d'. subst d'. unfold init_db. simpl.
  set (hit := fun t => active t && (required_votes t =? 100)).
  assert (Hhit : forall t, hit t = true <-> is_active t = 1 /\ required_votes t = 100).
  { intros t. unfold hit, active. rewrite andb_true_iff, !Z.eqb_eq. tauto. }
  split.
  { intros t Hin Hact Hreq. apply In_update_where in Hin as (x & _ & ->).
    destruct (hit x) eqn:E; [done|].
    assert (hit x = true) by (apply Hhit; done). congruence. }
  split.
  { unfold update_where. rewrite map_map. apply map_ext. intros t. by destruct (hit t). }
  split.
  { unfold update_where. rewrite map_map. apply map_ext. intros t. by destruct (hit t). }
  split.
  { intros t Hin Hno. unfold update_where. apply in_map_iff. exists t. split; [|done].
    destruct (hit t) eqn:E; [|done]. apply Hhit in E. lia. }
  split.
  { intros t Hin Hact Hreq. unfold update_where. apply in_map_iff. exists t.
    split; [|done]. by rewrite (proj2 (Hhit t) (conj Hact Hreq)). }
  split; [done|]. split; [done|]. split; [done|].
  assert (Hidem : update_where hit (set_required 15)
                    (update_where hit (set_required 15) (tournament_settings d))
                  = update_where hit (set_required 15) (tournament_settings d)).
  { unfold update_where. rewrite map_map. apply map_ext. intros t.
    destruct (hit t) eqn:E; [|by rewrite E].
    assert (hit (set_required 15 t) = false) as ->; [|done].
    unfold hit. simpl. apply andb_false_r. }
  unfold with_tournaments. simpl. by rewrite Hidem.
Qed.

Lemma init_db_migrates_threshold_witness :
  let d := with_tournaments [set_required 100 (sample_tournament 3);
                             set_active 0 (set_required 100 (sample_tournament 3))]
             2 (sample_db []) in
  tournament_settings (init_db d) =
    [set_required 15 (sample_tournament 3);
     set_active 0 (set_required 100 (sample_tournament 3))]
  /\ init_db (init_db d) = init_db d.
Proof.
  intros d. split; [reflexivity|].
  destruct (init_db_migrates_threshold d) as (_ & _ & _ & _ & _ & _ & _ & _ & H).
  exact H.
Defined.

(** ** Sending a proposal *)

(** The suggestion [handle_preview_buttons] stores for a complete bag. *)
Lemma send_proposal_run c w b n f mt :
  c_data c = lit "send_proposal" ->
  user_data w !! c_from c = Some b ->
  name b = Some n -> file_id b = Some f -> media_type b = Some mt ->
  let i := seq_suggestions (store w) + 1 in
  let s := {| s_id := i; s_name := n; s_file_id := f; s_media_type := mt;
              suggested_by := c_from c; s_status := pending |} in
  handle_preview_buttons c w =
  (pop_user_data (c_from c)
     (set_user_state (c_from c) START
        (set_store (with_suggestions (suggestions (store w) ++ [s]) i (store w))
           (allow (c_from c) (fst (check_subscription (c_from c) w))))),
   [send_media ADMIN_ID mt f (new_suggestion n (c_from c) i);
    delete_message;
    send_message (c_chat c) proposal_sent;
    answer_callback_query proposal_sent_toast]).
Proof.
  intros Hdata Hbag Hn Hf Hmt i s. unfold handle_preview_buttons.
  change (user_data (allow (c_from c) (fst (check_subscription (c_from c) w))))
    with (user_data w).
  rewrite Hbag, Hdata. unfold pystr_eqb.
  rewrite (bool_decide_false (lit "send_proposal" = lit "edit_name")) by discriminate.
  rewrite (bool_decide_false (lit "send_proposal" = lit "edit_media")) by discriminate.
  rewrite (bool_decide_true (lit "send_proposal" = lit "send_proposal")) by done.
  assert (bag_nonempty b = true) as ->.
  { unfold bag_nonempty. rewrite Hn. done. }
  rewrite Hn, Hf, Hmt. reflexivity.
Qed.

(** X11.  Pressing "send" with a bag that holds name, file and media
    kind stores exactly one new suggestion with those values, the sender
    as submitter and status pending, under the next id; the
    administrator is sent the media with that id, the sender returns to
    [START] and the bag is deleted.  With one of the three missing the
    store, the sender's state and the bag are untouched. *)
Theorem send_proposal_persists (c : callback) (w : world) (b : bag) :
  c_data c = lit "send_proposal" ->
  user_data w !! c_from c = Some b ->
  let r := handle_preview_buttons c w in
  let i := seq_suggestions (store w) + 1 in
  (forall n f mt, name b = Some n -> file_id b = Some f -> media_type b = Some mt ->
     suggestions (store (fst r)) =
       suggestions (store w) ++
         [{| s_id := i; s_name := n; s_file_id := f; s_media_type := mt;
             suggested_by := c_from c; s_status := pending |}]
     /\ photos (store (fst r)) = photos (store w)
     /\ get_user_state (c_from c) (fst r) = START
     /\ user_data (fst r) !! c_from c = None
     /\ In (send_media ADMIN_ID mt f (new_suggestion n (c_from c) i)) (snd r))
  /\ (name b = None \/ file_id b = None \/ media_type b = None ->
      store (fst r) = store w
      /\ user_states (fst r) = user_states w
      /\ user_data (fst r) = user_data w
      /\ (snd r = [answer_callback_query stale_data]
          \/ snd r = [answer_callback_query incomplete_data])).
Proof.
  intros Hdata Hbag r i. subst r. split.
  - intros n f mt Hn Hf Hmt.
    rewrite (send_proposal_run c w b n f mt Hdata Hbag Hn Hf Hmt). simpl.
    split; [done|]. split; [done|]. split.
    { unfold get_user_state. simpl. by rewrite lookup_insert_eq. }
    split; [by rewrite lookup_delete_eq|by left].
  - intros Hmiss. unfold handle_preview_buttons.
    change (user_data (allow (c_from c) (fst (check_subscription (c_from c) w))))
      with (user_data w).
    rewrite Hbag, Hdata. unfold pystr_eqb.
    rewrite (bool_decide_false (lit "send_proposal" = lit "edit_name")) by discriminate.
    rewrite (bool_decide_false (lit "send_proposal" = lit "edit_media")) by discriminate.
    rewrite (bool_decide_true (lit "send_proposal" = lit "send_proposal")) by done.
    destruct (bag_nonempty b); simpl; [|auto].
    destruct (name b), (file_id b), (media_type b); simpl; auto;
      destruct Hmiss as [H|[H|H]]; discriminate.
Qed.

Lemma send_proposal_persists_witness :
  let b := {| name := Some (lit "Bella"); file_id := Some (lit "BAACAgIAAx");
              media_type := Some video; preview_message_id := Some 41;
              votes_count := None |} in
  let w := in_state 7 PREVIEW_SUBMISSION b (sample_world []) in
  let r := handle_preview_buttons (press 7 "send_proposal") w in
  suggestions (store (fst r)) =
    [sample_suggestion;
     {| s_id := 6; s_name := lit "Bella"; s_file_id := lit "BAACAgIAAx";
        s_media_type := video; suggested_by := 7; s_status := pending |}]
  /\ get_user_state 7 (fst r) = START.
Proof.
  intros b w r.
  destruct (send_proposal_persists (press 7 "send_proposal") w b eq_refl eq_refl) as [H _].
  destruct (H (lit "Bella") (lit "BAACAgIAAx") video eq_refl eq_refl eq_refl)
    as (Hs & _ & Hst & _).
  exact (conj Hs Hst).
Defined.

Lemma find_app_new l s :
  (forall r, In r l -> s_id r <> s_id s) -> find (by_id (s_id s)) (l ++ [s]) = Some s.
Proof.
  intros Hnew. induction l as [|a l IH]; simpl.
  - unfold by_id. by rewrite Z.eqb_refl.
  - unfold by_id at 1. rewrite (proj2 (Z.eqb_neq _ _)) by (apply Hnew; by left).
    apply IH. intros r Hr. apply Hnew. by right.
Qed.

(** Sending a complete proposal and accepting it with the button made
    for it. *)
Lemma send_then_accept
    (c admin : callback) (w : world) (b : bag) (n f : pystr) (mt : media) :
  ids_wf (store w) ->
  c_data c = lit "send_proposal" ->
  user_data w !! c_from c = Some b ->
  name b = Some n -> file_id b = Some f -> media_type b = Some mt ->
  c_from admin = ADMIN_ID ->
  c_data admin = accept_data (seq_suggestions (store w) + 1) ->
  let w1 := fst (handle_preview_buttons c w) in
  let w2 := fst (handle_suggestion_decision no_faults admin w1) in
  photos (store w2) =
    photos (store w) ++
      [{| p_id := seq_photos (store w) + 1; p_name := n; p_file_id := f;
          approved := 1; p_media_type := mt; votes := 0 |}]
  /\ suggestions (store w2) =
       suggestions (store w) ++
         [{| s_id := seq_suggestions (store w) + 1; s_name := n; s_file_id := f;
             s_media_type := mt; suggested_by := c_from c; s_status := accepted |}].
Proof.
  intros ((Hnd & Hle) & _) Hdata Hbag Hn Hf Hmt Hadmin Hpress w1 w2.
  set (i := seq_suggestions (store w) + 1) in *.
  set (s := {| s_id := i; s_name := n; s_file_id := f; s_media_type := mt;
               suggested_by := c_from c; s_status := pending |}).
  assert (Hw1 : store w1 = with_suggestions (suggestions (store w) ++ [s]) i (store w)).
  { subst w1. by rewrite (send_proposal_run c w b n f mt Hdata Hbag Hn Hf Hmt). }
  assert (Hfresh : forall r, In r (suggestions (store w)) -> s_id r <> s_id s).
  { intros r Hr. specialize (Hle r Hr). simpl. lia. }
  assert (Hfind : find (by_id i) (suggestions (store w1)) = Some s).
  { rewrite Hw1. simpl. apply (find_app_new _ s Hfresh). }
  assert (Hparse : parse_decision (py_split 95 (c_data admin)) = Ok (lit "accept", i)).
  { rewrite Hpress. apply parse_accept_data. }
  subst w2.
  rewrite (handle_suggestion_decision_pending no_faults admin w1 _ _ s Hadmin Hparse Hfind eq_refl).
  change (pystr_eqb (lit "accept") (lit "accept")) with true. cbn iota.
  rewrite accept_suggestion_ok. simpl. rewrite Hw1. simpl. split; [done|].
  unfold update_where. rewrite map_app. simpl.
  unfold by_id at 2. simpl. rewrite Z.eqb_refl. f_equal.
  rewrite <- (map_id (suggestions (store w))) at 2. apply map_ext_in.
  intros r Hr. unfold by_id. rewrite (proj2 (Z.eqb_neq _ _)); [done|].
  apply (Hfresh r Hr).
Qed.

(** X12.  From submission to contest: after a user has sent a proposal
    with name, file and media kind, the accept button the administrator
    receives for it, pressed once, adds a contestant with exactly that
    name, file and media kind, approved and with zero votes, and marks
    the suggestion accepted; the suggestions that were there stay as
    they were. *)
Theorem proposal_accepted_becomes_contestant
    (c admin : callback) (w : world) (b : bag) (n f : pystr) (mt : media) :
  ids_wf (store w) ->
  c_data c = lit "send_proposal" ->
  user_data w !! c_from c = Some b ->
  name b = Some n -> file_id b = Some f -> media_type b = Some mt ->
  c_from admin = ADMIN_ID ->
  c_data admin = accept_data (seq_suggestions (store w) + 1) ->
  let w1 := fst (handle_preview_buttons c w) in
  let w2 := fst (handle_suggestion_decision no_faults admin w1) in
  photos (store w2) =
    photos (store w) ++
      [{| p_id := seq_photos (store w) + 1; p_name := n; p_file_id := f;
          approved := 1; p_media_type := mt; votes := 0 |}]
  /\ suggestions (store w2) =
       suggestions (store w) ++
         [{| s_id := seq_suggestions (store w) + 1; s_name := n; s_file_id := f;
             s_media_type := mt; suggested_by := c_from c; s_status := accepted |}].
Proof. exact (send_then_accept c admin w b n f mt). Qed.

Lemma sample_ids_wf ballots : ids_wf (sample_db ballots).
Proof.
  unfold ids_wf, keyed. simpl.
  repeat split; try (apply (bool_decide_unpack _); vm_compute; exact I).
  - intros r [<-|[]]. simpl. lia.
  - intros r [<-|[<-|[]]]; simpl; lia.
  - intros r [<-|[]]. simpl. lia.
Qed.

Lemma proposal_accepted_becomes_contestant_witness :
  let b := {| name := Some (lit "Bella"); file_id := Some (lit "BAACAgIAAx");
              media_type := Some video; preview_message_id := Some 41;
              votes_count := None |} in
  let w := in_state 7 PREVIEW_SUBMISSION b (sample_world []) in
  let admin := {| c_from := ADMIN_ID; c_chat := ADMIN_ID; c_data := accept_data 6 |} in
  let w1 := fst (handle_preview_buttons (press 7 "send_proposal") w) in
  let w2 := fst (handle_suggestion_decision no_faults admin w1) in
  photos (store w2) =
    [sample_photo 1 1; sample_photo 2 3;
     {| p_id := 3; p_name := lit "Bella"; p_file_id := lit "BAACAgIAAx";
        approved := 1; p_media_type := video; votes := 0 |}].
Proof.
  intros b w admin w1 w2.
  exact (proj1 (proposal_accepted_becomes_contestant (press 7 "send_proposal") admin w b
                  (lit "Bella") (lit "BAACAgIAAx") video
                  (sample_ids_wf []) eq_refl eq_refl eq_refl eq_refl eq_refl
                  eq_refl eq_refl)).
Defined.

(** ** Conversations do not interfere *)

Lemma lookup_allow_states user_id w : user_states (allow user_id w) = user_states w.
Proof. reflexivity. Qed.



(** ** The first numeric step *)

(** X14.  In [WAITING_VOTES_COUNT] the store is never touched.  A text
    that [int] does not read is answered "Пожалуйста, введите число." and
    an integer outside 1..1000 with the range notice, the world
    unchanged; an integer within 1..1000 is stored in the user's bag and
    moves the user to [WAITING_TOURNAMENT_TIME] when the user has a bag,
    and is answered with the general failure, the world unchanged, when
    the user has none.  The integer is the one [int] reads, whatever the
    script of its digits. *)
Theorem votes_count_step (m : message) (w : world) :
  get_user_state (m_from m) w = WAITING_VOTES_COUNT ->
  let r := handle_user_state m w in
  let parsed := py_int (py_strip (m_text m)) in
  store (fst r) = store w
  /\ (forall e, parsed = Raise e -> r = (w, [send_message (m_chat m) enter_a_number]))
  /\ (forall v, parsed = Ok v -> v < 1 \/ 1000 < v ->
        r = (w, [send_message (m_chat m) votes_out_of_range]))
  /\ (forall v b, parsed = Ok v -> 1 <= v <= 1000 -> user_data w !! m_from m = Some b ->
        get_user_state (m_from m) (fst r) = WAITING_TOURNAMENT_TIME
        /\ user_data (fst r) !! m_from m = Some (bag_set_votes_count v b)
        /\ snd r = [send_message (m_chat m) ask_hours])
  /\ (forall v, parsed = Ok v -> 1 <= v <= 1000 -> user_data w !! m_from m = None ->
        r = (w, [send_message (m_chat m) message_failed])).
Proof.
  intros Hst r parsed. subst r parsed. split; [apply handle_user_state_store|].
  unfold handle_user_state. rewrite Hst. unfold handle_votes_count.
  destruct (py_int (py_strip (m_text m))) as [v|e] eqn:Hint; simpl.
  - split; [done|].
    destruct ((v <? 1) || (1000 <? v)) eqn:Hr.
    + split; [by intros v' [= <-] _|]. apply orb_true_iff in Hr.
      split; intros; simplify_eq; destruct Hr as [Hr|Hr]; apply Z.ltb_lt in Hr; lia.
    + apply orb_false_iff in Hr as [H1 H2].
      apply Z.ltb_ge in H1. apply Z.ltb_ge in H2.
      split; [intros v' [= <-]; lia|].
      split.
      * intros v' b [= <-] _ Hb. rewrite Hb. simpl.
        split; [unfold get_user_state; simpl; by rewrite lookup_insert_eq|].
        split; [by rewrite lookup_insert_eq|done].
      * intros v' [= <-] _ Hb. by rewrite Hb.
  - rewrite (py_int_raises _ _ Hint). split; [done|]. split; [done|].
    split; [|done]. intros; done.
Qed.

(** The administrator types " ٤٨ ", forty-eight in Arabic-Indic digits. *)
Lemma votes_count_step_witness :
  let w := in_state ADMIN_ID WAITING_VOTES_COUNT empty_bag (sample_world []) in
  let r := handle_user_state (says ADMIN_ID [32; 1636; 1640; 32]) w in
  get_user_state ADMIN_ID (fst r) = WAITING_TOURNAMENT_TIME
  /\ user_data (fst r) !! ADMIN_ID = Some (bag_set_votes_count 48 empty_bag).
Proof.
  intros w r.
  destruct (votes_count_step (says ADMIN_ID [32; 1636; 1640; 32]) w eq_refl)
    as (_ & _ & _ & H & _).
  assert (Hr : 1 <= 48 <= 1000) by lia.
  destruct (H 48 empty_bag eq_refl Hr eq_refl) as (H1 & H2 & _).
  exact (conj H1 H2).
Defined.

(** ** Names as they are stored *)

Lemma py_lstrip_head s c r : py_lstrip s = c :: r -> py_isspace c = false.
Proof.
  induction s as [|a s IH]; [done|]. simpl.
  destruct (py_isspace a) eqn:E; [exact IH|]. by intros [= <- <-].
Qed.

Lemma py_lstrip_suffix s : exists pre, s = pre ++ py_lstrip s.
Proof.
  induction s as [|a s [pre IH]]; [by exists []|]. simpl.
  destruct (py_isspace a).
  - exists (a :: pre). simpl. by rewrite <- IH.
  - by exists [].
Qed.

Lemma py_lstrip_keep s c r : s = c :: r -> py_isspace c = false -> py_lstrip s = s.
Proof. intros -> H. simpl. by rewrite H. Qed.

Lemma py_strip_ends s :
  let n := py_strip s in
  (forall c r, n = c :: r -> py_isspace c = false)
  /\ (forall r c, n = r ++ [c] -> py_isspace c = false).
Proof.
  intros n. subst n. unfold py_strip, py_rstrip.
  set (t := py_lstrip s). split.
  - intros c r Heq.
    destruct (py_lstrip_suffix (rev t)) as [pre Hpre].
    assert (Ht : t = rev (py_lstrip (rev t)) ++ rev pre).
    { rewrite <- rev_app_distr, <- Hpre. by rewrite rev_involutive. }
    rewrite Heq in Ht. simpl in Ht. apply (py_lstrip_head s c _ Ht).
  - intros r c Heq.
    assert (Hrev : py_lstrip (rev t) = c :: rev r).
    { rewrite <- (rev_involutive (py_lstrip (rev t))), Heq, rev_app_distr. done. }
    apply (py_lstrip_head _ _ _ Hrev).
Qed.

(** Stripping what is stripped changes nothing. *)
Lemma py_strip_idempotent s : py_strip (py_strip s) = py_strip s.
Proof.
  destruct (py_strip_ends s) as [Hhead Hlast].
  set (n := py_strip s) in *. unfold py_strip at 1, py_rstrip.
  assert (Hl : py_lstrip n = n).
  { destruct n as [|c r] eqn:E; [done|]. apply (py_lstrip_keep _ c r eq_refl).
    by apply (Hhead c r). }
  rewrite Hl.
  assert (Hr : py_lstrip (rev n) = rev n).
  { destruct (rev n) as [|c r] eqn:E; [done|]. apply (py_lstrip_keep _ c r eq_refl).
    apply (Hlast (rev r) c). rewrite <- (rev_involutive n), E. done. }
  rewrite Hr. apply rev_involutive.
Qed.

Lemma handle_name_accepts m w b :
  get_user_state (m_from m) w = WAITING_NAME ->
  user_data w !! m_from m = Some b ->
  get_user_state (m_from m) (fst (handle_name m w)) = WAITING_MEDIA ->
  name_accepted (py_strip (m_text m)) = true
  /\ user_data (fst (handle_name m w)) !! m_from m =
       Some (bag_set_name (py_strip (m_text m)) b).
Proof.
  intros Hst Hbag. unfold handle_name, cancel_proposal.
  set (n := py_strip (m_text m)).
  change (user_data (allow (m_from m) (fst (check_subscription (m_from m) w))))
    with (user_data w).
  rewrite Hbag. unfold pystr_eqb. case_bool_decide as Hc.
  { unfold get_user_state. simpl. by rewrite lookup_insert_eq. }
  destruct ((len n <? 2) || (50 <? len n)) eqn:Hlen.
  { simpl. intros Hafter. change (get_user_state (m_from m) w = WAITING_MEDIA) in Hafter.
    congruence. }
  apply orb_false_iff in Hlen as [Hlo Hhi].
  apply Z.ltb_ge in Hlo. apply Z.ltb_ge in Hhi.
  rewrite (re_match_name_forallb _ Hlo).
  destruct (forallb name_char n) eqn:Hall; cbn [negb].
  - simpl. intros _. split; [|by rewrite lookup_insert_eq].
    unfold name_accepted. rewrite Hall.
    rewrite (proj2 (Z.leb_le _ _)) by lia. rewrite (proj2 (Z.leb_le _ _)) by lia. done.
  - simpl. intros Hafter. change (get_user_state (m_from m) w = WAITING_MEDIA) in Hafter.
    congruence.
Qed.

(** X15.  Every name [handle_name] stores has between 2 and 50
    characters, all from the permitted class, starts and ends with a
    character that is not whitespace, and is unchanged by stripping
    again. *)
Theorem stored_name_is_trimmed (m : message) (w : world) (b : bag) :
  get_user_state (m_from m) w = WAITING_NAME ->
  user_data w !! m_from m = Some b ->
  get_user_state (m_from m) (fst (handle_name m w)) = WAITING_MEDIA ->
  exists n,
    user_data (fst (handle_name m w)) !! m_from m = Some (bag_set_name n b)
    /\ 2 <= len n <= 50
    /\ (forall c, In c n -> name_char c = true)
    /\ (forall c r, n = c :: r -> py_isspace c = false)
    /\ (forall r c, n = r ++ [c] -> py_isspace c = false)
    /\ py_strip n = n.
Proof.
  intros Hst Hbag Hafter.
  destruct (handle_name_accepts m w b Hst Hbag Hafter) as [Hacc Hstored].
  exists (py_strip (m_text m)). split; [exact Hstored|].
  unfold name_accepted in Hacc.
  apply andb_true_iff in Hacc as [Hlen Hall]. apply andb_true_iff in Hlen as [Hlo Hhi].
  apply Z.leb_le in Hlo, Hhi. split; [lia|].
  split; [intros c Hc; by apply (proj1 (forallb_forall _ _) Hall)|].
  destruct (py_strip_ends (m_text m)) as [Hhead Hlast].
  split; [exact Hhead|]. split; [exact Hlast|]. apply py_strip_idempotent.
Qed.

Lemma stored_name_is_trimmed_witness :
  let w := in_state 7 WAITING_NAME empty_bag (sample_world []) in
  let m := says 7 (lit "  Anna Maria ") in
  exists n, user_data (fst (handle_name m w)) !! 7 = Some (bag_set_name n empty_bag)
            /\ 2 <= len n <= 50 /\ py_strip n = n.
Proof.
  intros w m.
  destruct (stored_name_is_trimmed m w empty_bag eq_refl eq_refl eq_refl)
    as (n & H1 & H2 & _ & _ & _ & H3).
  exists n. exact (conj H1 (conj H2 H3)).
Defined.

(** ** Starting a proposal and sending the media *)

(** X16.  [start_proposal] never touches the store.  For a user in
    [START] it opens the flow: the state becomes [WAITING_NAME] and the
    bag is replaced by an empty one, whatever it held.  For a user in any
    other state it changes neither states nor bags and answers that a
    proposal is already in progress; the access check after the
    subscription stub never refuses. *)
Theorem start_proposal_opens_flow (m : message) (w : world) :
  let r := start_proposal m w in
  store (fst r) = store w
  /\ (get_user_state (m_from m) w = START ->
        get_user_state (m_from m) (fst r) = WAITING_NAME
        /\ user_data (fst r) !! m_from m = Some empty_bag
        /\ snd r = [reply ask_name])
  /\ (get_user_state (m_from m) w <> START ->
        user_states (fst r) = user_states w
        /\ user_data (fst r) = user_data w
        /\ snd r = [reply proposal_in_progress]).
Proof.
  intros r. subst r. unfold start_proposal.
  change (fst (check_subscription (m_from m) w)) with (allow (m_from m) w).
  rewrite bool_decide_false by (intros H; apply H, allowed_after_allow).
  change (get_user_state (m_from m) (allow (m_from m) w))
    with (get_user_state (m_from m) w).
  case_bool_decide as Hst; simpl.
  - split; [done|]. split; [done|]. done.
  - split; [done|]. split; [|done]. intros _.
    split; [unfold get_user_state; simpl; by rewrite lookup_insert_eq|].
    split; [by rewrite lookup_insert_eq|done].
Qed.

Lemma start_proposal_opens_flow_witness :
  let stale := bag_set_votes_count 20 (bag_set_name (lit "Old") empty_bag) in
  let w := set_user_data 7 stale (sample_world []) in
  let r := start_proposal (says 7 (lit "/propose")) w in
  get_user_state 7 (fst r) = WAITING_NAME /\ user_data (fst r) !! 7 = Some empty_bag.
Proof.
  intros stale w r.
  destruct (start_proposal_opens_flow (says 7 (lit "/propose")) w) as (_ & H & _).
  destruct (H eq_refl) as (H1 & H2 & _). exact (conj H1 H2).
Defined.

Lemma media_of_photo file_ids f : media_of (photo_sizes (file_ids ++ [f])) = inl (f, photo).
Proof. unfold media_of. by rewrite last_snoc. Qed.

(** [handle_media] for a user whose bag holds a name. *)
Lemma handle_media_run g m w b n :
  user_data w !! mm_from m = Some b -> name b = Some n ->
  handle_media g m w =
  let w0 := allow (mm_from m) (fst (check_subscription (mm_from m) w)) in
  match media_of (mm_content m) with
  | inr t => (w0, [reply t])
  | inl (f, mt) =>
      let b1 := bag_set_media f mt b in
      let w1 := set_user_data (mm_from m) b1 w0 in
      let deleted := match preview_message_id b with
                     | Some i => [delete_preview i]
                     | None => []
                     end in
      match g with
      | sent i =>
          (set_user_state (mm_from m) PREVIEW_SUBMISSION
             (set_user_data (mm_from m) (bag_set_preview i b1) w1),
           deleted ++ [send_card (mm_chat m) mt f (preview n mt);
                       send (mm_chat m) check_data])
      | api_exception =>
          (w1, deleted ++ [reply (match mt with
                                  | photo => photo_send_failed
                                  | video => video_send_failed
                                  end)])
      | sent_nothing => (w1, deleted ++ [reply preview_failed])
      | other_exception => (w1, deleted ++ [reply preview_error])
      end
  end.
Proof.
  intros Hbag Hn. unfold handle_media.
  change (user_data (allow (mm_from m) (fst (check_subscription (mm_from m) w))))
    with (user_data w).
  rewrite Hbag. simpl.
  change (user_data (allow (mm_from m) (fst (check_subscription (mm_from m) w))))
    with (user_data w).
  rewrite Hbag. simpl. rewrite Hn.
  destruct (media_of (mm_content m)) as [[f mt]|t]; done.
Qed.



(** ** From the first command to the contest *)

Lemma start_proposal_run m w :
  get_user_state (m_from m) w = START ->
  start_proposal m w =
  (set_user_data (m_from m) empty_bag
     (set_user_state (m_from m) WAITING_NAME (allow (m_from m) w)),
   [reply ask_name]).
Proof.
  intros Hst. unfold start_proposal.
  change (fst (check_subscription (m_from m) w)) with (allow (m_from m) w).
  rewrite bool_decide_false by (intros H; apply H, allowed_after_allow).
  change (get_user_state (m_from m) (allow (m_from m) w))
    with (get_user_state (m_from m) w).
  by rewrite bool_decide_false by (intros H; by apply H).
Qed.

Lemma handle_name_run m w b :
  user_data w !! m_from m = Some b ->
  name_accepted (py_strip (m_text m)) = true ->
  handle_name m w =
  (set_user_state (m_from m) WAITING_MEDIA
     (set_user_data (m_from m) (bag_set_name (py_strip (m_text m)) b)
        (allow (m_from m) (fst (check_subscription (m_from m) w)))),
   [reply_to ask_media]).
Proof.
  intros Hbag Hacc. unfold handle_name. set (n := py_strip (m_text m)) in *.
  unfold name_accepted in Hacc.
  apply andb_true_iff in Hacc as [Hlen Hall]. apply andb_true_iff in Hlen as [Hlo Hhi].
  apply Z.leb_le in Hlo, Hhi.
  unfold pystr_eqb. rewrite bool_decide_false by (by apply accepted_not_cancel).
  rewrite (proj2 (Z.ltb_ge _ _)) by lia. rewrite (proj2 (Z.ltb_ge _ _)) by lia.
  rewrite (re_match_name_forallb _ Hlo), Hall. simpl.
  change (user_data (allow (m_from m) (fst (check_subscription (m_from m) w))))
    with (user_data w).
  by rewrite Hbag.
Qed.

Lemma handle_suggestion_decision_conversations f c w :
  user_states (fst (handle_suggestion_decision f c w)) = user_states w
  /\ user_data (fst (handle_suggestion_decision f c w)) = user_data w.
Proof. unfold handle_suggestion_decision. branches. Qed.

(** X18.  The whole path of a contestant.  A user in [START] sends
    /propose, then a text whose stripped form is an acceptable name,
    then a photo, sees the preview and presses "send"; the administrator
    presses the accept button made for the new suggestion.  The contest
    then has one more contestant: the stripped name, the file of the
    largest photo size, approved, zero votes; and the user is back in
    [START] with no bag. *)
Theorem submission_end_to_end
    (u chat : Z) (t : pystr) (sizes : list pystr) (f : pystr) (i : Z)
    (admin : callback) (w : world) :
  ids_wf (store w) ->
  get_user_state u w = START ->
  name_accepted (py_strip t) = true ->
  c_from admin = ADMIN_ID ->
  c_data admin = accept_data (seq_suggestions (store w) + 1) ->
  let w1 := fst (start_proposal {| m_from := u; m_chat := chat; m_text := lit "/propose" |} w) in
  let w2 := fst (handle_name {| m_from := u; m_chat := chat; m_text := t |} w1) in
  let w3 := fst (handle_media (sent i)
                   {| mm_from := u; mm_chat := chat;
                      mm_content := photo_sizes (sizes ++ [f]) |} w2) in
  let w4 := fst (handle_preview_buttons
                   {| c_from := u; c_chat := chat; c_data := lit "send_proposal" |} w3) in
  let w5 := fst (handle_suggestion_decision no_faults admin w4) in
  photos (store w5) =
    photos (store w) ++
      [{| p_id := seq_photos (store w) + 1; p_name := py_strip t; p_file_id := f;
          approved := 1; p_media_type := photo; votes := 0 |}]
  /\ get_user_state u w5 = START
  /\ user_data w5 !! u = None.
Proof.
  intros Hwf Hst Hacc Hadmin Hpress w1 w2 w3 w4 w5.
  set (b3 := bag_set_preview i (bag_set_media f photo (bag_set_name (py_strip t) empty_bag))).
  assert (H1 : store w1 = store w /\ user_data w1 !! u = Some empty_bag).
  { unfold w1.
    rewrite (start_proposal_run {| m_from := u; m_chat := chat; m_text := lit "/propose" |}
               w Hst).
    simpl. split; [done|by rewrite lookup_insert_eq]. }
  destruct H1 as [Hs1 Hb1].
  assert (H2 : store w2 = store w
               /\ user_data w2 !! u = Some (bag_set_name (py_strip t) empty_bag)).
  { unfold w2.
    rewrite (handle_name_run {| m_from := u; m_chat := chat; m_text := t |} w1 empty_bag
               Hb1 Hacc).
    simpl. split; [done|by rewrite lookup_insert_eq]. }
  destruct H2 as [Hs2 Hb2].
  assert (H3 : store w3 = store w /\ user_data w3 !! u = Some b3).
  { unfold w3.
    rewrite (handle_media_run (sent i)
               {| mm_from := u; mm_chat := chat; mm_content := photo_sizes (sizes ++ [f]) |}
               w2 (bag_set_name (py_strip t) empty_bag) (py_strip t) Hb2 eq_refl).
    cbn [mm_content]. rewrite media_of_photo. simpl.
    split; [done|by rewrite lookup_insert_eq]. }
  destruct H3 as [Hs3 Hb3].
  assert (Hwf3 : ids_wf (store w3)) by (by rewrite Hs3).
  assert (Hpress3 : c_data admin = accept_data (seq_suggestions (store w3) + 1))
    by (by rewrite Hs3).
  destruct (send_then_accept
              {| c_from := u; c_chat := chat; c_data := lit "send_proposal" |}
              admin w3 b3 (py_strip t) f photo Hwf3 eq_refl Hb3 eq_refl eq_refl eq_refl
              Hadmin Hpress3) as [Hphotos _].
  fold w4 in Hphotos. fold w5 in Hphotos. rewrite Hs3 in Hphotos.
  split; [exact Hphotos|].
  destruct (handle_suggestion_decision_conversations no_faults admin w4) as [Hst5 Hbag5].
  fold w5 in Hst5, Hbag5. unfold get_user_state. rewrite Hst5, Hbag5.
  unfold w4.
  rewrite (send_proposal_run
             {| c_from := u; c_chat := chat; c_data := lit "send_proposal" |}
             w3 b3 (py_strip t) f photo eq_refl Hb3 eq_refl eq_refl eq_refl).
  simpl. by rewrite lookup_insert_eq, lookup_delete_eq.
Qed.

(** User 7 proposes " Bella " with a photo; the administrator accepts. *)
Lemma submission_end_to_end_witness :
  let admin := {| c_from := ADMIN_ID; c_chat := ADMIN_ID; c_data := accept_data 6 |} in
  let w1 := fst (start_proposal (says 7 (lit "/propose")) (sample_world [])) in
  let w2 := fst (handle_name (says 7 (lit " Bella ")) w1) in
  let w3 := fst (handle_media (sent 41)
                   {| mm_from := 7; mm_chat := 7;
                      mm_content := photo_sizes ([lit "small"] ++ [lit "large"]) |} w2) in
  let w4 := fst (handle_preview_buttons (press 7 "send_proposal") w3) in
  let w5 := fst (handle_suggestion_decision no_faults admin w4) in
  photos (store w5) =
    [sample_photo 1 1; sample_photo 2 3;
     {| p_id := 3; p_name := lit "Bella"; p_file_id := lit "large";
        approved := 1; p_media_type := photo; votes := 0 |}]
  /\ get_user_state 7 w5 = START.
Proof.
  intros admin w1 w2 w3 w4 w5.
  destruct (submission_end_to_end 7 7 (lit " Bella ") [lit "small"] (lit "large") 41
              admin (sample_world []) (sample_ids_wf []) eq_refl eq_refl eq_refl eq_refl)
    as (H1 & H2 & _).
  exact (conj H1 H2).
Defined.

(** ** The ranking *)

Lemma insert_by_In {A} (key : A -> Z) x (l : list A) y :
  In y (insert_by key x l) <-> y = x \/ In y l.
Proof.
  rewrite <- !list_elem_of_In, insert_by_perm, elem_of_cons. done.
Qed.

Lemma insert_by_sorted {A} (key : A -> Z) x (s : list A) :
  StronglySorted (fun a b => key a <= key b) s ->
  StronglySorted (fun a b => key a <= key b) (insert_by key x s).
Proof.
  induction s as [|y s IH]; intros Hs; simpl.
  - constructor; [constructor|constructor].
  - apply StronglySorted_inv in Hs as [Hs Hy].
    destruct (key x <=? key y) eqn:E.
    + apply Z.leb_le in E. constructor; [by constructor|].
      constructor; [done|]. rewrite Forall_forall in Hy |- *.
      intros z Hz. specialize (Hy z Hz). simpl in *. lia.
    + apply Z.leb_gt in E. constructor; [by apply IH|].
      rewrite Forall_forall in Hy |- *. intros z Hz.
      apply list_elem_of_In, insert_by_In in Hz as [->|Hz]; [lia|].
      apply Hy. by apply list_elem_of_In.
Qed.

Lemma sort_by_sorted {A} (key : A -> Z) (l : list A) :
  StronglySorted (fun a b => key a <= key b) (sort_by key l).
Proof.
  induction l as [|x l IH]; [constructor|].
  rewrite sort_by_cons. by apply insert_by_sorted.
Qed.

(** [sort_by] sorts: every row precedes only rows with a key at least
    its own. *)
Lemma sort_by_ordered {A} (key : A -> Z) (l : list A) l1 l2 :
  sort_by key l = l1 ++ l2 ->
  forall a b, In a l1 -> In b l2 -> key a <= key b.
Proof.
  intros Heq. pose proof (sort_by_sorted key l) as Hs. rewrite Heq in Hs. clear Heq.
  induction l1 as [|c l1 IH]; intros a b Ha Hb; [done|].
  simpl in Hs. apply StronglySorted_inv in Hs as [Hs Hc].
  destruct Ha as [->|Ha]; [|by apply IH].
  rewrite Forall_forall in Hc. apply Hc, list_elem_of_In, in_or_app. by right.
Qed.

Lemma show_top_world m w : fst (show_top m w) = allow (m_from m) w.
Proof. unfold show_top. branches. Qed.

(** X19.  The ranking of [show_top] holds at most three contestants, all
    approved, in order of vote count from the highest down; it is the
    top of the approved contestants: the ones left out have no more
    votes than any of the ones shown, and fewer than three are shown
    only if there are no more.  Showing it leaves store, states and bags
    as they are. *)
Theorem show_top_ranks (m : message) (w : world) :
  let d := store w in
  let top := top_participants d in
  (length top = Nat.min 3 (length (approved_rows d)))
  /\ (forall p, In p top -> In p (photos d) /\ approved p = 1)
  /\ (forall i j p q, (i < j)%nat -> top !! i = Some p -> top !! j = Some q ->
        votes q <= votes p)
  /\ (exists others, top ++ others ≡ₚ approved_rows d
        /\ forall p q, In p top -> In q others -> votes q <= votes p)
  /\ store (fst (show_top m w)) = store w
  /\ user_states (fst (show_top m w)) = user_states w
  /\ user_data (fst (show_top m w)) = user_data w.
Proof.
  intros d top. subst top. unfold top_participants.
  set (sorted := order_by_votes_desc (approved_rows d)).
  assert (Hperm : sorted ≡ₚ approved_rows d) by apply sort_by_perm.
  assert (Hord : forall l1 l2, sorted = l1 ++ l2 ->
                   forall a b, In a l1 -> In b l2 -> votes b <= votes a).
  { intros l1 l2 Heq a b Ha Hb.
    pose proof (sort_by_ordered (fun p => - votes p) _ l1 l2 Heq a b Ha Hb). simpl in *. lia. }
  split; [rewrite length_take, <- (Permutation_length Hperm); lia|].
  split.
  { intros p Hp. apply list_elem_of_In, (subseteq_take 3) in Hp.
    rewrite Hperm in Hp. apply list_elem_of_filter in Hp as [Ha Hp].
    split; [by apply list_elem_of_In|]. by apply Z.eqb_eq. }
  split.
  { intros i j p q Hij Hi Hj.
    rewrite lookup_take_Some in Hi, Hj. destruct Hi as [Hi _], Hj as [Hj _].
    apply (Hord (take (S i) sorted) (drop (S i) sorted)).
    - by rewrite take_drop.
    - apply list_elem_of_In, list_elem_of_lookup. exists i.
      rewrite lookup_take_Some. split; [done|lia].
    - apply list_elem_of_In, list_elem_of_lookup. exists (j - S i)%nat.
      rewrite lookup_drop. by replace (S i + (j - S i))%nat with j by lia. }
  split.
  { exists (drop 3 sorted). split; [by rewrite take_drop|].
    intros p q Hp Hq. apply (Hord (take 3 sorted) (drop 3 sorted)); [|done|done].
    by rewrite take_drop. }
  by rewrite show_top_world.
Qed.

(** ** Free text *)

Lemma allow_idem user_id w : allow user_id (allow user_id w) = allow user_id w.
Proof.
  unfold allow at 1. simpl.
  by rewrite bool_decide_true by apply allowed_after_allow.
Qed.

Lemma start_proposal_store m w : store (fst (start_proposal m w)) = store w.
Proof. unfold start_proposal. branches. Qed.

(** X20.  [handle_text] never writes the store, whatever the text and
    whoever sends it.  A text that is none of the keyboard captions, sent
    by a user with no recorded state or no bag, changes neither states
    nor bags and is answered "Используйте кнопки для навигации по боту.";
    the state-dependent input handling is reached only when the user has
    both a recorded state and a bag. *)
Theorem handle_text_reads_only (rnd : nat -> Z) (m : message) (w : world) :
  let r := handle_text rnd m w in
  store (fst r) = store w
  /\ (~ In (m_text m) labels ->
      user_states w !! m_from m = None \/ user_data w !! m_from m = None ->
      r = (allow (m_from m) w, [gateway (send_message (m_chat m) use_buttons)]))
  /\ (~ In (m_text m) labels ->
      is_Some (user_states w !! m_from m) -> is_Some (user_data w !! m_from m) ->
      r = wrap (handle_user_state m (allow (m_from m) w))).
Proof.
  intros r. subst r. split.
  { unfold handle_text, wrap, admin_command, handle_report_bug.
    branches;
      rewrite ?start_voting_store, ?show_top_world, ?start_proposal_store,
        ?handle_user_state_store; done. }
  assert (Hother : ~ In (m_text m) labels ->
            handle_text rnd m w =
            if bool_decide (is_Some (user_states w !! m_from m))
               && bool_decide (is_Some (user_data w !! m_from m))
            then wrap (handle_user_state m (allow (m_from m) w))
            else (allow (m_from m) w, [gateway (send_message (m_chat m) use_buttons)])).
  { intros Hno. unfold handle_text, pystr_eqb, labels in *. simpl in Hno.
    rewrite !bool_decide_false by (intros Heq; apply Hno; rewrite Heq; tauto).
    change (fst (check_subscription (m_from m) w)) with (allow (m_from m) w).
    rewrite allow_idem. reflexivity. }
  split.
  - intros Hno Hmiss. rewrite (Hother Hno).
    destruct Hmiss as [Hm | Hm]; rewrite Hm.
    + by rewrite (bool_decide_false (is_Some None)) by (by intros [? ?]).
    + rewrite (bool_decide_false (is_Some None)) by (by intros [? ?]).
      by rewrite andb_false_r.
  - intros Hno Hs Hb. rewrite (Hother Hno).
    by rewrite !bool_decide_true.
Qed.

(** The administrator, who has no bag, presses "set votes" and types 20:
    the number is not read. *)
Lemma handle_text_reads_only_witness :
  let w := fst (handle_tournament_settings 1700000000 (press ADMIN_ID "set_votes")
                  (sample_world [])) in
  let r := handle_text (fun i => Z.of_nat i) (says ADMIN_ID (lit "20")) w in
  get_user_state ADMIN_ID w = WAITING_VOTES_COUNT
  /\ snd r = [gateway (send_message ADMIN_ID use_buttons)]
  /\ get_user_state ADMIN_ID (fst r) = WAITING_VOTES_COUNT.
Proof.
  intros w r. split; [reflexivity|].
  destruct (handle_text_reads_only (fun i => Z.of_nat i) (says ADMIN_ID (lit "20")) w)
    as (_ & H & _).
  assert (Hno : ~ In (m_text (says ADMIN_ID (lit "20"))) labels).
  { simpl. intros [H'|[H'|[H'|[H'|[H'|[H'|[]]]]]]]; discriminate. }
  subst r. rewrite (H Hno (or_intror eq_refl)). split; reflexivity.
Defined.

(** ** After a cancellation, after a submission *)

(** X21.  After [/cancel] the user is in [START] with no bag and the
    store is as it was; any button of an old preview pressed afterwards
    (edit name, edit media, send, cancel) is answered "данные устарели"
    and changes neither store nor states nor bags. *)
Theorem cancel_kills_preview (m : message) (c : callback) (w : world) :
  c_from c = m_from m ->
  let w1 := fst (cancel_command m w) in
  get_user_state (m_from m) w1 = START
  /\ user_data w1 !! m_from m = None
  /\ store w1 = store w
  /\ handle_preview_buttons c w1 = (allow (m_from m) w1, [answer_callback_query stale_data]).
Proof.
  intros Hc w1.
  assert (Hw1 : w1 = pop_user_data (m_from m) (set_user_state (m_from m) START w))
    by reflexivity.
  assert (Hbag : user_data w1 !! m_from m = None).
  { rewrite Hw1. simpl. by rewrite lookup_delete_eq. }
  split; [rewrite Hw1; unfold get_user_state; simpl; by rewrite lookup_insert_eq|].
  split; [exact Hbag|]. split; [by rewrite Hw1|].
  unfold handle_preview_buttons. rewrite Hc.
  change (fst (check_subscription (m_from m) w1)) with (allow (m_from m) w1).
  rewrite allow_idem.
  change (user_data (allow (m_from m) w1)) with (user_data w1).
  by rewrite Hbag.
Qed.

Lemma cancel_kills_preview_witness :
  let b := {| name := Some (lit "Alice"); file_id := Some (lit "AgACAgIAAx");
              media_type := Some photo; preview_message_id := Some 41;
              votes_count := None |} in
  let w := in_state 7 PREVIEW_SUBMISSION b (sample_world []) in
  let w1 := fst (cancel_command (says 7 (lit "/cancel")) w) in
  handle_preview_buttons (press 7 "send_proposal") w1 =
    (allow 7 w1, [answer_callback_query stale_data]).
Proof.
  intros b w w1.
  destruct (cancel_kills_preview (says 7 (lit "/cancel")) (press 7 "send_proposal") w eq_refl)
    as (_ & _ & _ & H).
  exact H.
Defined.

(** X22.  A second press of "send": once a complete proposal has been
    stored, pressing the same button again stores nothing more; the
    second press is answered "данные устарели" and the suggestions are
    those after the first press. *)
Theorem send_proposal_once (c : callback) (w : world) (b : bag) (n f : pystr) (mt : media) :
  c_data c = lit "send_proposal" ->
  user_data w !! c_from c = Some b ->
  name b = Some n -> file_id b = Some f -> media_type b = Some mt ->
  let w1 := fst (handle_preview_buttons c w) in
  let r := handle_preview_buttons c w1 in
  store (fst r) = store w1
  /\ length (suggestions (store (fst r))) = S (length (suggestions (store w)))
  /\ snd r = [answer_callback_query stale_data].
Proof.
  intros Hdata Hbag Hn Hf Hmt w1 r. subst r w1.
  rewrite (send_proposal_run c w b n f mt Hdata Hbag Hn Hf Hmt). cbn [fst].
  set (w1 := pop_user_data _ _).
  assert (Hgone : user_data w1 !! c_from c = None).
  { subst w1. simpl. by rewrite lookup_delete_eq. }
  assert (Hlen : length (suggestions (store w1)) = S (length (suggestions (store w)))).
  { subst w1. simpl. rewrite length_app. simpl. lia. }
  unfold handle_preview_buttons.
  change (user_data (allow (c_from c) (fst (check_subscription (c_from c) w1))))
    with (user_data w1).
  rewrite Hgone. simpl. done.
Qed.

Lemma send_proposal_once_witness :
  let b := {| name := Some (lit "Bella"); file_id := Some (lit "BAACAgIAAx");
              media_type := Some video; preview_message_id := Some 41;
              votes_count := None |} in
  let w := in_state 7 PREVIEW_SUBMISSION b (sample_world []) in
  let w1 := fst (handle_preview_buttons (press 7 "send_proposal") w) in
  length (suggestions (store (fst (handle_preview_buttons (press 7 "send_proposal") w1)))) = 2%nat.
Proof.
  intros b w w1.
  destruct (send_proposal_once (press 7 "send_proposal") w b (lit "Bella") (lit "BAACAgIAAx")
              video eq_refl eq_refl eq_refl eq_refl eq_refl) as (_ & H & _).
  exact H.
Defined.

(** * The tournament settings panel *)

Lemma Forall_update_where {A} (P : A -> Prop) (cond : A -> bool) (f : A -> A) (l : list A) :
  (forall x, P x -> P (f x)) -> Forall P l -> Forall P (update_where cond f l).
Proof.
  intros Hf Hl. unfold update_where. apply Forall_fmap.
  eapply Forall_impl; [exact Hl|]. intros x Hx. simpl. destruct (cond x); auto.
Qed.

Lemma start_new_tournament_flags now m w :
  flags_wf (store w) -> flags_wf (store (fst (start_new_tournament now m w))).
Proof.
  intros Hinv. rewrite start_new_tournament_cases.
  destruct (find active (tournament_settings (store w))); [done|].
  destruct (length (approved_rows (store w)) <? 2)%nat; [done|].
  unfold flags_wf. simpl. apply Forall_app. split; [done|].
  apply Forall_singleton. by right.
Qed.

Lemma stop_tournament_flags m w :
  flags_wf (store w) -> flags_wf (store (fst (stop_tournament m w))).
Proof.
  intros Hinv. rewrite stop_tournament_cases.
  destruct (find active (tournament_settings (store w))); [|done].
  unfold flags_wf. simpl. apply Forall_update_where; [|done]. intros x _. by left.
Qed.

Lemma check_tournament_completion_flags d :
  flags_wf d -> flags_wf (fst (check_tournament_completion d)).
Proof.
  intros Hinv. unfold check_tournament_completion, check_tournament_completion_db.
  simpl. branches; simplify_eq; unfold flags_wf; simpl;
    first [done | apply Forall_update_where; [|done]; intros x _; by left].
Qed.

(** No operation writes an [is_active] other than 0 or 1. *)
Lemma step_flags_wf o w : flags_wf (store w) -> flags_wf (store (fst (step o w))).
Proof.
  intros Hinv.
  assert (Hkeep : forall d', tournament_settings d' = tournament_settings (store w) ->
                             flags_wf d').
  { intros d' Heq. unfold flags_wf in *. by rewrite Heq. }
  destruct o; cbn [step fst].
  - change (store (set_store (init_db (store w)) w)) with (init_db (store w)).
    unfold init_db, flags_wf. simpl. by apply Forall_update_where.
  - by rewrite handle_name_store.
  - by rewrite start_command_store.
  - apply Hkeep, handle_preview_buttons_settings.
  - apply Hkeep, handle_suggestion_decision_settings.
  - by rewrite start_voting_store.
  - by rewrite handle_vote_store.
  - pose proof (check_tournament_completion_flags (store w) Hinv) as Hc.
    destruct (check_tournament_completion (store w)) as [d out]. exact Hc.
  - apply Hkeep, handle_participant_deletion_settings.
  - unfold handle_tournament_settings. branches.
    + by apply start_new_tournament_flags.
    + by apply stop_tournament_flags.
  - by rewrite handle_user_state_store.
Qed.

Lemma steps_flags_wf os w : flags_wf (store w) -> flags_wf (store (steps os w)).
Proof.
  revert w. induction os as [|o os IH]; intros w Hinv; [done|].
  simpl. apply IH. by apply step_flags_wf.
Qed.

Lemma order_by_id_desc_head l t : head (order_by_id_desc l) = Some t -> In t l.
Proof.
  unfold order_by_id_desc. intros Hhead.
  destruct (sort_by (fun t => - t_id t) l) as [|y rest] eqn:Hs; [done|].
  simpl in Hhead. simplify_eq.
  destruct (sort_by_head _ _ _ _ Hs) as (l1 & l2 & -> & _).
  apply in_or_app. right. by left.
Qed.

(** The panel, case by case. *)
Lemma show_tournament_settings_cases d :
  flags_wf d ->
  show_tournament_settings d =
  match find active (tournament_settings d) with
  | Some t =>
      Ok {| shown_required_votes := required_votes t;
            shown_duration := tournament_duration t;
            shown_active := true;
            buttons := [lit "set_votes"; lit "set_time"; lit "stop_tournament";
                        lit "admin_back_to_admin"] |}
  | None =>
      let last_row := head (order_by_id_desc (tournament_settings d)) in
      Ok {| shown_required_votes := from_option required_votes 15 last_row;
            shown_duration := from_option tournament_duration 24 last_row;
            shown_active := false;
            buttons := [lit "set_votes"; lit "set_time"; lit "start_tournament";
                        lit "admin_back_to_admin"] |}
  end.
Proof.
  intros Hinv. unfold show_tournament_settings. simpl.
  destruct (find active (tournament_settings d)) as [t|] eqn:Hfind; simpl.
  - apply find_some in Hfind as [_ Hact]. unfold active in Hact.
    apply Z.eqb_eq in Hact. by rewrite Hact.
  - destruct (head (order_by_id_desc (tournament_settings d))) as [t|] eqn:Hhead;
      simpl; [|done].
    pose proof (order_by_id_desc_head _ _ Hhead) as Hin.
    pose proof (proj1 (find_none_iff _ _) Hfind t Hin) as Hoff.
    unfold flags_wf in Hinv. rewrite Forall_forall in Hinv.
    destruct (Hinv t (proj2 (list_elem_of_In _ _) Hin)) as [H0|H1].
    + by rewrite H0.
    + unfold active in Hoff. by rewrite H1 in Hoff.
Qed.

(** X28.  After any run of the program from a store whose [is_active]
    values are 0 or 1, [show_tournament_settings] sends its panel, and
    the panel agrees with the store: it says "active" and offers
    [stop_tournament] exactly when some tournament row is active, and
    offers [start_tournament] otherwise; with a tournament active it
    shows the threshold and the duration of the first active row; with no
    row at all it shows 15 and 24.  The button it offers is never
    refused for the state of the tournament: pressed by the
    administrator it is answered neither "already active" nor "no active
    tournament". *)
Theorem settings_panel_offers (now chat : Z) (os : list operation) (w0 : world) :
  flags_wf (store w0) ->
  let w := steps os w0 in
  let d := store w in
  exists p b,
    show_tournament_settings d = Ok p
    /\ buttons p = [lit "set_votes"; lit "set_time"; b; lit "admin_back_to_admin"]
    /\ b = (if shown_active p then lit "stop_tournament" else lit "start_tournament")
    /\ (shown_active p = true <-> exists t, In t (tournament_settings d) /\ is_active t = 1)
    /\ (forall t, find active (tournament_settings d) = Some t ->
          shown_required_votes p = required_votes t
          /\ shown_duration p = tournament_duration t)
    /\ (tournament_settings d = [] -> shown_required_votes p = 15 /\ shown_duration p = 24)
    /\ let r := handle_tournament_settings now
                  {| c_from := ADMIN_ID; c_chat := chat; c_data := b |} w in
       snd r <> [reply_to tournament_already_active]
       /\ snd r <> [reply_to no_tournament_to_stop]
       /\ snd r <> [].
Proof.
  intros Hinv0 w d.
  assert (Hinv : flags_wf d) by (by apply steps_flags_wf).
  rewrite (show_tournament_settings_cases d Hinv).
  destruct (find active (tournament_settings d)) as [t|] eqn:Hfind.
  - eexists _, _. split; [reflexivity|]. cbn [buttons shown_active shown_required_votes
                                               shown_duration].
    split; [reflexivity|]. split; [reflexivity|].
    split.
    { split; [|done]. intros _. apply find_some in Hfind as [Hin Hact].
      exists t. split; [done|]. by apply Z.eqb_eq. }
    split; [by intros t' [= <-]|].
    split; [by intros Hnil; rewrite Hnil in Hfind|].
    unfold handle_tournament_settings. cbn [c_from c_data c_chat].
    rewrite bool_decide_false by (by intros H; apply H).
    change (pystr_eqb (lit "stop_tournament") (lit "set_votes")) with false.
    change (pystr_eqb (lit "stop_tournament") (lit "set_time")) with false.
    change (pystr_eqb (lit "stop_tournament") (lit "start_tournament")) with false.
    change (pystr_eqb (lit "stop_tournament") (lit "stop_tournament")) with true.
    cbn iota. rewrite stop_tournament_cases. fold d. rewrite Hfind. by simpl.
  - eexists _, _. split; [reflexivity|]. cbn [buttons shown_active shown_required_votes
                                               shown_duration].
    split; [reflexivity|]. split; [reflexivity|].
    split.
    { split; [done|]. intros (t & Hin & Hact).
      pose proof (proj1 (find_none_iff _ _) Hfind t Hin) as Hoff.
      unfold active in Hoff. by rewrite Hact in Hoff. }
    split; [done|].
    split; [by intros ->|].
    unfold handle_tournament_settings. cbn [c_from c_data c_chat].
    rewrite bool_decide_false by (by intros H; apply H).
    change (pystr_eqb (lit "start_tournament") (lit "set_votes")) with false.
    change (pystr_eqb (lit "start_tournament") (lit "set_time")) with false.
    change (pystr_eqb (lit "start_tournament") (lit "start_tournament")) with true.
    cbn iota. rewrite start_new_tournament_cases. fold d. rewrite Hfind.
    by destruct (length (approved_rows d) <? 2)%nat.
Qed.

(** The sample tournament is stopped; the panel then offers to start one. *)
Lemma settings_panel_offers_witness :
  let w := steps [Handle_tournament_settings 1700000100 (press ADMIN_ID "stop_tournament")]
             (sample_world []) in
  exists p,
    show_tournament_settings (store w) = Ok p
    /\ buttons p = [lit "set_votes"; lit "set_time"; lit "start_tournament";
                    lit "admin_back_to_admin"]
    /\ shown_required_votes p = 3.
Proof.
  intros w.
  assert (Hinv : flags_wf (store (sample_world []))).
  { apply Forall_singleton. by right. }
  destruct (settings_panel_offers 1700000200 ADMIN_ID
              [Handle_tournament_settings 1700000100 (press ADMIN_ID "stop_tournament")]
              (sample_world []) Hinv) as (p & b & Hp & Hb & _).
  exists p. split; [exact Hp|].
  change (show_tournament_settings (store w) = Ok p) in Hp.
  vm_compute in Hp. injection Hp as <-. split; reflexivity.
Defined.

(** * The keep-alive service *)

Import keep_alive.

(** ** Setting up *)

Lemma endswith_slash_last u : endswith_slash u = true -> last u = Some 47.
Proof.
  unfold endswith_slash. destruct (last u) as [c|]; [|done].
  intros Hc. apply Z.eqb_eq in Hc. by subst.
Qed.

Lemma normalised_last u :
  last (if endswith_slash u then u else u ++ lit "/") = Some 47.
Proof.
  destruct (endswith_slash u) eqn:E; [by apply endswith_slash_last|].
  change (lit "/") with [47]. by rewrite last_snoc.
Qed.

Lemma last_endswith_slash u : last u = Some 47 -> endswith_slash u = true.
Proof. unfold endswith_slash. by intros ->. Qed.

(** X23.  After [setup] the base address ends with ['/'] and the service
    pings two addresses, the base followed by [ping] and the base itself.
    The base is the configured address, with a ['/'] appended unless it
    already ends with one; with no address configured, or an empty one,
    it is ["https://your-app.onrender.com/"].  [setup] leaves the
    statistics and the running flag alone, and setting up twice is the
    same as setting up once. *)
Theorem setup_normalises (s : KeepAliveService) :
  let s' := setup s in
  exists base,
    render_url s' = Some base
    /\ last base = Some 47
    /\ ping_urls s' = [base ++ lit "ping"; base]
    /\ (forall u, render_url s = Some u -> u <> [] ->
          base = if endswith_slash u then u else u ++ lit "/")
    /\ (render_url s = None \/ render_url s = Some [] ->
          base = lit "https://your-app.onrender.com/")
    /\ stats s' = stats s
    /\ is_running s' = is_running s
    /\ setup s' = s'.
Proof.
  intros s'. subst s'. unfold setup at 1 2 3 4 5.
  set (u0 := match render_url s with
             | Some u => if bool_decide (u = []) then default_url else u
             | None => default_url
             end).
  set (base := if endswith_slash u0 then u0 else u0 ++ lit "/").
  assert (Hlast : last base = Some 47) by apply normalised_last.
  exists base. cbn [render_url ping_urls stats is_running].
  split; [done|]. split; [done|]. split; [done|].
  split.
  { intros u Hu Hne. subst base u0. rewrite Hu. by rewrite bool_decide_false. }
  split.
  { intros [Hu|Hu]; subst base u0; rewrite Hu; reflexivity. }
  split; [done|]. split; [done|].
  unfold setup. fold u0. fold base. cbn [render_url is_running stats thread].
  assert (Hne : base <> []) by (intros Hnil; by rewrite Hnil in Hlast).
  rewrite (bool_decide_false (base = [])) by done.
  by rewrite (last_endswith_slash base Hlast).
Qed.

(** ** The statistics *)

Lemma append_error_last_ten x l : append_error x l = last_ten (l ++ [x]).
Proof.
  unfold append_error, last_ten. case_bool_decide as Hlen; [done|].
  by replace (length (l ++ [x]) - 10)%nat with 0%nat by lia.
Qed.

Lemma last_ten_length {A} (l : list A) : (length (last_ten l) <= 10)%nat.
Proof. unfold last_ten. rewrite length_drop. lia. Qed.

Lemma last_ten_app {A} (l k : list A) : last_ten (last_ten l ++ k) = last_ten (l ++ k).
Proof.
  unfold last_ten. rewrite !length_app, length_drop.
  destruct (decide (length l <= 10)%nat) as [Hle|Hgt].
  - replace (length l - 10)%nat with 0%nat by lia. rewrite drop_0.
    by replace (length l - 0)%nat with (length l) by lia.
  - rewrite !drop_app, drop_drop, length_drop. f_equal; f_equal; lia.
Qed.

Lemma do_ping_agrees e e' i u :
  (forall a, get e i a = get e' i a) -> randint e i = randint e' i ->
  _do_ping e i u = _do_ping e' i u.
Proof. intros Hget Hrand. unfold _do_ping. by rewrite Hrand, Hget. Qed.

(** What the loop over the addresses leaves untouched, and what it counts. *)
Lemma ping_all_counts e urls : forall i st,
  let r := ping_all e i urls st in
  total_pings (fst r) = total_pings st
  /\ failed_pings (fst r) = failed_pings st
  /\ start_time (fst r) = start_time st
  /\ successful_pings (fst r) = successful_pings st + (if snd r then 1 else 0)
  /\ ((length (errors st) <= 10)%nat -> (length (errors (fst r)) <= 10)%nat).
Proof.
  induction urls as [|u urls IH]; intros i st; simpl.
  - repeat split; [lia|done].
  - destruct (_do_ping e i u) as [[] err]; simpl.
    + repeat split; done.
    + destruct (IH (S i)
                  {| total_pings := total_pings st;
                     successful_pings := successful_pings st;
                     failed_pings := failed_pings st;
                     last_successful_ping := last_successful_ping st;
                     start_time := start_time st;
                     errors := append_error {| time := now e i; url := u; error := err |}
                                 (errors st) |}) as (H1 & H2 & H3 & H4 & H5).
      simpl in *. repeat split; try done.
      intros _. apply H5. rewrite append_error_last_ten. apply last_ten_length.
Qed.

Lemma pass_counts e s :
  let st := stats s in
  let st' := stats (pass e s) in
  total_pings st' = total_pings st + 1
  /\ (successful_pings st' = successful_pings st + 1 /\ failed_pings st' = failed_pings st
      \/ successful_pings st' = successful_pings st /\ failed_pings st' = failed_pings st + 1)
  /\ start_time st' = start_time st
  /\ ((length (errors st) <= 10)%nat -> (length (errors st') <= 10)%nat)
  /\ is_running (pass e s) = is_running s
  /\ ping_urls (pass e s) = ping_urls s
  /\ render_url (pass e s) = render_url s.
Proof.
  intros st st'. subst st st'. unfold pass.
  set (st0 := {| total_pings := total_pings (stats s) + 1;
                 successful_pings := successful_pings (stats s);
                 failed_pings := failed_pings (stats s);
                 last_successful_ping := last_successful_ping (stats s);
                 start_time := start_time (stats s);
                 errors := errors (stats s) |}).
  pose proof (ping_all_counts e (ping_urls s) 0%nat st0) as H. simpl in H.
  destruct (ping_all e 0 (ping_urls s) st0) as [st1 []]; simpl in *;
    destruct H as (H1 & H2 & H3 & H4 & H5); repeat split; try done; lia.
Qed.

(** X24.  Every pass of the loop is counted once, as a success or as a
    failure: while the service runs, after any number of passes
    [total_pings] has grown by the number of passes, and so has the sum
    of [successful_pings] and [failed_pings], neither of which ever
    decreases.  The loop keeps at most ten errors once it holds at most
    ten, and changes neither the start time nor the addresses nor the
    running flag. *)
Theorem every_pass_is_counted (es : list environment) (s : KeepAliveService) :
  is_running s = true ->
  let st := stats s in
  let s' := _keep_alive_task es s in
  let st' := stats s' in
  total_pings st' = total_pings st + Z.of_nat (length es)
  /\ (successful_pings st' - successful_pings st)
     + (failed_pings st' - failed_pings st) = Z.of_nat (length es)
  /\ successful_pings st <= successful_pings st'
  /\ failed_pings st <= failed_pings st'
  /\ ((length (errors st) <= 10)%nat -> (length (errors st') <= 10)%nat)
  /\ start_time st' = start_time st
  /\ ping_urls s' = ping_urls s
  /\ is_running s' = true.
Proof.
  revert s. induction es as [|e es IH]; intros s Hrun; cbn zeta.
  - simpl. repeat split; try done; lia.
  - cbn [_keep_alive_task]. rewrite Hrun.
    destruct (pass_counts e s) as (H1 & H2 & H3 & H4 & H5 & H6 & _).
    assert (Hrun' : is_running (pass e s) = true) by congruence.
    destruct (IH (pass e s) Hrun') as (I1 & I2 & I3 & I4 & I5 & I6 & I7 & I8).
    rewrite length_cons, Nat2Z.inj_succ.
    repeat split; first [lia | congruence].
Qed.

(** A fresh service over three passes: the first address fails and the
    second answers; both fail; the first answers. *)
Lemma every_pass_is_counted_witness :
  let s := start_keep_alive_thread None 1000 in
  let es := [sample_environment [503; 200] 2000; sample_environment [503; 503] 3000;
             sample_environment [200] 4000] in
  total_pings (stats (_keep_alive_task es s)) = 3
  /\ (length (errors (stats (_keep_alive_task es s))) <= 10)%nat.
Proof.
  intros s es.
  destruct (every_pass_is_counted es s eq_refl) as (H1 & _ & _ & _ & H5 & _).
  split; [exact H1|]. apply H5. simpl. lia.
Defined.

(** ** One pass *)

Lemma ping_all_none e urls : forall i st,
  (forall j u, urls !! j = Some u -> fst (_do_ping e (i + j) u) = false) ->
  ping_all e i urls st =
  ({| total_pings := total_pings st;
      successful_pings := successful_pings st;
      failed_pings := failed_pings st;
      last_successful_ping := last_successful_ping st;
      start_time := start_time st;
      errors := match urls with
                | [] => errors st
                | _ => last_ten (errors st ++ failures e i urls)
                end |}, false).
Proof.
  induction urls as [|u urls IH]; intros i st Hall; simpl.
  - by destruct st.
  - pose proof (Hall 0%nat u eq_refl) as Hu. rewrite Nat.add_0_r in Hu.
    destruct (_do_ping e i u) as [[] err] eqn:E; [done|]. simpl.
    rewrite IH; simpl.
    + f_equal. f_equal. rewrite append_error_last_ten.
      destruct urls as [|u' urls]; [done|].
      by rewrite last_ten_app, <- app_assoc.
    + intros j u' Hj. cbn [Nat.add]; rewrite <- ?Nat.add_succ_r.
      by apply (Hall (S j)).
Qed.

Lemma ping_all_first e urls : forall k i st u,
  urls !! k = Some u ->
  fst (_do_ping e (i + k) u) = true ->
  (forall j u', (j < k)%nat -> urls !! j = Some u' -> fst (_do_ping e (i + j) u') = false) ->
  ping_all e i urls st =
  ({| total_pings := total_pings st;
      successful_pings := successful_pings st + 1;
      failed_pings := failed_pings st;
      last_successful_ping := Some (now e (i + k));
      start_time := start_time st;
      errors := match k with
                | O => errors st
                | _ => last_ten (errors st ++ failures e i (take k urls))
                end |}, true).
Proof.
  induction urls as [|u0 urls IH]; intros k i st u Hk Hok Hbefore; [done|].
  destruct k as [|k]; simpl in Hk.
  - simplify_eq. rewrite Nat.add_0_r in *. simpl.
    destruct (_do_ping e i u) as [[] err]; done.
  - pose proof (Hbefore 0%nat u0 ltac:(lia) eq_refl) as Hu. rewrite Nat.add_0_r in Hu.
    simpl. destruct (_do_ping e i u0) as [[] err] eqn:E; [done|]. simpl.
    rewrite (IH k (S i) _ u Hk); simpl.
    + cbn [Nat.add]; rewrite <- ?Nat.add_succ_r. f_equal. f_equal.
      rewrite append_error_last_ten.
      destruct k as [|k]; [by rewrite take_0|].
      by rewrite last_ten_app, <- app_assoc.
    + cbn [Nat.add]; rewrite <- ?Nat.add_succ_r. done.
    + intros j u' Hj Hu'. cbn [Nat.add]; rewrite <- ?Nat.add_succ_r.
      apply (Hbefore (S j)); [lia|done].
Qed.

Lemma failures_agree e e' urls : forall i,
  (forall j, (j < length urls)%nat ->
     (forall a, get e (i + j) a = get e' (i + j) a)
     /\ randint e (i + j) = randint e' (i + j) /\ now e (i + j) = now e' (i + j)) ->
  failures e i urls = failures e' i urls.
Proof.
  induction urls as [|u urls IH]; intros i Hag; [done|]. simpl.
  destruct (Hag 0%nat ltac:(simpl; lia)) as (Hg & Hr & Hn). rewrite Nat.add_0_r in *.
  rewrite Hn, (do_ping_agrees e e' i u Hg Hr). f_equal.
  apply IH. intros j Hj. cbn [Nat.add]; rewrite <- ?Nat.add_succ_r.
  apply Hag. simpl. lia.
Qed.

Lemma failures_length e urls : forall i, length (failures e i urls) = length urls.
Proof. induction urls as [|u urls IH]; intros i; [done|]. simpl. by rewrite IH. Qed.

(** X25.  A pass in which no address answers with status 200 counts one
    failure and no success, leaves the time of the last success as it
    was, and records one error for each address, in the order of the
    addresses, keeping the last ten of all errors held. *)
Theorem all_failed_pass (e : environment) (s : KeepAliveService) :
  (forall j, ~ answers e (ping_urls s) j) ->
  let st := stats s in
  let st' := stats (pass e s) in
  failed_pings st' = failed_pings st + 1
  /\ successful_pings st' = successful_pings st
  /\ last_successful_ping st' = last_successful_ping st
  /\ errors st' = match ping_urls s with
                  | [] => errors st
                  | _ => last_ten (errors st ++ failures e 0 (ping_urls s))
                  end
  /\ length (failures e 0 (ping_urls s)) = length (ping_urls s).
Proof.
  intros Hnone st st'. subst st st'. unfold pass.
  rewrite ping_all_none.
  - simpl. split; [done|]. split; [done|]. split; [done|]. split; [done|].
    apply failures_length.
  - intros j u Hj. simpl. destruct (fst (_do_ping e j u)) eqn:E; [|done].
    destruct (Hnone j). by exists u.
Qed.

(** Both addresses answer 503 and 404. *)
Lemma all_failed_pass_witness :
  let s := start_keep_alive_thread (Some (lit "https://bot.example")) 1000 in
  let e := sample_environment [503; 404] 2000 in
  failed_pings (stats (pass e s)) = 1
  /\ errors (stats (pass e s)) =
       [{| time := 2000; url := lit "https://bot.example/ping";
           error := Some (unexpected_status 503) |};
        {| time := 2001; url := lit "https://bot.example/";
           error := Some (unexpected_status 404) |}].
Proof.
  intros s e.
  assert (Hnone : forall j, ~ answers e (ping_urls s) j).
  { intros j (u & Hu & Hok). destruct j as [|[|j]]; simpl in Hu; simplify_eq; discriminate. }
  destruct (all_failed_pass e s Hnone) as (H1 & _ & _ & H4 & _).
  split; [exact H1|]. rewrite H4. reflexivity.
Defined.

(** X26.  The first address that answers with status 200 ends the pass:
    the pass counts one success and no failure, notes the time of that
    request as the last success, records one error for each address
    tried before it, and requests no address after it; what the later
    requests would have met makes no difference. *)
Theorem first_answer_wins (e e' : environment) (s : KeepAliveService) (k : nat) :
  answers e (ping_urls s) k ->
  (forall j, (j < k)%nat -> ~ answers e (ping_urls s) j) ->
  (forall j, (j <= k)%nat ->
     (forall a, get e j a = get e' j a)
     /\ randint e j = randint e' j /\ now e j = now e' j) ->
  let st := stats s in
  let st' := stats (pass e s) in
  successful_pings st' = successful_pings st + 1
  /\ failed_pings st' = failed_pings st
  /\ last_successful_ping st' = Some (now e k)
  /\ errors st' = match k with
                  | O => errors st
                  | _ => last_ten (errors st ++ failures e 0 (take k (ping_urls s)))
                  end
  /\ pass e' s = pass e s.
Proof.
  intros (u & Hu & Hok) Hbefore Hag st st'. subst st st'.
  assert (Hfail : forall j u', (j < k)%nat -> ping_urls s !! j = Some u' ->
                    fst (_do_ping e (0 + j) u') = false).
  { intros j u' Hj Hu'. simpl. destruct (fst (_do_ping e j u')) eqn:E; [|done].
    destruct (Hbefore j Hj). by exists u'. }
  assert (Hsame : forall j u', (j <= k)%nat -> _do_ping e' j u' = _do_ping e j u').
  { intros j u' Hj. destruct (Hag j Hj) as (Hg & Hr & _). symmetry.
    by apply do_ping_agrees. }
  assert (Hlen : (k < length (ping_urls s))%nat) by (by eapply lookup_lt_Some).
  unfold pass.
  rewrite (ping_all_first e (ping_urls s) k 0%nat _ u Hu Hok Hfail).
  rewrite (ping_all_first e' (ping_urls s) k 0%nat _ u Hu).
  - simpl. repeat split; try done.
    destruct (Hag k ltac:(lia)) as (_ & _ & Hnow). rewrite <- Hnow.
    destruct k as [|k']; [done|].
    rewrite (failures_agree e' e (take (S k') (ping_urls s)) 0%nat); [done|].
    intros j Hj. rewrite length_take in Hj. simpl.
    destruct (Hag j ltac:(lia)) as (Hg & Hr & Hn). by repeat split.
  - simpl. by rewrite Hsame.
  - intros j u' Hj Hu'. simpl. rewrite Hsame by lia. by apply (Hfail j).
Qed.

(** The first address answers 503, the second 200; an environment whose
    third request differs gives the same pass. *)
Lemma first_answer_wins_witness :
  let s := start_keep_alive_thread None 1000 in
  let e := sample_environment [503; 200] 2000 in
  let e' := sample_environment [503; 200; 200] 2000 in
  successful_pings (stats (pass e s)) = 1
  /\ last_successful_ping (stats (pass e s)) = Some 2001
  /\ pass e' s = pass e s.
Proof.
  intros s e e'.
  assert (Hk : answers e (ping_urls s) 1).
  { exists (lit "https://your-app.onrender.com/"). split; reflexivity. }
  assert (Hbefore : forall j, (j < 1)%nat -> ~ answers e (ping_urls s) j).
  { intros j Hj (u & Hu & Hok). destruct j as [|j]; [|lia]. simpl in Hu.
    simplify_eq; try discriminate. }
  assert (Hag : forall j, (j <= 1)%nat ->
            (forall a, get e j a = get e' j a)
            /\ randint e j = randint e' j /\ now e j = now e' j).
  { intros j Hj. destruct j as [|[|j]]; [repeat split..|lia]. }
  destruct (first_answer_wins e e' s 1 Hk Hbefore Hag) as (H1 & _ & H3 & _ & H5).
  exact (conj H1 (conj H3 H5)).
Defined.

(** ** Starting and stopping *)

